(** * Shopify AI chat agent: the two chat endpoints of [api/chat.js]

    The repository holds two near-duplicate implementations of one chat
    turn: a serverless handler ([module.exports], first half of the file)
    and a standalone Express server ([app.post('/chat')], second half).
    Both are embedded below, each in its own module, over a small model of
    the JavaScript values and operators the source uses. *)

From Stdlib Require Import String Ascii ZArith List Bool Lia.
From Stdlib Require Import DecimalString.
Import ListNotations.
Open Scope string_scope.

Set Implicit Arguments.
Local Set Warnings "-register-all".

(** ** JavaScript values and the operators the source applies to them *)

Module JS.

(** Values as [JSON.parse] and the HTTP clients hand them to the source.
    Numbers are the integer-valued ones a double holds exactly and prints
    in plain decimal, of magnitude below [2^53] (quantities; the commerce
    platform sends money amounts as strings).  A string is the sequence
    of bytes of its UTF-8 text.  An object keeps its properties in
    insertion order, the order in which [JSON.stringify] prints the
    objects the source builds.  A boxed primitive ([Object(1)]) is
    identified with the primitive, as [JSON.stringify] does. *)
Inductive value :=
| VUndef
| VNull
| VBool (b : bool)
| VNum (n : Z)
| VStr (s : string)
| VArr (xs : list value)
| VObj (fields : list (string * value)).

(** What a [throw] or a rejected promise carries; [message_of] is [err.message]. *)
Inductive exn :=
| Error (message : string)        (* [new Error(message)] of the source *)
| TypeError (message : string)    (* raised by the engine *)
| SyntaxError (message : string)  (* raised by [JSON.parse] *)
| FetchError (message : string)   (* rejection of [fetch] or of [res.json()] *)
| APIError (message : string).    (* rejection of the model client *)

Definition message_of (e : exn) : string :=
  match e with
  | Error m | TypeError m | SyntaxError m | FetchError m | APIError m => m
  end.

(** Synchronous code that may throw. *)
Inductive result (A : Type) :=
| Ok (a : A)
| Throw (e : exn).
Arguments Ok {A} a.
Arguments Throw {A} e.

Definition rbind {A B} (r : result A) (k : A -> result B) : result B :=
  match r with
  | Ok a => k a
  | Throw e => Throw e
  end.

Notation "'let?' x ':=' e 'in' k" := (rbind e (fun x => k))
  (at level 10, x name, e at level 100, k at level 200).

Fixpoint mapM {A B} (f : A -> result B) (l : list A) : result (list B) :=
  match l with
  | [] => Ok []
  | x :: r => let? y := f x in let? ys := mapM f r in Ok (y :: ys)
  end.

(** [!v] is [negb (truthy v)]. *)
Definition truthy (v : value) : bool :=
  match v with
  | VUndef | VNull => false
  | VBool b => b
  | VNum n => negb (n =? 0)%Z
  | VStr s => negb (s =? "")
  | VArr _ | VObj _ => true
  end.

Definition nullish (v : value) : bool :=
  match v with
  | VUndef | VNull => true
  | _ => false
  end.

(** [a || b] *)
Definition or_ (a b : value) : value := if truthy a then a else b.

Fixpoint assoc (k : string) (fs : list (string * value)) : option value :=
  match fs with
  | [] => None
  | (k', v) :: r => if k' =? k then Some v else assoc k r
  end.

(** Own property [k] of [v], [undefined] when there is none.  None of the
    property names the source reads ([errors], [data], [edges], [node],
    [id], ...) exists on a prototype of a JSON value, so only own
    properties of objects answer. *)
Definition field (k : string) (v : value) : value :=
  match v with
  | VObj fs => match assoc k fs with Some x => x | None => VUndef end
  | _ => VUndef
  end.

(** How the engine names a nullish value in its messages. *)
Definition nullish_name (v : value) : string :=
  match v with VNull => "null" | _ => "undefined" end.

(** The engine's message for reading the property [k] of a nullish [v]. *)
Definition cannot_read (v : value) (k : string) : exn :=
  TypeError ("Cannot read properties of " ++ nullish_name v
             ++ " (reading '" ++ k ++ "')").

(** [v.k] *)
Definition get (v : value) (k : string) : result value :=
  if nullish v then Throw (cannot_read v k) else Ok (field k v).

(** [v?.k] *)
Definition opt_get (v : value) (k : string) : result value :=
  if nullish v then Ok VUndef else get v k.

(** A parameter or callback pattern [({ k })] applied to [v]. *)
Definition destructure (v : value) (k : string) : result value :=
  if nullish v
  then Throw (TypeError
                ("Cannot destructure property '" ++ k ++ "' of '"
                 ++ match v with VNull => "object null" | _ => "undefined" end
                 ++ "' as it is " ++ nullish_name v ++ "."))
  else Ok (field k v).

(** [v[0]].  Of a string it is the first character; the source reads only
    the [node] of what it finds here, which no string has, so the first
    byte stands for it. *)
Definition first (v : value) : result value :=
  match v with
  | VUndef | VNull => Throw (cannot_read v "0")
  | VArr xs => Ok (match xs with x :: _ => x | [] => VUndef end)
  | VStr (String c _) => Ok (VStr (String c ""))
  | VObj _ => Ok (field "0" v)
  | _ => Ok VUndef
  end.

(** [v?.[0]] *)
Definition opt_first (v : value) : result value :=
  if nullish v then Ok VUndef else first v.

(** [v.map(f)]: only arrays have a [map].  On any other value the engine
    names the expression called in its message; [map] stands for it. *)
Definition array_map (f : value -> result value) (v : value) : result value :=
  match v with
  | VArr xs => let? ys := mapM f xs in Ok (VArr ys)
  | VUndef | VNull => Throw (cannot_read v "map")
  | _ => Throw (TypeError "map is not a function")
  end.

(** [v?.map(f)] *)
Definition opt_array_map (f : value -> result value) (v : value) : result value :=
  if nullish v then Ok VUndef else array_map f v.

(** The decimal text of a number of the range above. *)
Definition decimal (n : Z) : string := NilZero.string_of_int (Z.to_int n).

(** String conversion of a template literal [`${v}`].  An object with an
    own property [toString] (a JSON value, so not callable) has no
    primitive value, which throws; any other object is [[object Object]]
    and an array is its elements joined by commas. *)
Fixpoint toString (v : value) : result string :=
  match v with
  | VUndef => Ok "undefined"
  | VNull => Ok "null"
  | VBool true => Ok "true"
  | VBool false => Ok "false"
  | VNum n => Ok (decimal n)
  | VStr s => Ok s
  | VArr xs =>
      let fix join (l : list value) : result (list string) :=
        match l with
        | [] => Ok []
        | x :: r =>
            let? s := (if nullish x then Ok "" else toString x) in
            let? ss := join r in Ok (s :: ss)
        end in
      let? parts := join xs in Ok (String.concat "," parts)
  | VObj fs =>
      match assoc "toString" fs with
      | Some _ => Throw (TypeError "Cannot convert object to primitive value")
      | None => Ok "[object Object]"
      end
  end.

(** The white space and line terminators [String.prototype.trim] strips,
    by the bytes of their UTF-8 text: the ASCII ones (tab to carriage
    return, and the space), U+00A0, and the three-byte ones U+1680,
    U+2000 to U+200A, U+2028, U+2029, U+202F, U+205F, U+3000 and U+FEFF. *)
Definition is_space (c : ascii) : bool :=
  let n := nat_of_ascii c in
  ((9 <=? n) && (n <=? 13) || (n =? 32))%nat.

Definition is_space2 (a b : ascii) : bool :=
  ((nat_of_ascii a =? 194) && (nat_of_ascii b =? 160))%nat.

Definition is_space3 (a b c : ascii) : bool :=
  let x := nat_of_ascii a in
  let y := nat_of_ascii b in
  let z := nat_of_ascii c in
  ((x =? 225) && (y =? 154) && (z =? 128)
   || (x =? 226) && (y =? 128)
      && ((128 <=? z) && (z <=? 138) || (z =? 168) || (z =? 169) || (z =? 175))
   || (x =? 226) && (y =? 129) && (z =? 159)
   || (x =? 227) && (y =? 128) && (z =? 128)
   || (x =? 239) && (y =? 187) && (z =? 191))%nat.

Fixpoint trim_start (s : string) : string :=
  match s with
  | String a r =>
      if is_space a then trim_start r
      else match r with
           | String b r2 =>
               if is_space2 a b then trim_start r2
               else match r2 with
                    | String c r3 => if is_space3 a b c then trim_start r3 else s
                    | EmptyString => s
                    end
           | EmptyString => s
           end
  | EmptyString => s
  end.

(** A suffix is dropped when it is white space to its end. *)
Fixpoint trim_end (s : string) : string :=
  match s with
  | String a r => if trim_start s =? "" then "" else String a (trim_end r)
  | EmptyString => s
  end.

(** [s.trim()] *)
Definition trim (s : string) : string := trim_end (trim_start s).

(** *** [JSON.stringify] *)

Definition dquote : ascii := "034"%char.
Definition backslash : ascii := "092"%char.

Definition hex_digit (n : nat) : ascii :=
  ascii_of_nat (if (n <? 10)%nat then 48 + n else 87 + n).

Definition escape_char (c : ascii) : string :=
  let n := nat_of_ascii c in
  if (n =? 34)%nat then String backslash (String dquote "")
  else if (n =? 92)%nat then String backslash (String backslash "")
  else if (n =? 8)%nat then String backslash "b"
  else if (n =? 12)%nat then String backslash "f"
  else if (n =? 10)%nat then String backslash "n"
  else if (n =? 13)%nat then String backslash "r"
  else if (n =? 9)%nat then String backslash "t"
  else if (n <? 32)%nat
       then String backslash
              ("u00" ++ String (hex_digit (n / 16)) (String (hex_digit (n mod 16)) ""))
  else String c "".

Fixpoint escape (s : string) : string :=
  match s with
  | EmptyString => ""
  | String c r => escape_char c ++ escape r
  end.

Definition quote (s : string) : string :=
  String dquote (escape s ++ String dquote "").

(** The text of a value; [undefined] properties are left out and
    [undefined] array elements print as [null]. *)
Fixpoint print (v : value) : string :=
  match v with
  | VUndef | VNull => "null"
  | VBool true => "true"
  | VBool false => "false"
  | VNum n => decimal n
  | VStr s => quote s
  | VArr xs => "[" ++ String.concat "," (map print xs) ++ "]"
  | VObj fs =>
      let fix members (l : list (string * value)) : list string :=
        match l with
        | [] => []
        | (k, x) :: r =>
            match x with
            | VUndef => members r
            | _ => (quote k ++ ":" ++ print x) :: members r
            end
        end in
      "{" ++ String.concat "," (members fs) ++ "}"
  end.

(** [JSON.stringify(v)]: a string, or nothing ([undefined]) for [undefined]. *)
Definition JSON_stringify (v : value) : option string :=
  match v with
  | VUndef => None
  | _ => Some (print v)
  end.

(** A string that may be [undefined]: as a value, inside a template
    literal, and as the argument of [new Error]. *)
Definition maybe (o : option string) : value :=
  match o with Some s => VStr s | None => VUndef end.

Definition interpolate (o : option string) : string :=
  match o with Some s => s | None => "undefined" end.

Definition new_Error (o : option string) : exn :=
  Error (match o with Some s => s | None => "" end).

(** The value a client decodes from [JSON.stringify(v)]. *)
Fixpoint jsonify (v : value) : value :=
  match v with
  | VUndef => VNull
  | VArr xs => VArr (map jsonify xs)
  | VObj fs =>
      VObj ((fix members (l : list (string * value)) : list (string * value) :=
               match l with
               | [] => []
               | (k, x) :: r =>
                   match x with
                   | VUndef => members r
                   | _ => (k, jsonify x) :: members r
                   end
               end) fs)
  | _ => v
  end.

End JS.

(** ** The process environment, the two external services and their effects *)

Module Env.
Import JS.

(** Result of [JSON.parse] and of [res.json()]. *)
Inductive parsed :=
| Parsed (v : value)
| Unparsable (message : string).

(** The message of a chat completion: [content] is a string or [null];
    [function_call], when present, names a function and gives its
    arguments as a string. *)
Record FunctionCall := { fc_name : string; fc_arguments : string }.

Record assistant_message := {
  content : value;
  function_call : option FunctionCall
}.

Inductive chat_message :=
| Message (role : string) (text : value)             (* [{ role, content }] *)
| Reply (m : assistant_message)                      (* the model's message, as received *)
| FunctionResult (name : string) (text : value).     (* [{ role: 'function', name, content }] *)

Record chat_request := {
  model : string;
  messages : list chat_message;
  catalog : option value;              (* the [functions] of the request *)
  function_call_mode : option string   (* its [function_call] *)
}.

(** What awaiting [openai.chat.completions.create] gives. *)
Inductive model_result :=
| ModelRejected (reason : string)
| Completion (choices : list assistant_message).

Record fetch_request := {
  url : string;
  method : string;
  headers : list (string * value);
  payload : value
}.

(** What awaiting [fetch] gives: a rejection on a network failure, a
    response otherwise, whatever its status code. *)
Inductive fetch_result :=
| FetchRejected (reason : string)
| FetchResolved (status : Z) (json : parsed).

(** Everything outside the source: the environment variables read at
    start-up, the engine's [JSON.parse], and how the model API and the
    commerce platform answer a request.  A missing or wrong
    [OPENAI_API_KEY] shows as a rejection of [create]. *)
Record World := {
  SHOPIFY_STORE : option string;      (* [process.env.SHOPIFY_STORE] *)
  SHOPIFY_TOKEN : option string;      (* [process.env.SHOPIFY_TOKEN] *)
  JSON_parse : string -> parsed;
  create : chat_request -> model_result;
  fetch : fetch_request -> fetch_result
}.

(** The calls a turn makes, and what it logs. *)
Inductive event :=
| ModelCall (r : chat_request)      (* [openai.chat.completions.create(r)] *)
| CommerceCall (r : fetch_request)  (* [fetch(url, r)] *)
| ConsoleError (e : exn).           (* [console.error(e)] *)

(** Asynchronous code: the calls it made, in order, and how it settled. *)
Definition M (A : Type) : Type := (list event * result A)%type.

Definition ret {A} (a : A) : M A := ([], Ok a).
Definition throw {A} (e : exn) : M A := ([], Throw e).
Definition lift {A} (r : result A) : M A := ([], r).

Definition bind {A B} (m : M A) (k : A -> M B) : M B :=
  match m with
  | (t, Ok a) => let (t', r) := k a in ((t ++ t')%list, r)
  | (t, Throw e) => (t, Throw e)
  end.

Notation "x <- m ;; k" := (bind m (fun x => k))
  (at level 100, m at next level, right associativity).

(** [try { m } catch (err) { h err }] *)
Definition try_catch {A} (m : M A) (h : exn -> M A) : M A :=
  match m with
  | (t, Ok a) => (t, Ok a)
  | (t, Throw e) => let (t', r) := h e in ((t ++ t')%list, r)
  end.

Definition await_create (w : World) (r : chat_request) : M (list assistant_message) :=
  ([ModelCall r],
   match create w r with
   | ModelRejected reason => Throw (APIError reason)
   | Completion choices => Ok choices
   end).

Definition await_fetch (w : World) (r : fetch_request) : M (Z * parsed) :=
  ([CommerceCall r],
   match fetch w r with
   | FetchRejected reason => Throw (FetchError reason)
   | FetchResolved status json => Ok (status, json)
   end).

(** [await res.json()] *)
Definition res_json (res : Z * parsed) : M value :=
  match snd res with
  | Parsed v => ret v
  | Unparsable m => throw (FetchError m)
  end.

Definition console_error (e : exn) : M unit := ([ConsoleError e], Ok tt).

(** [JSON.parse(s)] *)
Definition parse (w : World) (s : string) : result value :=
  match JSON_parse w s with
  | Parsed v => Ok v
  | Unparsable m => Throw (SyntaxError m)
  end.

(** [choices[0].message] *)
Definition first_message (choices : list assistant_message) : result assistant_message :=
  match choices with
  | m :: _ => Ok m
  | [] => Throw (TypeError "Cannot read properties of undefined (reading 'message')")
  end.

(** The request both implementations of [callShopify] hand to [fetch]:
    the same URL template, headers and body. *)
Definition graphql_request (w : World) (query : string) (variables : value)
    : fetch_request :=
  {| url := "https://" ++ interpolate (SHOPIFY_STORE w)
            ++ "/admin/api/2025-07/graphql.json";
     method := "POST";
     headers := [("Content-Type", VStr "application/json");
                 ("X-Shopify-Access-Token", maybe (SHOPIFY_TOKEN w))];
     payload := maybe (JSON_stringify
                         (VObj [("query", VStr query); ("variables", variables)])) |}.

(** [!v] for an environment variable *)
Definition missing (v : option string) : bool := negb (truthy (maybe v)).

(** A default parameter [v = d]. *)
Definition default (v d : value) : value :=
  match v with VUndef => d | _ => v end.

(** What [functionMap[name]] can be, and [fn(parsedArgs)]. *)
Inductive property :=
| Function (f : value -> M value)
| NotCallable
| Undefined.

Definition call (fn : property) (arg : value) : M value :=
  match fn with
  | Function f => f arg
  | NotCallable | Undefined => throw (TypeError "fn is not a function")
  end.

(** What a member of [Object.prototype] that needs its receiver throws
    when called without one. *)
Definition no_this {A} : M A :=
  throw (TypeError "Cannot convert undefined or null to object").

Definition no_this_in {A} (method : string) : M A :=
  throw (TypeError (method ++ " called on null or undefined")).

(** [functionMap] is an object literal, so a name it does not define is
    looked up on [Object.prototype]; the members are called as plain
    functions, [this] being [undefined]. *)
Definition Object_prototype (name : string) : property :=
  if name =? "constructor"
  then Function (fun v => ret (if nullish v then VObj [] else v))
  else if name =? "toString" then Function (fun _ => ret (VStr "[object Undefined]"))
  else if name =? "isPrototypeOf"
  then Function (fun v => match v with
                          | VArr _ | VObj _ => no_this
                          | _ => ret (VBool false)
                          end)
  else if name =? "toLocaleString"
  then Function (fun _ => no_this_in "Object.prototype.toLocaleString")
  else if (name =? "valueOf")
          || (name =? "hasOwnProperty") || (name =? "propertyIsEnumerable")
          || (name =? "__defineGetter__") || (name =? "__defineSetter__")
          || (name =? "__lookupGetter__") || (name =? "__lookupSetter__")
  then Function (fun _ => no_this)
  else if name =? "__proto__" then NotCallable
  else Undefined.

Definition get_path (v : value) (ks : list string) : result value :=
  fold_left (fun r k => let? x := r in get x k) ks (Ok v).

(** The callback that shapes one order edge, the same text in both
    implementations. *)
Definition tracking_record (t : value) : result value :=
  let? company := get t "company" in
  let? number := get t "number" in
  let? url := get t "url" in
  Ok (VObj [("company", company); ("number", number); ("url", url)]).

Definition fulfillment_record (f : value) : result value :=
  let? status := get f "status" in
  let? estimatedDeliveryAt := get f "estimatedDeliveryAt" in
  let? trackingInfo := get f "trackingInfo" in
  let? tracking := array_map tracking_record trackingInfo in
  Ok (VObj [("status", status); ("estimatedDeliveryAt", estimatedDeliveryAt);
            ("tracking", tracking)]).

Definition item_record (edge : value) : result value :=
  let? li := destructure edge "node" in
  let? title := get li "title" in
  let? quantity := get li "quantity" in
  Ok (VObj [("title", title); ("quantity", quantity)]).

Definition order_record (edge : value) : result value :=
  let? order := destructure edge "node" in
  let? id := get order "id" in
  let? name := get order "name" in
  let? processedAt := get order "processedAt" in
  let? total := get_path order ["totalPriceSet"; "shopMoney"; "amount"] in
  let? currency := get_path order ["totalPriceSet"; "shopMoney"; "currencyCode"] in
  let? fs := get order "fulfillments" in
  let? fulfillments := array_map fulfillment_record fs in
  let? lineItems := get_path order ["lineItems"; "edges"] in
  let? items := array_map item_record lineItems in
  Ok (VObj [("id", id); ("name", name); ("processedAt", processedAt);
            ("total", total); ("currency", currency);
            ("fulfillments", fulfillments); ("items", items)]).

(** An HTTP request as the handlers read it, and the response they send:
    [body] is what a client decodes from [res.json(x)]. *)
Record request := { req_method : string; req_body : value }.
Record response := { status : Z; body : value }.

Definition respond (code : Z) (x : value) : response :=
  {| status := code; body := jsonify x |}.

Fixpoint model_calls (t : list event) : nat :=
  match t with
  | ModelCall _ :: r => S (model_calls r)
  | _ :: r => model_calls r
  | [] => 0
  end.

Fixpoint commerce_calls (t : list event) : nat :=
  match t with
  | CommerceCall _ :: r => S (commerce_calls r)
  | _ :: r => commerce_calls r
  | [] => 0
  end.

(** A computation that makes no call. *)
Definition silent {A} (m : M A) : Prop := fst m = [].

(** A computation that either stops before the network, or makes one
    request and nothing else. *)
Definition one_attempt {A} (m : M A) : Prop :=
  (fst m = [] /\ exists e, snd m = Throw e) \/ (exists req, fst m = [CommerceCall req]).

(** The response carries a property [k]. *)
Definition has_field (k : string) (r : response) : bool :=
  match body r with
  | VObj fs => match assoc k fs with Some _ => true | None => false end
  | _ => false
  end.

End Env.

(** ** The serverless function ([module.exports], first implementation) *)

Module Serverless.
Import JS Env.

(** [callShopify(query, variables = {})] *)
Definition callShopify (w : World) (query : string) (variables : value) : M value :=
  let variables := default variables (VObj []) in
  res <- await_fetch w (graphql_request w query variables) ;;
  json <- res_json res ;;
  errors <- lift (get json "errors") ;;
  if truthy errors
  then throw (new_Error (JSON_stringify errors))
  else lift (get json "data").

Definition findProduct_gql : string := "
    query($query: String!) {
      products(first: 5, query: $query) {
        edges {
          node {
            id
            title
            description
            images(first: 1) { edges { node { url altText } } }
            priceRange { minVariantPrice { amount currencyCode } }
          }
        }
      }
    }
  ".

Definition product_record (edge : value) : result value :=
  let? node := destructure edge "node" in
  let? id := get node "id" in
  let? title := get node "title" in
  let? description := get node "description" in
  let? images := get_path node ["images"; "edges"] in
  let? image0 := first images in
  let? image := opt_get image0 "node" in
  let? price := get_path node ["priceRange"; "minVariantPrice"; "amount"] in
  let? currency := get_path node ["priceRange"; "minVariantPrice"; "currencyCode"] in
  Ok (VObj [("id", id); ("title", title); ("description", description);
            ("image", or_ image VNull); ("price", price); ("currency", currency)]).

(** [findProduct({ query })] *)
Definition findProduct (w : World) (params : value) : M value :=
  query <- lift (destructure params "query") ;;
  data <- callShopify w findProduct_gql (VObj [("query", query)]) ;;
  edges <- lift (let? products := opt_get data "products" in
                 let? edges := opt_get products "edges" in
                 Ok (or_ edges (VArr []))) ;;
  lift (array_map product_record edges).

Definition getCustomerOrders_gql : string := "
    query($email: String!) {
      customers(first: 1, query: $email) {
        edges {
          node {
            id
            firstName
            lastName
            email
            orders(first: 5) {
              edges {
                node {
                  id
                  name
                  processedAt
                  totalPriceSet { shopMoney { amount currencyCode } }
                  fulfillments(first: 1) {
                    status
                    estimatedDeliveryAt
                    trackingInfo(first: 5) { company number url }
                  }
                  lineItems(first: 5) {
                    edges { node { title quantity } }
                  }
                }
              }
            }
          }
        }
      }
    }
  ".

(** [getCustomerOrders({ email })] *)
Definition getCustomerOrders (w : World) (params : value) : M value :=
  email <- lift (destructure params "email") ;;
  data <- callShopify w getCustomerOrders_gql (VObj [("email", email)]) ;;
  customer <- lift (let? customers := opt_get data "customers" in
                    let? edges := opt_get customers "edges" in
                    let? edge0 := opt_first edges in
                    opt_get edge0 "node") ;;
  if negb (truthy customer)
  then ret (VArr [])
  else lift (let? edges := get_path customer ["orders"; "edges"] in
             array_map order_record edges).

Definition getProducts_gql : string := "
    query {
      products(first: 5) {
        edges { node { id title } }
      }
    }
  ".

Definition listed_product (edge : value) : result value :=
  let? node := destructure edge "node" in
  let? id := get node "id" in
  let? title := get node "title" in
  Ok (VObj [("id", id); ("title", title)]).

(** [getProducts()] *)
Definition getProducts (w : World) : M value :=
  data <- callShopify w getProducts_gql VUndef ;;
  edges <- lift (let? products := opt_get data "products" in
                 let? edges := opt_get products "edges" in
                 Ok (or_ edges (VArr []))) ;;
  lift (array_map listed_product edges).

(** [functionMap[name]] *)
Definition functionMap (w : World) (name : string) : property :=
  if name =? "find_product" then Function (findProduct w)
  else if name =? "get_customer_orders" then Function (getCustomerOrders w)
  else if name =? "get_products" then Function (fun _ => getProducts w)
  else Object_prototype name.

Definition string_parameter : value := VObj [("type", VStr "string")].

Definition signature (name description : string)
    (properties : list (string * value)) (required : list value) : value :=
  VObj [("name", VStr name);
        ("description", VStr description);
        ("parameters", VObj [("type", VStr "object");
                             ("properties", VObj properties);
                             ("required", VArr required)])].

Definition functions : value :=
  VArr [signature "find_product" "Search Shopify products by query string."
          [("query", string_parameter)] [VStr "query"];
        signature "get_customer_orders"
          "Retrieve recent orders for a customer by email address."
          [("email", string_parameter)] [VStr "email"];
        signature "get_products"
          "Fetch a simple list of products when no search query is provided."
          [] []].

Definition system_prompt : chat_message :=
  Message "system" (VStr "You are a helpful AI assistant for a Shopify store.").

Definition first_request (message : value) : chat_request :=
  {| model := "gpt-4-0613";
     messages := [system_prompt; Message "user" message];
     catalog := Some functions;
     function_call_mode := Some "auto" |}.

Definition second_request (message : value) (reply : assistant_message)
    (name : string) (data : value) : chat_request :=
  {| model := "gpt-4-0613";
     messages := [system_prompt; Message "user" message; Reply reply;
                  FunctionResult name (maybe (JSON_stringify data))];
     catalog := None;
     function_call_mode := None |}.

(** [runAssistant(message)] *)
Definition runAssistant (w : World) (message : value) : M value :=
  first <- await_create w (first_request message) ;;
  reply <- lift (first_message first) ;;
  match function_call reply with
  | Some fc =>
      let name := fc_name fc in
      let args := fc_arguments fc in
      let fn := functionMap w name in
      parsedArgs <- lift (if truthy (VStr args) then parse w args else Ok (VObj [])) ;;
      data <- call fn parsedArgs ;;
      second <- await_create w (second_request message reply name data) ;;
      answer <- lift (first_message second) ;;
      ret (VObj [("reply", content answer); ("data", data)])
  | None => ret (VObj [("reply", content reply)])
  end.

Definition typeof_string (v : value) : bool :=
  match v with VStr _ => true | _ => false end.

(** [module.exports = async (req, res) => ...] *)
Definition handler (w : World) (req : request) : M response :=
  try_catch
    (if negb (req_method req =? "POST")
     then ret (respond 405 (VObj [("error", VStr "Method not allowed")]))
     else
       message <- lift (destructure (or_ (req_body req) (VObj [])) "message") ;;
       if negb (typeof_string message) || negb (truthy message)
       then ret (respond 400
                   (VObj [("error", VStr "Request body must include a `message` string.")]))
       else
         result <- runAssistant w message ;;
         ret (respond 200 result))
    (fun err =>
       _ <- console_error err ;;
       ret (respond 500 (VObj [("error", VStr (message_of err))]))).

End Serverless.

(** ** The standalone server ([app.post('/chat')], second implementation) *)

Module Standalone.
Import JS Env.

(** [callShopify(query, variables = {})]; it returns the whole body. *)
Definition callShopify (w : World) (query : string) (variables : value) : M value :=
  let variables := default variables (VObj []) in
  if missing (SHOPIFY_STORE w) || missing (SHOPIFY_TOKEN w)
  then throw (Error "Shopify store credentials are not set in environment variables")
  else
    response <- await_fetch w (graphql_request w query variables) ;;
    data <- res_json response ;;
    errors <- lift (get data "errors") ;;
    if truthy errors
    then throw (Error ("Shopify API error: " ++ interpolate (JSON_stringify errors)))
    else ret data.

Definition findProduct_gql : string := "
    query($queryString: String!) {
      products(first: 5, query: $queryString) {
        edges {
          node {
            id
            title
            description
            images(first: 1) {
              edges {
                node {
                  url
                  altText
                }
              }
            }
            priceRange {
              minVariantPrice {
                amount
                currencyCode
              }
            }
          }
        }
      }
    }
  ".

Definition product_record (edge : value) : result value :=
  let? node := destructure edge "node" in
  let? id := get node "id" in
  let? title := get node "title" in
  let? description := get node "description" in
  let? price := get_path node ["priceRange"; "minVariantPrice"; "amount"] in
  let? currency := get_path node ["priceRange"; "minVariantPrice"; "currencyCode"] in
  let? images := get_path node ["images"; "edges"] in
  let? image0 := first images in
  let? image := opt_get image0 "node" in
  Ok (VObj [("id", id); ("title", title); ("description", description);
            ("price", price); ("currency", currency); ("image", or_ image VNull)]).

(** [findProduct({ query })] *)
Definition findProduct (w : World) (params : value) : M value :=
  query <- lift (destructure params "query") ;;
  result <- callShopify w findProduct_gql (VObj [("queryString", query)]) ;;
  edges <- lift (let? data := opt_get result "data" in
                 let? products := opt_get data "products" in
                 let? edges := opt_get products "edges" in
                 Ok (or_ edges (VArr []))) ;;
  products <- lift (array_map product_record edges) ;;
  ret (VObj [("products", products)]).

Definition getCustomerOrders_gql : string := "
    query($email: String!) {
      customers(first: 1, query: $email) {
        edges {
          node {
            id
            firstName
            lastName
            email
            orders(first: 5) {
              edges {
                node {
                  id
                  name
                  processedAt
                  totalPriceSet {
                    shopMoney {
                      amount
                      currencyCode
                    }
                  }
                  fulfillments(first: 1) {
                    status
                    estimatedDeliveryAt
                    trackingInfo(first: 5) {
                      company
                      number
                      url
                    }
                  }
                  lineItems(first: 5) {
                    edges {
                      node {
                        title
                        quantity
                      }
                    }
                  }
                }
              }
            }
          }
        }
      }
    }
  ".

Definition customer_record (edge : value) : result value :=
  let? node := destructure edge "node" in
  let? id := get node "id" in
  let? firstName := get node "firstName" in
  let? first_text := toString (or_ firstName (VStr "")) in
  let? lastName := get node "lastName" in
  let? last_text := toString (or_ lastName (VStr "")) in
  let? email := get node "email" in
  let? edges := get_path node ["orders"; "edges"] in
  let? orders := array_map order_record edges in
  Ok (VObj [("id", id); ("name", VStr (trim (first_text ++ " " ++ last_text)));
            ("email", email); ("orders", orders)]).

(** [getCustomerOrders({ email })] *)
Definition getCustomerOrders (w : World) (params : value) : M value :=
  email <- lift (destructure params "email") ;;
  result <- callShopify w getCustomerOrders_gql (VObj [("email", email)]) ;;
  customers <- lift (let? data := opt_get result "data" in
                     let? customers := opt_get data "customers" in
                     let? edges := opt_get customers "edges" in
                     let? mapped := opt_array_map customer_record edges in
                     Ok (or_ mapped (VArr []))) ;;
  ret (VObj [("customers", customers)]).

Definition getProducts_gql : string := "
    query {
      products(first: 5) {
        edges {
          node {
            id
            title
            description
            priceRange {
              minVariantPrice {
                amount
                currencyCode
              }
            }
          }
        }
      }
    }
  ".

Definition listed_product (edge : value) : result value :=
  let? node := destructure edge "node" in
  let? id := get node "id" in
  let? title := get node "title" in
  let? description := get node "description" in
  let? price := get_path node ["priceRange"; "minVariantPrice"; "amount"] in
  let? currency := get_path node ["priceRange"; "minVariantPrice"; "currencyCode"] in
  Ok (VObj [("id", id); ("title", title); ("description", description);
            ("price", price); ("currency", currency)]).

(** [getProducts()] *)
Definition getProducts (w : World) : M value :=
  result <- callShopify w getProducts_gql VUndef ;;
  products <- lift (let? data := opt_get result "data" in
                    let? products := opt_get data "products" in
                    let? edges := opt_get products "edges" in
                    let? mapped := opt_array_map listed_product edges in
                    Ok (or_ mapped (VArr []))) ;;
  ret (VObj [("products", products)]).

Definition string_parameter (description : string) : value :=
  VObj [("type", VStr "string"); ("description", VStr description)].

Definition signature (name description : string)
    (properties : list (string * value)) (required : list value) : value :=
  VObj [("name", VStr name);
        ("description", VStr description);
        ("parameters", VObj [("type", VStr "object");
                             ("properties", VObj properties);
                             ("required", VArr required)])].

Definition functions : value :=
  VArr [signature "find_product" "Search for products based on a free‑form query string"
          [("query", string_parameter "Search string provided by the user for finding products")]
          [VStr "query"];
        signature "get_customer_orders" "Retrieve recent orders for a customer by email address"
          [("email", string_parameter "The email address associated with the customer")]
          [VStr "email"];
        signature "get_products" "Fetch a generic list of products when no specific search is provided"
          [] []].

(** [functionMap[name]] *)
Definition functionMap (w : World) (name : string) : property :=
  if name =? "find_product" then Function (findProduct w)
  else if name =? "get_customer_orders" then Function (getCustomerOrders w)
  else if name =? "get_products" then Function (fun _ => getProducts w)
  else Object_prototype name.

(** [!fn] *)
Definition not_ (fn : property) : bool :=
  match fn with Undefined => true | _ => false end.

Definition system_prompt : chat_message :=
  Message "system" (VStr "You are a helpful AI assistant for an ecommerce store powered by Shopify. You can look up products and customer orders using functions. Ask follow‑up questions when necessary and be concise.").

Definition first_request (userMessage : value) : chat_request :=
  {| model := "gpt-4-1106-preview";
     messages := [system_prompt; Message "user" userMessage];
     catalog := Some functions;
     function_call_mode := Some "auto" |}.

(** The second request carries the message list after the two [push]es. *)
Definition second_request (userMessage : value) (message : assistant_message)
    (name : string) (result : value) : chat_request :=
  {| model := "gpt-4-1106-preview";
     messages := [system_prompt; Message "user" userMessage] ++
                 [Reply message] ++
                 [FunctionResult name (maybe (JSON_stringify result))];
     catalog := None;
     function_call_mode := None |}.

(** The body of the [try] block of the route. *)
Definition turn (w : World) (userMessage : value) : M response :=
  first <- await_create w (first_request userMessage) ;;
  message <- lift (first_message first) ;;
  match function_call message with
  | Some fc =>
      let name := fc_name fc in
      let args := fc_arguments fc in
      parsedArgs <- lift (match parse w args with
                          | Ok v => Ok v
                          | Throw _ =>
                              Throw (Error ("Failed to parse function arguments: " ++ args))
                          end) ;;
      let fn := functionMap w name in
      if not_ fn
      then throw (Error ("Function " ++ name ++ " is not implemented."))
      else
        result <- call fn parsedArgs ;;
        second <- await_create w (second_request userMessage message name result) ;;
        answer <- lift (first_message second) ;;
        let finalMsg := content answer in
        ret (respond 200 (VObj [("reply", finalMsg); ("data", result)]))
  | None => ret (respond 200 (VObj [("reply", content message)]))
  end.

(** [app.post('/chat', async (req, res) => ...)]; Express hands it the
    POST requests on [/chat], so the method is not read. *)
Definition chat (w : World) (req : request) : M response :=
  userMessage <- lift (opt_get (req_body req) "message") ;;
  if negb (truthy userMessage)
  then ret (respond 400
              (VObj [("error", VStr "Request body must include a `message` field.")]))
  else
    try_catch (turn w userMessage)
      (fun err =>
         _ <- console_error err ;;
         ret (respond 500 (VObj [("error", VStr (message_of err))]))).

End Standalone.

(** ** A reference [JSON.parse]

    The theorems below hold for every [World]; the parser here is the one
    the sample worlds run.  It reads the JSON grammar over the value model
    above: numbers with a fraction or an exponent and [\u] escapes beyond
    ASCII have no value in the model and are refused. *)

Module Reference.
Import JS Env.

Definition json_space (c : ascii) : bool :=
  let n := nat_of_ascii c in
  ((n =? 32) || (n =? 9) || (n =? 10) || (n =? 13))%nat.

Fixpoint skip (s : string) : string :=
  match s with
  | String c r => if json_space c then skip r else s
  | EmptyString => s
  end.

(** [strip p s]: [s] without its prefix [p]. *)
Fixpoint strip (p s : string) : option string :=
  match p, s with
  | EmptyString, _ => Some s
  | String a p', String b s' => if Ascii.eqb a b then strip p' s' else None
  | _, _ => None
  end.

Definition hex_value (c : ascii) : option nat :=
  let n := nat_of_ascii c in
  if ((48 <=? n) && (n <=? 57))%nat then Some (n - 48)
  else if ((97 <=? n) && (n <=? 102))%nat then Some (n - 87)
  else if ((65 <=? n) && (n <=? 70))%nat then Some (n - 55)
  else None.

Definition unescape (c : ascii) : option ascii :=
  let n := nat_of_ascii c in
  if ((n =? 34) || (n =? 92) || (n =? 47))%nat then Some c
  else if (n =? 98)%nat then Some (ascii_of_nat 8)
  else if (n =? 102)%nat then Some (ascii_of_nat 12)
  else if (n =? 110)%nat then Some (ascii_of_nat 10)
  else if (n =? 114)%nat then Some (ascii_of_nat 13)
  else if (n =? 116)%nat then Some (ascii_of_nat 9)
  else None.

Definition cons_char (c : ascii) (r : option (string * string))
    : option (string * string) :=
  match r with
  | Some (x, rest) => Some (String c x, rest)
  | None => None
  end.

(** The characters of a string literal after its opening quote. *)
Fixpoint string_body (s : string) : option (string * string) :=
  match s with
  | EmptyString => None
  | String c r =>
      let n := nat_of_ascii c in
      if (n =? 34)%nat then Some ("", r)
      else if (n =? 92)%nat then
        match r with
        | String e r' =>
            match unescape e with
            | Some c' => cons_char c' (string_body r')
            | None =>
                match r' with
                | String h1 (String h2 (String h3 (String h4 r''))) =>
                    match hex_value h1, hex_value h2, hex_value h3, hex_value h4 with
                    | Some 0, Some 0, Some a, Some b =>
                        if (Ascii.eqb e "u" && (a <? 8))%nat%bool
                        then cons_char (ascii_of_nat (16 * a + b)) (string_body r'')
                        else None
                    | _, _, _, _ => None
                    end
                | _ => None
                end
            end
        | EmptyString => None
        end
      else if (n <? 32)%nat then None
      else cons_char c (string_body r)
  end.

Definition digit (c : ascii) : option Z :=
  let n := nat_of_ascii c in
  if ((48 <=? n) && (n <=? 57))%nat then Some (Z.of_nat (n - 48)) else None.

Fixpoint digits (acc : Z) (s : string) : Z * string :=
  match s with
  | String c r =>
      match digit c with
      | Some d => digits (10 * acc + d) r
      | None => (acc, s)
      end
  | EmptyString => (acc, s)
  end.

(** An integer literal: no leading zero, no fraction, no exponent. *)
Definition natural (s : string) : option (Z * string) :=
  match s with
  | String c r =>
      match digit c with
      | Some d =>
          let (n, rest) := if (d =? 0)%Z then (0%Z, r) else digits d r in
          match rest with
          | String c' _ =>
              match digit c' with
              | Some _ => None
              | None =>
                  if (Ascii.eqb c' "." || Ascii.eqb c' "e" || Ascii.eqb c' "E")%bool
                  then None else Some (n, rest)
              end
          | EmptyString => Some (n, rest)
          end
      | None => None
      end
  | EmptyString => None
  end.

Definition number (s : string) : option (value * string) :=
  match s with
  | String "-" r =>
      match natural r with
      | Some (n, rest) => Some (VNum (- n), rest)
      | None => None
      end
  | _ =>
      match natural s with
      | Some (n, rest) => Some (VNum n, rest)
      | None => None
      end
  end.

(** A repeated key keeps its first position and its last value. *)
Fixpoint set (k : string) (v : value) (fs : list (string * value))
    : list (string * value) :=
  match fs with
  | [] => [(k, v)]
  | (k', v') :: r => if k' =? k then (k, v) :: r else (k', v') :: set k v r
  end.

Definition keyword (p : string) (v : value) (s : string) : option (value * string) :=
  match strip p s with
  | Some rest => Some (v, rest)
  | None => None
  end.

Fixpoint element (fuel : nat) (s : string) : option (value * string) :=
  match fuel with
  | O => None
  | S fuel' =>
      match skip s with
      | EmptyString => None
      | String c r =>
          if Ascii.eqb c "{" then
            match skip r with
            | String "}" r' => Some (VObj [], r')
            | r0 => members fuel' r0 []
            end
          else if Ascii.eqb c "[" then
            match skip r with
            | String "]" r' => Some (VArr [], r')
            | r0 => elements fuel' r0 []
            end
          else if Ascii.eqb c dquote then
            match string_body r with
            | Some (x, rest) => Some (VStr x, rest)
            | None => None
            end
          else if Ascii.eqb c "t" then keyword "rue" (VBool true) r
          else if Ascii.eqb c "f" then keyword "alse" (VBool false) r
          else if Ascii.eqb c "n" then keyword "ull" VNull r
          else number (String c r)
      end
  end
with elements (fuel : nat) (s : string) (acc : list value) : option (value * string) :=
  match fuel with
  | O => None
  | S fuel' =>
      match element fuel' s with
      | Some (v, r) =>
          match skip r with
          | String "," r' => elements fuel' r' (acc ++ [v])
          | String "]" r' => Some (VArr (acc ++ [v]), r')
          | _ => None
          end
      | None => None
      end
  end
with members (fuel : nat) (s : string) (acc : list (string * value))
    : option (value * string) :=
  match fuel with
  | O => None
  | S fuel' =>
      match skip s with
      | String c r =>
          if Ascii.eqb c dquote then
            match string_body r with
            | Some (k, r1) =>
                match skip r1 with
                | String ":" r2 =>
                    match element fuel' r2 with
                    | Some (v, r3) =>
                        match skip r3 with
                        | String "," r4 => members fuel' r4 (set k v acc)
                        | String "}" r4 => Some (VObj (set k v acc), r4)
                        | _ => None
                        end
                    | None => None
                    end
                | _ => None
                end
            | None => None
            end
          else None
      | EmptyString => None
      end
  end.

Definition parse_json (s : string) : parsed :=
  match skip s with
  | EmptyString => Unparsable "Unexpected end of JSON input"
  | _ =>
      match element (2 * String.length s + 2) s with
      | Some (v, rest) =>
          match skip rest with
          | EmptyString => Parsed v
          | _ => Unparsable "Unexpected non-whitespace character after JSON"
          end
      | None => Unparsable "Unexpected token in JSON"
      end
  end.

End Reference.

(** ** Vocabulary of the properties *)

Module Turn.
Import JS Env.

(** The names of the tool catalog. *)
Definition tool_names : list string :=
  ["find_product"; "get_customer_orders"; "get_products"].

Definition known (name : string) : bool := existsb (String.eqb name) tool_names.

(** The names a catalog announces to the model. *)
Definition announced (functions : value) : list value :=
  match functions with
  | VArr l => map (field "name") l
  | _ => []
  end.

(** What awaiting a completion and reading [choices[0].message] gives. *)
Definition completion (w : World) (q : chat_request) : result assistant_message :=
  match create w q with
  | ModelRejected reason => Throw (APIError reason)
  | Completion choices => first_message choices
  end.

(** The places where the two implementations of a turn differ. *)
Record implementation := {
  first_request : value -> chat_request;
  second_request : value -> assistant_message -> string -> value -> chat_request;
  (* the argument string of the invocation, parsed *)
  parse_arguments : World -> string -> result value;
  (* [functionMap[name]], after the check the implementation makes on it *)
  lookup : World -> string -> result property
}.

Definition serverless : implementation :=
  {| first_request := Serverless.first_request;
     second_request := Serverless.second_request;
     parse_arguments := fun w args =>
       if truthy (VStr args) then parse w args else Ok (VObj []);
     lookup := fun w name => Ok (Serverless.functionMap w name) |}.

Definition standalone : implementation :=
  {| first_request := Standalone.first_request;
     second_request := Standalone.second_request;
     parse_arguments := fun w args =>
       match parse w args with
       | Ok v => Ok v
       | Throw _ => Throw (Error ("Failed to parse function arguments: " ++ args))
       end;
     lookup := fun w name =>
       if Standalone.not_ (Standalone.functionMap w name)
       then Throw (Error ("Function " ++ name ++ " is not implemented."))
       else Ok (Standalone.functionMap w name) |}.

(** The response of the [catch] block. *)
Definition failure (e : exn) : response :=
  respond 500 (VObj [("error", VStr (message_of e))]).

(** The paths of a turn on an accepted message: the calls made and the
    response sent on each. *)
Inductive outcome (I : implementation) (w : World) (msg : value)
    : list event -> response -> Prop :=
| no_completion e :
    completion w (first_request I msg) = Throw e ->
    outcome I w msg [ModelCall (first_request I msg); ConsoleError e] (failure e)
| direct_answer m :
    completion w (first_request I msg) = Ok m ->
    function_call m = None ->
    outcome I w msg [ModelCall (first_request I msg)]
      (respond 200 (VObj [("reply", content m)]))
| bad_arguments m fc e :
    completion w (first_request I msg) = Ok m ->
    function_call m = Some fc ->
    parse_arguments I w (fc_arguments fc) = Throw e ->
    outcome I w msg [ModelCall (first_request I msg); ConsoleError e] (failure e)
| no_function m fc args e :
    completion w (first_request I msg) = Ok m ->
    function_call m = Some fc ->
    parse_arguments I w (fc_arguments fc) = Ok args ->
    lookup I w (fc_name fc) = Throw e ->
    outcome I w msg [ModelCall (first_request I msg); ConsoleError e] (failure e)
| tool_failure m fc args fn tt e :
    completion w (first_request I msg) = Ok m ->
    function_call m = Some fc ->
    parse_arguments I w (fc_arguments fc) = Ok args ->
    lookup I w (fc_name fc) = Ok fn ->
    call fn args = (tt, Throw e) ->
    outcome I w msg
      (ModelCall (first_request I msg) :: tt ++ [ConsoleError e]) (failure e)
| no_second_completion m fc args fn tt data e :
    completion w (first_request I msg) = Ok m ->
    function_call m = Some fc ->
    parse_arguments I w (fc_arguments fc) = Ok args ->
    lookup I w (fc_name fc) = Ok fn ->
    call fn args = (tt, Ok data) ->
    completion w (second_request I msg m (fc_name fc) data) = Throw e ->
    outcome I w msg
      (ModelCall (first_request I msg) :: tt ++
       [ModelCall (second_request I msg m (fc_name fc) data); ConsoleError e])
      (failure e)
| composed_answer m fc args fn tt data answer :
    completion w (first_request I msg) = Ok m ->
    function_call m = Some fc ->
    parse_arguments I w (fc_arguments fc) = Ok args ->
    lookup I w (fc_name fc) = Ok fn ->
    call fn args = (tt, Ok data) ->
    completion w (second_request I msg m (fc_name fc) data) = Ok answer ->
    outcome I w msg
      (ModelCall (first_request I msg) :: tt ++
       [ModelCall (second_request I msg m (fc_name fc) data)])
      (respond 200 (VObj [("reply", content answer); ("data", data)])).

(** [v] is a non-empty string. *)
Definition non_empty_string (v : value) : bool :=
  match v with
  | VStr s => negb (s =? "")
  | _ => false
  end.

(** The requests each handler lets through, with the message it reads. *)
Definition serverless_accepts (req : request) (message : value) : Prop :=
  req_method req = "POST" /\
  field "message" (or_ (req_body req) (VObj [])) = message /\
  Serverless.typeof_string message = true /\ truthy message = true.

Definition standalone_accepts (req : request) (userMessage : value) : Prop :=
  opt_get (req_body req) "message" = Ok userMessage /\ truthy userMessage = true.

End Turn.

(** ** The statements about a whole turn *)

Module Law.
Import JS Env Turn.

(** What every function reachable through [lookup] does when called: no
    model call, at most one commerce call, none at all outside the catalog,
    exactly one when a catalog tool returns, and a defined result. *)
Definition well_behaved (I : implementation) : Prop :=
  forall w name fn args t r,
    lookup I w name = Ok fn -> call fn args = (t, r) ->
    model_calls t = 0 /\ commerce_calls t <= 1 /\
    (known name = false -> commerce_calls t = 0) /\
    (forall d, r = Ok d -> d <> VUndef) /\
    (forall d, r = Ok d -> known name = true -> commerce_calls t = 1).

(** The first model response nominates a tool. *)
Definition nominates (I : implementation) (w : World) (msg : value)
    (fc : FunctionCall) : Prop :=
  exists m, completion w (first_request I msg) = Ok m /\ function_call m = Some fc.

(** After the nomination [fc] in the first message [m], every later step
    goes through: the arguments parse, the function is found, it returns
    [data] having left the trace [tt], and the second completion has the
    message [answer]. *)
Definition goes_through (I : implementation) (w : World) (msg : value)
    (m : assistant_message) (fc : FunctionCall)
    (tt : list event) (data : value) (answer : assistant_message) : Prop :=
  exists args fn,
    parse_arguments I w (fc_arguments fc) = Ok args /\
    lookup I w (fc_name fc) = Ok fn /\
    call fn args = (tt, Ok data) /\
    completion w (second_request I msg m (fc_name fc) data) = Ok answer.

(** After the nomination [fc] in the first message [m], the first step
    that fails, fails with [e]: the parse of the arguments, the lookup of
    the function, its call, or the second completion. *)
Definition breaks_off (I : implementation) (w : World) (msg : value)
    (m : assistant_message) (fc : FunctionCall) (e : exn) : Prop :=
  parse_arguments I w (fc_arguments fc) = Throw e \/
  exists args,
    parse_arguments I w (fc_arguments fc) = Ok args /\
    (lookup I w (fc_name fc) = Throw e \/
     exists fn tt,
       lookup I w (fc_name fc) = Ok fn /\
       (call fn args = (tt, Throw e) \/
        exists data,
          call fn args = (tt, Ok data) /\
          completion w (second_request I msg m (fc_name fc) data) = Throw e)).

(** One turn on an accepted message [msg], settled as [out]: the
    response and the calls, case by case on what the model and the
    function do. *)
Definition turn_law (I : implementation) (w : World) (msg : value)
    (out : M response) : Prop :=
  let q1 := first_request I msg in
  exists t resp, out = (t, Ok resp) /\
  (* no first message *)
  (forall e, completion w q1 = Throw e ->
     t = [ModelCall q1; ConsoleError e] /\ resp = failure e) /\
  (* no tool invocation: one model call, [{reply}] *)
  (forall m, completion w q1 = Ok m -> function_call m = None ->
     t = [ModelCall q1] /\
     resp = respond 200 (VObj [("reply", content m)]) /\
     has_field "data" resp = false) /\
  (* an invocation and every step goes through: two model calls around
     the function's calls, [{reply, data}] with the function's result *)
  (forall m fc tt data answer,
     completion w q1 = Ok m -> function_call m = Some fc ->
     goes_through I w msg m fc tt data answer ->
     t = ModelCall q1 :: tt ++ [ModelCall (second_request I msg m (fc_name fc) data)] /\
     resp = respond 200 (VObj [("reply", content answer); ("data", data)]) /\
     has_field "data" resp = true /\
     model_calls t = 2 /\
     (known (fc_name fc) = true -> commerce_calls t = 1)) /\
  (* an invocation and a step fails: 500 and [{error}] *)
  (forall m fc e,
     completion w q1 = Ok m -> function_call m = Some fc ->
     breaks_off I w msg m fc e ->
     resp = failure e /\
     has_field "reply" resp = false /\ has_field "data" resp = false) /\
  (* the data field *)
  (has_field "data" resp = true <->
   exists m fc tt data answer,
     completion w q1 = Ok m /\ function_call m = Some fc /\
     goes_through I w msg m fc tt data answer) /\
  (* one tool call per turn at most *)
  model_calls t <= 2 /\ commerce_calls t <= 1.

End Law.

(** ** Sample worlds *)

Module Samples.
Import JS Env Reference.

Definition says (text : string) : assistant_message :=
  {| content := VStr text; function_call := None |}.

Definition invokes (name args : string) : assistant_message :=
  {| content := VNull;
     function_call := Some {| fc_name := name; fc_arguments := args |} |}.

(** A model that answers the request carrying the catalog with [first]
    and the request after the tool ran with the text [final]. *)
Definition scripted (first : assistant_message) (final : string)
    (q : chat_request) : model_result :=
  match catalog q with
  | Some _ => Completion [first]
  | None => Completion [says final]
  end.

(** A commerce platform that answers every request the same way. *)
Definition always (status : Z) (json : value) (_ : fetch_request) : fetch_result :=
  FetchResolved status (Parsed json).

Definition world (store token : option string)
    (model : chat_request -> model_result)
    (net : fetch_request -> fetch_result) : World :=
  {| SHOPIFY_STORE := store;
     SHOPIFY_TOKEN := token;
     JSON_parse := parse_json;
     create := model;
     fetch := net |}.

Definition shop (model : chat_request -> model_result)
    (net : fetch_request -> fetch_result) : World :=
  world (Some "demo.myshopify.com") (Some "shpat_demo") model net.

Definition post (message : value) : request :=
  {| req_method := "POST"; req_body := VObj [("message", message)] |}.

Definition hello : value := VStr "hello".

(** A body with a top-level [errors] list. *)
Definition throttled : value :=
  VObj [("errors", VArr [VObj [("message", VStr "Throttled")]])].

Definition product_edge (id title : string) : value :=
  VObj [("node",
         VObj [("id", VStr id); ("title", VStr title);
               ("description", VStr "Whole beans");
               ("images", VObj [("edges", VArr [])]);
               ("priceRange",
                VObj [("minVariantPrice",
                       VObj [("amount", VStr "12.50");
                             ("currencyCode", VStr "EUR")])])])].

Definition products (edges : list value) : value :=
  VObj [("data", VObj [("products", VObj [("edges", VArr edges)])])].

Definition order_edge (id : string) : value :=
  VObj [("node",
         VObj [("id", VStr id); ("name", VStr "#1001");
               ("processedAt", VStr "2025-07-01T10:00:00Z");
               ("totalPriceSet",
                VObj [("shopMoney",
                       VObj [("amount", VStr "25.00");
                             ("currencyCode", VStr "EUR")])]);
               ("fulfillments",
                VArr [VObj [("status", VStr "SUCCESS");
                            ("estimatedDeliveryAt", VNull);
                            ("trackingInfo",
                             VArr [VObj [("company", VStr "DHL");
                                         ("number", VStr "JD01");
                                         ("url", VStr "https://dhl.example/JD01")]])]]);
               ("lineItems",
                VObj [("edges",
                       VArr [VObj [("node",
                                    VObj [("title", VStr "Espresso");
                                          ("quantity", VNum 2)])]])])])].

Definition customer_edge (id first_name : string) (orders : list value) : value :=
  VObj [("node",
         VObj [("id", VStr id); ("firstName", VStr first_name);
               ("lastName", VStr "Doe"); ("email", VStr "doe@example.com");
               ("orders", VObj [("edges", VArr orders)])])].

Definition customers (edges : list value) : value :=
  VObj [("data", VObj [("customers", VObj [("edges", VArr edges)])])].

(** The first response nominates [get_products]; the platform answers
    with an [errors] list. *)
Definition throttled_shop : World :=
  shop (scripted (invokes "get_products" "{}") "Here you go") (always 200 throttled).

(** The first response names [toString], which the catalog does not have. *)
Definition toString_shop : World :=
  shop (scripted (invokes "toString" "{}") "Here you go") (always 200 (products [])).

(** The platform answers 502 with a JSON body that has no [errors]. *)
Definition bad_gateway : value := VObj [("message", VStr "Bad Gateway")].

Definition gateway_shop : World :=
  shop (scripted (invokes "get_products" "{}") "Nothing found") (always 502 bad_gateway).

(** The model nominates [get_products] with the empty argument string. *)
Definition empty_arguments_shop : World :=
  shop (scripted (invokes "get_products" "") "Here you go")
    (always 200 (products [product_edge "gid://shopify/Product/1" "Coffee"])).



(** The platform answers a product search with six edges. *)
Definition six_products : value :=
  products [product_edge "gid://shopify/Product/1" "Coffee 1";
            product_edge "gid://shopify/Product/2" "Coffee 2";
            product_edge "gid://shopify/Product/3" "Coffee 3";
            product_edge "gid://shopify/Product/4" "Coffee 4";
            product_edge "gid://shopify/Product/5" "Coffee 5";
            product_edge "gid://shopify/Product/6" "Coffee 6"].

Definition coffee : value := VObj [("query", VStr "coffee")].

Definition six_products_shop : World :=
  shop (scripted (invokes "find_product" "{}") "Here you go") (always 200 six_products).

(** The platform answers with one customer who has one order. *)
Definition one_customer : value :=
  customers [customer_edge "gid://shopify/Customer/1" "Ann"
               [order_edge "gid://shopify/Order/1"]].

Definition doe : value := VObj [("email", VStr "doe@example.com")].

Definition one_customer_shop : World :=
  shop (scripted (invokes "get_customer_orders" "{}") "Here you go")
    (always 200 one_customer).




(** A model that answers in plain text. *)
Definition greeting_shop : World :=
  shop (scripted (says "Hi, how can I help?") "") (always 200 (products [])).

(** No store domain and no access token in the environment. *)
Definition unconfigured_shop : World :=
  world None None (scripted (invokes "get_products" "{}") "Here you go")
    (always 200 (products [])).

(** The platform answers the customer query with two customer edges. *)
Definition two_customers : value :=
  customers [customer_edge "gid://shopify/Customer/1" "Ann"
               [order_edge "gid://shopify/Order/1"];
             customer_edge "gid://shopify/Customer/2" "Bob"
               [order_edge "gid://shopify/Order/2"]].

Definition two_customers_shop : World :=
  shop (scripted (invokes "get_customer_orders" "{}") "Here you go")
    (always 200 two_customers).

End Samples.

(** ** The statements about one commerce call *)

Module Commerce.
Import JS Env.

(** Store domain and access token are both set. *)
Definition configured (w : World) : bool :=
  negb (missing (SHOPIFY_STORE w) || missing (SHOPIFY_TOKEN w)).



End Commerce.

(** ** The statements about the size of the results *)

Module Caps.
Import JS Env.


(** On the answer of the platform: a list of at most [n] entries, or no
    list at all ([null], [undefined]). *)
Definition within (n : nat) (v : value) : bool :=
  match v with
  | VArr l => (length l <=? n)%nat
  | VUndef | VNull => true
  | _ => false
  end.

Definition every (p : value -> bool) (v : value) : bool :=
  match v with
  | VArr l => forallb p l
  | VUndef | VNull => true
  | _ => false
  end.

(** The platform kept to [lineItems(first: 5)] and [trackingInfo(first: 5)]
    in an order edge, to [orders(first: 5)] in a customer edge, and to
    [products(first: 5)]. *)
Definition order_honours (edge : value) : bool :=
  let order := field "node" edge in
  within 5 (field "edges" (field "lineItems" order)) &&
  every (fun f => within 5 (field "trackingInfo" f)) (field "fulfillments" order).

Definition customer_honours (edge : value) : bool :=
  let orders := field "edges" (field "orders" (field "node" edge)) in
  within 5 orders && every order_honours orders.

Definition honours_limits (data : value) : bool :=
  within 5 (field "edges" (field "products" data)) &&
  every customer_honours (field "edges" (field "customers" data)).








(** The customer edges of a body. *)
Definition customer_edges (json : value) : value :=
  field "edges" (field "customers" (field "data" json)).

(** What the serverless [getCustomerOrders] makes of the first customer
    edge [edge], the [errors] of the body being [errors]. *)
Definition orders_of_first (params errors edge : value) : result value :=
  let? _ := destructure params "email" in
  if truthy errors then Throw (new_Error (JSON_stringify errors))
  else
    let customer := field "node" edge in
    if negb (truthy customer) then Ok (VArr [])
    else let? edges := get_path customer ["orders"; "edges"] in
         array_map order_record edges.


End Caps.

(** ** Vocabulary of the further properties *)

Module Conduct.
Import JS Env Turn.

(** The errors a trace logged, and the requests it sent to the model. *)
Fixpoint logged (t : list event) : list exn :=
  match t with
  | ConsoleError e :: r => e :: logged r
  | _ :: r => logged r
  | [] => []
  end.

Fixpoint model_requests (t : list event) : list chat_request :=
  match t with
  | ModelCall q :: r => q :: model_requests r
  | _ :: r => model_requests r
  | [] => []
  end.

(** Two records with the same value under every key. *)
Definition same_fields (a b : value) : Prop := forall k, field k a = field k b.

(** The product edges and the money fields of a body. *)
Definition product_edges (json : value) : value :=
  field "edges" (field "products" (field "data" json)).

Definition min_price (node : value) : value :=
  field "minVariantPrice" (field "priceRange" node).

(** What a product record takes over from its edge, unchanged. *)
Definition product_of (edge record : value) : Prop :=
  let node := field "node" edge in
  field "id" record = field "id" node /\
  field "title" record = field "title" node /\
  field "description" record = field "description" node /\
  field "price" record = field "amount" (min_price node) /\
  field "currency" record = field "currencyCode" (min_price node) /\
  field "image" record <> VUndef.

(** What a function reached through [lookup] leaves in the trace: nothing,
    or one commerce request. *)
Definition quiet (I : implementation) : Prop :=
  forall w name fn args t r,
    lookup I w name = Ok fn -> call fn args = (t, r) ->
    t = [] \/ exists q, t = [CommerceCall q].

(** A step that returns, or throws a [TypeError]. *)
Definition only_type_errors {A} (r : result A) : Prop :=
  match r with
  | Ok _ => True
  | Throw e => exists m, e = TypeError m
  end.

(** The request that opens a turn: the catalog, the mode [auto], and the
    system prompt followed by the user's message. *)
Definition opens (q : chat_request) (functions msg : value) : Prop :=
  catalog q = Some functions /\ function_call_mode q = Some "auto" /\
  exists prompt, messages q = [Message "system" prompt; Message "user" msg].

(** The request that follows [q1] once the tool [name], nominated in the
    message [m], has returned [data]. *)
Definition follows_up (q1 q2 : chat_request) (m : assistant_message)
    (name : string) (data : value) : Prop :=
  model q2 = model q1 /\
  messages q2 = (messages q1 ++
                 [Reply m; FunctionResult name (maybe (JSON_stringify data))])%list /\
  catalog q2 = None /\ function_call_mode q2 = None.

(** The requests a turn sends to the model: the opening one, and after
    it at most the one that follows up on the tool's result. *)
Definition conversation (I : implementation) (w : World) (msg : value)
    (qs : list chat_request) : Prop :=
  let q1 := first_request I msg in
  qs = [q1] \/
  exists m fc args fn tt data q2,
    completion w q1 = Ok m /\ function_call m = Some fc /\
    parse_arguments I w (fc_arguments fc) = Ok args /\
    lookup I w (fc_name fc) = Ok fn /\
    call fn args = (tt, Ok data) /\
    q2 = second_request I msg m (fc_name fc) data /\
    qs = [q1; q2].

(** The record of the serverless [get_products] for a standalone one. *)
Definition listing_of (short long : value) : Prop :=
  short = VObj [("id", field "id" long); ("title", field "title" long)].

(** The query texts of each implementation. *)
Definition serverless_queries : list string :=
  [Serverless.findProduct_gql; Serverless.getCustomerOrders_gql;
   Serverless.getProducts_gql].

Definition standalone_queries : list string :=
  [Standalone.findProduct_gql; Standalone.getCustomerOrders_gql;
   Standalone.getProducts_gql].

(** A request to the GraphQL endpoint of the store of the environment,
    with its access token, carrying one of the query [texts]. *)
Definition store_request (w : World) (texts : list string) (q : fetch_request)
    : Prop :=
  url q = "https://" ++ interpolate (SHOPIFY_STORE w)
          ++ "/admin/api/2025-07/graphql.json" /\
  method q = "POST" /\
  headers q = [("Content-Type", VStr "application/json");
               ("X-Shopify-Access-Token", maybe (SHOPIFY_TOKEN w))] /\
  exists gql variables,
    In gql texts /\
    payload q = maybe (JSON_stringify
                         (VObj [("query", VStr gql); ("variables", variables)])).

(** A computation that sends nothing, or, when [guard] holds, the one
    request of [callShopify] for the text [gql]. *)
Definition sends {A} (w : World) (guard : bool) (gql : string) (m : M A) : Prop :=
  fst m = [] \/
  (guard = true /\ exists variables,
     fst m = [CommerceCall (graphql_request w gql variables)]).

End Conduct.

(** ** More sample worlds *)

Module Cases.
Import JS Env Reference Samples.

(** The model API is unreachable. *)
Definition offline (_ : chat_request) : model_result :=
  ModelRejected "Connection error.".

Definition offline_shop : World := shop offline (always 200 (products [])).

(** The model nominates [name] on the first request and is unreachable
    on the second. *)
Definition drops_after (name args : string) (q : chat_request) : model_result :=
  match catalog q with
  | Some _ => Completion [invokes name args]
  | None => ModelRejected "Connection error."
  end.

Definition dropping_shop : World :=
  shop (drops_after "get_products" "{}")
    (always 200 (products [product_edge "gid://shopify/Product/1" "Coffee"])).

(** The model nominates a function the store does not have. *)
Definition inventory : FunctionCall :=
  {| fc_name := "get_inventory"; fc_arguments := "{}" |}.

Definition inventory_shop : World :=
  shop (scripted {| content := VNull; function_call := Some inventory |} "Here you go")
    (always 200 (products [])).

(** The platform answers with one product edge and one edge that has no
    [node]. *)
Definition torn : list value :=
  [product_edge "gid://shopify/Product/1" "Coffee"; VObj []].

Definition torn_shop : World :=
  shop (scripted (invokes "find_product" "{}") "Here you go")
    (always 200 (products torn)).

(** The model nominates [find_product] with the argument text [null]. *)
Definition null_arguments : FunctionCall :=
  {| fc_name := "find_product"; fc_arguments := "null" |}.

Definition null_arguments_shop : World :=
  shop (scripted {| content := VNull; function_call := Some null_arguments |} "Here you go")
    (always 200 (products [product_edge "gid://shopify/Product/1" "Coffee"])).

(** An argument record with a member the catalog does not declare. *)
Definition coffee_and_more : value :=
  VObj [("query", VStr "coffee"); ("first", VNum 100)].

(** The UTF-8 text of a no-break space (U+00A0). *)
Definition nbsp : string := String "194"%char (String "160"%char "").

(** A customer edge without a last name, the first name followed by a
    no-break space. *)
Definition mononym_edge : value :=
  VObj [("node",
         VObj [("id", VStr "gid://shopify/Customer/3");
               ("firstName", VStr ("Ann" ++ nbsp));
               ("lastName", VNull); ("email", VStr "ann@example.com");
               ("orders", VObj [("edges", VArr [])])])].

End Cases.

(** ** What the records of a result take over from the answer *)

Module Records.
Import JS Env Caps Conduct.

Definition tracking_of (t record : value) : Prop :=
  field "company" record = field "company" t /\
  field "number" record = field "number" t /\
  field "url" record = field "url" t.

Definition fulfillment_of (f record : value) : Prop :=
  field "status" record = field "status" f /\
  field "estimatedDeliveryAt" record = field "estimatedDeliveryAt" f /\
  exists ts rs,
    field "trackingInfo" f = VArr ts /\ field "tracking" record = VArr rs /\
    Forall2 tracking_of ts rs.

Definition item_of (edge record : value) : Prop :=
  let li := field "node" edge in
  field "title" record = field "title" li /\
  field "quantity" record = field "quantity" li.

Definition shop_money (order : value) : value :=
  field "shopMoney" (field "totalPriceSet" order).

(** An order record and the order edge it was made from. *)
Definition order_of (edge record : value) : Prop :=
  let order := field "node" edge in
  field "id" record = field "id" order /\
  field "name" record = field "name" order /\
  field "processedAt" record = field "processedAt" order /\
  field "total" record = field "amount" (shop_money order) /\
  field "currency" record = field "currencyCode" (shop_money order) /\
  (exists fs rs,
     field "fulfillments" order = VArr fs /\ field "fulfillments" record = VArr rs /\
     Forall2 fulfillment_of fs rs) /\
  (exists es rs,
     field "edges" (field "lineItems" order) = VArr es /\
     field "items" record = VArr rs /\
     Forall2 item_of es rs).

(** The list of order records made from the order edges of a customer
    node, one per edge and in their order. *)
Definition orders_of (customer orders : value) : Prop :=
  exists es rs,
    field "edges" (field "orders" customer) = VArr es /\ orders = VArr rs /\
    Forall2 order_of es rs.

(** A customer record of the standalone server and the customer edge it
    was made from. *)
Definition customer_of (edge record : value) : Prop :=
  let node := field "node" edge in
  field "id" record = field "id" node /\
  field "email" record = field "email" node /\
  orders_of node (field "orders" record).

(** A record of [get_products] and the product edge it was made from. *)
Definition listed_of (edge record : value) : Prop :=
  let node := field "node" edge in
  field "id" record = field "id" node /\
  field "title" record = field "title" node.

End Records.

(** ** Properties *)

Import JS Env.

Arguments graphql_request : simpl never.

(** *** Counting calls, binding, mapping *)

Lemma model_calls_app (t1 t2 : list event) :
  model_calls (t1 ++ t2) = model_calls t1 + model_calls t2.
Proof.
  induction t1 as [|e t1 IH]; simpl; [reflexivity|].
  destruct e; simpl; rewrite IH; reflexivity.
Qed.

Lemma commerce_calls_app (t1 t2 : list event) :
  commerce_calls (t1 ++ t2) = commerce_calls t1 + commerce_calls t2.
Proof.
  induction t1 as [|e t1 IH]; simpl; [reflexivity|].
  destruct e; simpl; rewrite IH; reflexivity.
Qed.

Lemma bind_lift {A B} (r : result A) (k : A -> M B) :
  bind (lift r) k = match r with Ok a => k a | Throw e => ([], Throw e) end.
Proof.
  destruct r as [a|e]; simpl; [|reflexivity].
  destruct (k a); reflexivity.
Qed.

Lemma bind_cases {A B} (m : M A) (k : A -> M B) (t : list event) (r : result B) :
  bind m k = (t, r) ->
  (exists e, m = (t, Throw e) /\ r = Throw e) \/
  (exists t1 a t2, m = (t1, Ok a) /\ k a = (t2, r) /\ t = (t1 ++ t2)%list).
Proof.
  destruct m as [t1 [a|e]]; simpl.
  - destruct (k a) as [t2 r2] eqn:Hk. intros H; inversion H; subst.
    right. exists t1, a, t2. auto.
  - intros H; inversion H; subst. left. exists e. auto.
Qed.

Lemma mapM_Forall2 {A B} (f : A -> result B) (l : list A) (l' : list B) :
  mapM f l = Ok l' -> Forall2 (fun x y => f x = Ok y) l l'.
Proof.
  revert l'. induction l as [|x l IH]; simpl; intros l' H.
  - inversion H. constructor.
  - destruct (f x) as [y|e] eqn:Hx; simpl in H; [|discriminate].
    destruct (mapM f l) as [ys|e] eqn:Hl; simpl in H; [|discriminate].
    inversion H; subst. constructor; auto.
Qed.

Lemma array_map_inv (f : value -> result value) (v r : value) :
  array_map f v = Ok r ->
  exists l l', v = VArr l /\ r = VArr l' /\ Forall2 (fun x y => f x = Ok y) l l'.
Proof.
  destruct v; simpl; try discriminate.
  destruct (mapM f xs) as [ys|e] eqn:H; simpl; [|discriminate].
  intros E; inversion E; subst. exists xs, ys. auto using mapM_Forall2.
Qed.

Lemma Forall2_same_length {A B} (R : A -> B -> Prop) (l : list A) (l' : list B) :
  Forall2 R l l' -> length l = length l'.
Proof. induction 1; simpl; congruence. Qed.

(** *** One attempt per call of the commerce API *)

Lemma silent_lift {A} (r : result A) : silent (lift r).
Proof. reflexivity. Qed.

Lemma silent_ret {A} (a : A) : silent (ret a).
Proof. reflexivity. Qed.

Lemma silent_bind_lift {A B} (r : result A) (k : A -> M B) :
  (forall a, silent (k a)) -> silent (bind (lift r) k).
Proof.
  intros H. rewrite bind_lift. destruct r; [apply H | reflexivity].
Qed.

Lemma one_attempt_after {A B} (r : result A) (k : A -> M B) :
  (forall a, one_attempt (k a)) -> one_attempt (bind (lift r) k).
Proof.
  intros H. rewrite bind_lift. destruct r as [a|e]; [apply H|].
  left. simpl. eauto.
Qed.

Lemma one_attempt_then {A B} (m : M A) (k : A -> M B) :
  one_attempt m -> (forall a, silent (k a)) -> one_attempt (bind m k).
Proof.
  intros Hm Hk. destruct m as [t [a|e]]; simpl in *.
  - specialize (Hk a). unfold silent in Hk. destruct (k a) as [t2 r2]. simpl in *.
    subst t2. rewrite app_nil_r.
    destruct Hm as [[_ [e He]]|Hm]; [discriminate | right; exact Hm].
  - destruct Hm as [[Ht _]|Hm]; [left; split; [exact Ht | simpl; eauto] | right; exact Hm].
Qed.

Lemma one_attempt_counts {A} (m : M A) :
  one_attempt m ->
  model_calls (fst m) = 0 /\ commerce_calls (fst m) <= 1 /\
  (forall a, snd m = Ok a -> commerce_calls (fst m) = 1).
Proof.
  intros [[Ht [e He]]|[req Ht]]; rewrite Ht; simpl.
  - repeat split; try lia. intros a Ha. congruence.
  - repeat split; lia.
Qed.

Lemma serverless_callShopify_trace (w : World) (q : string) (v : value) :
  fst (Serverless.callShopify w q v)
  = [CommerceCall (graphql_request w q (default v (VObj [])))].
Proof.
  unfold Serverless.callShopify, await_fetch.
  destruct (fetch w _) as [reason|st [json|m]]; simpl; try reflexivity.
  destruct (get json "errors") as [errors|e]; simpl; [|reflexivity].
  destruct (truthy errors); simpl; [reflexivity|].
  destruct (get json "data"); reflexivity.
Qed.

Lemma standalone_callShopify_trace (w : World) (q : string) (v : value) :
  fst (Standalone.callShopify w q v)
  = if missing (SHOPIFY_STORE w) || missing (SHOPIFY_TOKEN w) then []
    else [CommerceCall (graphql_request w q (default v (VObj [])))].
Proof.
  unfold Standalone.callShopify, await_fetch.
  destruct (missing (SHOPIFY_STORE w) || missing (SHOPIFY_TOKEN w)); [reflexivity|].
  destruct (fetch w _) as [reason|st [json|m]]; simpl; try reflexivity.
  destruct (get json "errors") as [errors|e]; simpl; [|reflexivity].
  destruct (truthy errors); reflexivity.
Qed.

Lemma serverless_callShopify_once (w : World) (q : string) (v : value) :
  one_attempt (Serverless.callShopify w q v).
Proof. right. eexists. apply serverless_callShopify_trace. Qed.

Lemma standalone_callShopify_once (w : World) (q : string) (v : value) :
  one_attempt (Standalone.callShopify w q v).
Proof.
  pose proof (standalone_callShopify_trace w q v) as H.
  destruct (missing (SHOPIFY_STORE w) || missing (SHOPIFY_TOKEN w)) eqn:Hm.
  - left. split; [exact H|].
    unfold Standalone.callShopify. rewrite Hm. simpl. eauto.
  - right. eexists. exact H.
Qed.

(** *** What a call through [functionMap] does *)

Import Turn.

Ltac one_attempt_tool lem :=
  apply one_attempt_after; intros ?;
  apply one_attempt_then; [apply lem|];
  intros ?; repeat (first [apply silent_bind_lift; intros ? | apply silent_lift
                          | apply silent_ret]).

Lemma serverless_findProduct_once w p : one_attempt (Serverless.findProduct w p).
Proof. unfold Serverless.findProduct. one_attempt_tool serverless_callShopify_once. Qed.

Lemma serverless_getCustomerOrders_once w p :
  one_attempt (Serverless.getCustomerOrders w p).
Proof.
  unfold Serverless.getCustomerOrders.
  one_attempt_tool serverless_callShopify_once.
  destruct (negb (truthy _)); [apply silent_ret | apply silent_lift].
Qed.

Lemma serverless_getProducts_once w : one_attempt (Serverless.getProducts w).
Proof.
  unfold Serverless.getProducts.
  apply one_attempt_then; [apply serverless_callShopify_once|].
  intros ?; repeat (first [apply silent_bind_lift; intros ? | apply silent_lift]).
Qed.

Lemma standalone_findProduct_once w p : one_attempt (Standalone.findProduct w p).
Proof. unfold Standalone.findProduct. one_attempt_tool standalone_callShopify_once. Qed.

Lemma standalone_getCustomerOrders_once w p :
  one_attempt (Standalone.getCustomerOrders w p).
Proof.
  unfold Standalone.getCustomerOrders. one_attempt_tool standalone_callShopify_once.
Qed.

Lemma standalone_getProducts_once w : one_attempt (Standalone.getProducts w).
Proof.
  unfold Standalone.getProducts.
  apply one_attempt_then; [apply standalone_callShopify_once|].
  intros ?; repeat (first [apply silent_bind_lift; intros ? | apply silent_ret]).
Qed.

(** *** The catalog *)

(** Both catalogs announce the three names of [functionMap], in its order. *)
Lemma catalogs_announce_tool_names :
  announced Serverless.functions = map VStr tool_names /\
  announced Standalone.functions = map VStr tool_names.
Proof. split; reflexivity. Qed.

(** Under a catalog name [functionMap] holds the tool of that name. *)
Lemma functionMap_own_properties w :
  (exists f, Serverless.functionMap w "find_product" = Function f /\
             forall p, f p = Serverless.findProduct w p) /\
  (exists f, Serverless.functionMap w "get_customer_orders" = Function f /\
             forall p, f p = Serverless.getCustomerOrders w p) /\
  (exists f, Serverless.functionMap w "get_products" = Function f /\
             forall p, f p = Serverless.getProducts w) /\
  (exists f, Standalone.functionMap w "find_product" = Function f /\
             forall p, f p = Standalone.findProduct w p) /\
  (exists f, Standalone.functionMap w "get_customer_orders" = Function f /\
             forall p, f p = Standalone.getCustomerOrders w p) /\
  (exists f, Standalone.functionMap w "get_products" = Function f /\
             forall p, f p = Standalone.getProducts w).
Proof. repeat split; eexists; split; reflexivity. Qed.

(** *** The shape of what each tool returns *)

Lemma opt_array_map_or (f : value -> result value) (v mapped : value) :
  opt_array_map f v = Ok mapped -> exists l, or_ mapped (VArr []) = VArr l.
Proof.
  unfold opt_array_map. destruct (nullish v).
  - intros H; inversion H; subst. cbn. eauto.
  - intros H. apply array_map_inv in H. destruct H as (l & l' & _ & -> & _).
    cbn. eauto.
Qed.

(** Splits an equation [bind m k = (t, Ok d)] into the steps that ran. *)
Ltac steps H :=
  repeat match type of H with
    | bind (lift ?r) _ = _ =>
        rewrite bind_lift in H;
        let E := fresh "E" in destruct r eqn:E; [|discriminate H]
    | bind _ _ = (_, Ok _) =>
        apply bind_cases in H;
        destruct H as [(? & _ & ?) | (? & ? & ? & ? & H & ?)]; [discriminate|]
    | (if ?b then _ else _) = _ => let E := fresh "E" in destruct b eqn:E
    | lift _ = (_, Ok _) => inversion H; clear H
    | ret _ = (_, Ok _) => inversion H; clear H
    end.

Lemma serverless_findProduct_shape w p t d :
  Serverless.findProduct w p = (t, Ok d) -> exists l, d = VArr l.
Proof.
  unfold Serverless.findProduct. intros H. steps H.
  match goal with H : array_map _ _ = Ok d |- _ =>
    apply array_map_inv in H; destruct H as (? & l' & _ & -> & _) end.
  eauto.
Qed.

Lemma serverless_getCustomerOrders_shape w p t d :
  Serverless.getCustomerOrders w p = (t, Ok d) -> exists l, d = VArr l.
Proof.
  unfold Serverless.getCustomerOrders. intros H. steps H; subst.
  - eauto.
  - match goal with H : rbind _ _ = Ok d |- _ =>
      destruct (get_path _ _); simpl in H; [|discriminate];
      apply array_map_inv in H; destruct H as (? & l' & _ & -> & _) end.
    eauto.
Qed.

Lemma serverless_getProducts_shape w t d :
  Serverless.getProducts w = (t, Ok d) -> exists l, d = VArr l.
Proof.
  unfold Serverless.getProducts. intros H. steps H.
  match goal with H : array_map _ _ = Ok d |- _ =>
    apply array_map_inv in H; destruct H as (? & l' & _ & -> & _) end.
  eauto.
Qed.

Lemma standalone_findProduct_shape w p t d :
  Standalone.findProduct w p = (t, Ok d) -> exists l, d = VObj [("products", VArr l)].
Proof.
  unfold Standalone.findProduct. intros H. steps H.
  match goal with H : array_map _ _ = Ok _ |- _ =>
    apply array_map_inv in H; destruct H as (? & l' & _ & -> & _) end.
  subst. eauto.
Qed.

Lemma standalone_getCustomerOrders_shape w p t d :
  Standalone.getCustomerOrders w p = (t, Ok d) ->
  exists l, d = VObj [("customers", VArr l)].
Proof.
  unfold Standalone.getCustomerOrders. intros H. steps H. subst.
  match goal with E : rbind _ _ = Ok _ |- _ =>
    repeat (match type of E with
            | rbind ?r _ = _ => destruct r eqn:?; simpl in E; [|discriminate]
            end);
    inversion E; subst end.
  match goal with E : opt_array_map _ _ = Ok _ |- _ =>
    apply opt_array_map_or in E; destruct E as [l ->] end.
  eauto.
Qed.

Lemma standalone_getProducts_shape w t d :
  Standalone.getProducts w = (t, Ok d) -> exists l, d = VObj [("products", VArr l)].
Proof.
  unfold Standalone.getProducts. intros H. steps H. subst.
  match goal with E : rbind _ _ = Ok _ |- _ =>
    repeat (match type of E with
            | rbind ?r _ = _ => destruct r eqn:?; simpl in E; [|discriminate]
            end);
    inversion E; subst end.
  match goal with E : opt_array_map _ _ = Ok _ |- _ =>
    apply opt_array_map_or in E; destruct E as [l ->] end.
  eauto.
Qed.

(** The members of [Object.prototype] make no call and, when they return,
    return a value. *)
Lemma Object_prototype_call name arg t r :
  call (Object_prototype name) arg = (t, r) ->
  t = [] /\ forall d, r = Ok d -> d <> VUndef.
Proof.
  unfold Object_prototype.
  repeat match goal with
         | |- context [if ?b then _ else _] => destruct b
         end; simpl.
  - intros H; inversion H; subst. split; [reflexivity|].
    intros d Hd; inversion Hd; subst. destruct arg; discriminate.
  - intros H; inversion H; subst. split; [reflexivity|].
    intros d Hd; inversion Hd; discriminate.
  - destruct arg; intros H; inversion H; subst; (split; [reflexivity|]);
      intros d Hd; inversion Hd; discriminate.
  - intros H; inversion H; subst. split; [reflexivity | discriminate].
  - intros H; inversion H; subst. split; [reflexivity | discriminate].
  - intros H; inversion H; subst. split; [reflexivity | discriminate].
  - intros H; inversion H; subst. split; [reflexivity | discriminate].
Qed.

Lemma known_cases name :
  known name = ((name =? "find_product") || (name =? "get_customer_orders")
                || (name =? "get_products")).
Proof. unfold known. simpl. rewrite orb_false_r, orb_assoc. reflexivity. Qed.

Ltac tool_effects once shape :=
  let Ho := fresh in let Hs := fresh in
  intros Ho;
  match type of Ho with
  | ?m = (?t, ?r) =>
      pose proof once as Hs; apply one_attempt_counts in Hs;
      rewrite Ho in Hs; simpl in Hs;
      destruct Hs as (? & ? & ?);
      repeat split; auto; try discriminate;
      [ intros d Hd; subst; destruct (shape _ _ Ho) as [? ->]; discriminate
      | intros d Hd; subst; eauto ]
  end.

Lemma serverless_call_effects w name arg t r :
  call (Serverless.functionMap w name) arg = (t, r) ->
  model_calls t = 0 /\ commerce_calls t <= 1 /\
  (known name = false -> commerce_calls t = 0) /\
  (forall d, r = Ok d -> d <> VUndef) /\
  (forall d, r = Ok d -> known name = true -> commerce_calls t = 1).
Proof.
  rewrite known_cases. unfold Serverless.functionMap.
  destruct (name =? "find_product"); [|destruct (name =? "get_customer_orders");
    [|destruct (name =? "get_products")]]; simpl.
  - tool_effects (serverless_findProduct_once w arg) (@serverless_findProduct_shape w arg).
  - tool_effects (serverless_getCustomerOrders_once w arg)
      (@serverless_getCustomerOrders_shape w arg).
  - tool_effects (serverless_getProducts_once w) (@serverless_getProducts_shape w).
  - intros H. apply Object_prototype_call in H. destruct H as [-> H].
    simpl. repeat split; auto; discriminate.
Qed.

Lemma standalone_call_effects w name arg t r :
  call (Standalone.functionMap w name) arg = (t, r) ->
  model_calls t = 0 /\ commerce_calls t <= 1 /\
  (known name = false -> commerce_calls t = 0) /\
  (forall d, r = Ok d -> d <> VUndef) /\
  (forall d, r = Ok d -> known name = true -> commerce_calls t = 1).
Proof.
  rewrite known_cases. unfold Standalone.functionMap.
  destruct (name =? "find_product"); [|destruct (name =? "get_customer_orders");
    [|destruct (name =? "get_products")]]; simpl.
  - tool_effects (standalone_findProduct_once w arg) (@standalone_findProduct_shape w arg).
  - tool_effects (standalone_getCustomerOrders_once w arg)
      (@standalone_getCustomerOrders_shape w arg).
  - tool_effects (standalone_getProducts_once w) (@standalone_getProducts_shape w).
  - intros H. apply Object_prototype_call in H. destruct H as [-> H].
    simpl. repeat split; auto; discriminate.
Qed.

(** *** The paths of a turn *)

Arguments call : simpl never.
Arguments Serverless.functionMap : simpl never.
Arguments Standalone.functionMap : simpl never.
Arguments Serverless.first_request : simpl never.
Arguments Serverless.second_request : simpl never.
Arguments Standalone.first_request : simpl never.
Arguments Standalone.second_request : simpl never.
Arguments jsonify : simpl never.

Lemma or_object_not_nullish (b : value) : nullish (or_ b (VObj [])) = false.
Proof.
  unfold or_. destruct (truthy b) eqn:H; [|reflexivity].
  destruct b; try reflexivity; discriminate.
Qed.

Lemma serverless_handler_accepted w req msg :
  serverless_accepts req msg ->
  Serverless.handler w req =
  try_catch (result <- Serverless.runAssistant w msg ;; ret (respond 200 result))
    (fun err => _ <- console_error err ;;
                ret (respond 500 (VObj [("error", VStr (message_of err))]))).
Proof.
  intros (Hm & Hf & Hs & Ht). unfold Serverless.handler.
  rewrite Hm. simpl (negb _). cbv iota.
  unfold destructure. rewrite or_object_not_nullish, Hf.
  rewrite bind_lift, Hs, Ht. reflexivity.
Qed.

Lemma standalone_chat_accepted w req msg :
  standalone_accepts req msg ->
  Standalone.chat w req =
  try_catch (Standalone.turn w msg)
    (fun err => _ <- console_error err ;;
                ret (respond 500 (VObj [("error", VStr (message_of err))]))).
Proof.
  intros (Hm & Ht). unfold Standalone.chat.
  rewrite Hm, bind_lift, Ht. reflexivity.
Qed.

Ltac completion_of H :=
  match type of H with
  | create ?w ?q = _ =>
      let C := fresh "C" in
      assert (C : completion w q = _)
        by (unfold completion; rewrite H; reflexivity);
      simpl in C
  end.

Ltac path c :=
  rewrite <- ?app_assoc, ?app_nil_r; simpl app;
  do 2 eexists; (split; [reflexivity|]); eapply c; eauto.

(** Every accepted request of the serverless function follows one path. *)
Lemma serverless_outcome w req msg :
  serverless_accepts req msg ->
  exists t resp,
    Serverless.handler w req = (t, Ok resp) /\ outcome serverless w msg t resp.
Proof.
  intros Hacc. rewrite (serverless_handler_accepted w Hacc).
  unfold Serverless.runAssistant, await_create.
  destruct (create w (Serverless.first_request msg)) as [reason|[|m ms]] eqn:Hc;
    completion_of Hc; cbn.
  - path no_completion.
  - path no_completion.
  - destruct (function_call m) as [fc|] eqn:Hfc; cbn; [|path direct_answer].
    destruct (parse_arguments serverless w (fc_arguments fc)) as [args|e] eqn:Hp;
      pose proof Hp as Hp'; cbn in Hp'; rewrite Hp'; cbn; [|path bad_arguments].
    destruct (call (Serverless.functionMap w (fc_name fc)) args)
      as [tt [data|e]] eqn:Hcall; cbn.
    + destruct (create w (Serverless.second_request msg m (fc_name fc) data))
        as [reason|[|answer more]] eqn:Hc2; completion_of Hc2; cbn.
      * path no_second_completion. reflexivity.
      * path no_second_completion. reflexivity.
      * path composed_answer. reflexivity.
    + path tool_failure. reflexivity.
Qed.

(** Every accepted request of the standalone route follows one path. *)
Lemma standalone_outcome w req msg :
  standalone_accepts req msg ->
  exists t resp,
    Standalone.chat w req = (t, Ok resp) /\ outcome standalone w msg t resp.
Proof.
  intros Hacc. rewrite (standalone_chat_accepted w Hacc).
  unfold Standalone.turn, await_create.
  destruct (create w (Standalone.first_request msg)) as [reason|[|m ms]] eqn:Hc;
    completion_of Hc; cbn.
  - path no_completion.
  - path no_completion.
  - destruct (function_call m) as [fc|] eqn:Hfc; cbn; [|path direct_answer].
    destruct (parse_arguments standalone w (fc_arguments fc)) as [args|e] eqn:Hp;
      pose proof Hp as Hp'; cbn in Hp'; rewrite Hp'; cbn; [|path bad_arguments].
    destruct (lookup standalone w (fc_name fc)) as [fn|e] eqn:Hl;
      pose proof Hl as Hl'; cbn in Hl';
      destruct (Standalone.not_ (Standalone.functionMap w (fc_name fc)));
      inversion Hl'; subst; cbn; [|path no_function].
    destruct (call (Standalone.functionMap w (fc_name fc)) args)
      as [tt [data|e]] eqn:Hcall; cbn.
    + destruct (create w (Standalone.second_request msg m (fc_name fc) data))
        as [reason|[|answer more]] eqn:Hc2; completion_of Hc2; cbn.
      * path no_second_completion.
      * path no_second_completion.
      * path composed_answer.
    + path tool_failure.
Qed.

(** *** The law of a turn, from its paths *)

Import Law.

Lemma serverless_well_behaved : well_behaved serverless.
Proof.
  intros w name fn args t r Hl Hc. simpl in Hl. inversion Hl; subst.
  apply serverless_call_effects in Hc. exact Hc.
Qed.

Lemma standalone_well_behaved : well_behaved standalone.
Proof.
  intros w name fn args t r Hl Hc. simpl in Hl.
  destruct (Standalone.not_ _); inversion Hl; subst.
  apply standalone_call_effects in Hc. exact Hc.
Qed.

Lemma failure_fields e k : has_field k (failure e) = (k =? "error").
Proof.
  cbv [has_field failure respond body jsonify assoc].
  rewrite String.eqb_sym. destruct (k =? "error"); reflexivity.
Qed.

Lemma reply_only_has_no_data c :
  has_field "data" (respond 200 (VObj [("reply", c)])) = false.
Proof. destruct c; reflexivity. Qed.

Lemma reply_and_data_has_data c d :
  d <> VUndef ->
  has_field "data" (respond 200 (VObj [("reply", c); ("data", d)])) = true.
Proof. intros H. destruct c, d; try reflexivity; contradiction. Qed.

(** Two equations on the same step of a turn give the same outcome of it. *)
Ltac same_steps :=
  repeat match goal with
         | H1 : ?a = Ok _, H2 : ?a = Throw _ |- _ => rewrite H1 in H2; discriminate H2
         | H1 : ?a = Ok ?x, H2 : ?a = Ok ?y |- _ =>
             rewrite H1 in H2; inversion H2; subst; clear H2
         | H1 : ?a = Throw ?x, H2 : ?a = Throw ?y |- _ =>
             rewrite H1 in H2; inversion H2; subst; clear H2
         | H1 : ?a = Some ?x, H2 : ?a = Some ?y |- _ =>
             rewrite H1 in H2; inversion H2; subst; clear H2
         | H1 : ?a = Some _, H2 : ?a = None |- _ => rewrite H1 in H2; discriminate H2
         | H1 : call ?f ?x = _, H2 : call ?f ?x = _ |- _ =>
             rewrite H1 in H2; inversion H2; subst; clear H2
         end.

Ltac open_steps :=
  repeat match goal with
         | H : goes_through _ _ _ _ _ _ _ _ |- _ =>
             destruct H as (? & ? & ? & ? & ? & ?)
         | H : breaks_off _ _ _ _ _ _ |- _ =>
             destruct H as [?|(? & ? & [?|(? & ? & ? & [?|(? & ? & ?)])])]
         | H : exists _, _ |- _ => destruct H as [? H]
         | H : _ /\ _ |- _ => destruct H as [? H]
         end.

Lemma outcome_law I w msg t resp :
  well_behaved I -> outcome I w msg t resp -> turn_law I w msg (t, Ok resp).
Proof.
  intros WB H. exists t, resp. split; [reflexivity|].
  inversion H; subst.
  all: try match goal with
         | Hl : lookup _ _ _ = Ok ?fn, Hc : call ?fn _ = _ |- _ =>
             destruct (WB _ _ _ _ _ _ Hl Hc) as (? & ? & ? & ? & ?)
         end.
  all: split; [intros e0 He0; same_steps; auto|].
  all: split; [intros m0 Hm0 Hf0; same_steps; auto using reply_only_has_no_data|].
  all: split; [intros m0 fc0 tt0 data0 answer0 Hm0 Hf0 Hg; open_steps; same_steps|].
  all: try (split; [intros m0 fc0 e0 Hm0 Hf0 Hb; open_steps; same_steps;
                    rewrite ?failure_fields; auto|]).
  all: try (split; [rewrite ?failure_fields, ?reply_only_has_no_data; cbn;
                    split; [intros; discriminate
                           | intros Hg; open_steps; same_steps]|]).
  all: rewrite ?model_calls_app, ?commerce_calls_app; cbn;
       rewrite ?model_calls_app, ?commerce_calls_app; cbn; try lia.
  - (* composed answer: the steps that went through *)
    match goal with Hd : forall d, Ok _ = Ok d -> _ -> _ = 1 |- _ =>
      pose proof (Hd _ eq_refl) as Hone end.
    repeat split; auto.
    + apply reply_and_data_has_data. eauto.
    + lia.
    + intros Hk. specialize (Hone Hk). lia.
  - split; [|lia]. rewrite reply_and_data_has_data by eauto.
    split; [|reflexivity]. intros _.
    exists m, fc, tt, data, answer. repeat split; auto.
    exists args, fn. auto.
Qed.

(** C1 (amended): on every accepted request each handler settles with a
    response, as follows.  When the first model response has no tool
    invocation, exactly one model call is made and the response is
    [{reply}] without [data].  When it has one and the arguments parse,
    the function is found and returns, and the second model call
    succeeds, the response is 200 and [{reply, data}] with the second
    model message as [reply] and the function's result as [data], after
    exactly two model calls, around the function's commerce call, which is
    exactly one for a catalog tool.  When one of these steps fails, the
    response is 500 and [{error}] with that error's message, without
    [reply] and without [data]; so it is when the first model call fails.
    Hence the response has a [data] field exactly when the first response
    has a tool invocation and every step after it goes through; and no
    turn makes more than two model calls or more than one commerce
    call. *)
Theorem turn_response_law (w : World) (req : request) (msg : value) :
  (serverless_accepts req msg ->
   turn_law serverless w msg (Serverless.handler w req)) /\
  (standalone_accepts req msg ->
   turn_law standalone w msg (Standalone.chat w req)).
Proof.
  split; intros Hacc.
  - destruct (serverless_outcome w Hacc) as (t & resp & -> & Ho).
    apply outcome_law; [apply serverless_well_behaved | exact Ho].
  - destruct (standalone_outcome w Hacc) as (t & resp & -> & Ho).
    apply outcome_law; [apply standalone_well_behaved | exact Ho].
Qed.

Import Samples.

Lemma post_accepted_serverless (s : string) :
  s <> "" -> serverless_accepts (post (VStr s)) (VStr s).
Proof.
  intros H. repeat split. simpl. destruct s; [contradiction | reflexivity].
Qed.

Lemma post_accepted_standalone (v : value) :
  truthy v = true -> standalone_accepts (post v) v.
Proof. intros H. split; [reflexivity | exact H]. Qed.

Lemma turn_response_law_witness :
  turn_law serverless throttled_shop hello
    (Serverless.handler throttled_shop (post hello)) /\
  turn_law standalone throttled_shop hello
    (Standalone.chat throttled_shop (post hello)).
Proof.
  destruct (turn_response_law throttled_shop (post hello) hello) as [H1 H2].
  split.
  - apply H1. apply post_accepted_serverless. discriminate.
  - apply H2. apply post_accepted_standalone. reflexivity.
Defined.

(** C1 (counterexample): the first model response nominates the catalog
    tool [get_products] and the commerce platform answers with an [errors]
    list; the response has no [data] field and one model call was made,
    not two. *)
Lemma tool_failure_leaves_no_data :
  let fc := {| fc_name := "get_products"; fc_arguments := "{}" |} in
  serverless_accepts (post hello) hello /\
  nominates serverless throttled_shop hello fc /\
  known (fc_name fc) = true /\
  exists t resp,
    Serverless.handler throttled_shop (post hello) = (t, Ok resp) /\
    has_field "data" resp = false /\ model_calls t = 1.
Proof.
  repeat split.
  - eexists. split; reflexivity.
  - do 2 eexists. split; [vm_compute; reflexivity|]. split; reflexivity.
Qed.

(** *** Names outside the catalog *)

(** C2 (failing input): the model names [toString], which is not in the
    catalog.  Both handlers find [Object.prototype.toString] under that
    name, call it, make the second model call and answer 200 with its
    result as [data]; the turn does not fail. *)
Theorem inherited_name_runs_as_tool :
  known "toString" = false /\
  (exists t,
     Serverless.handler toString_shop (post hello)
     = (t, Ok (respond 200 (VObj [("reply", VStr "Here you go");
                                  ("data", VStr "[object Undefined]")]))) /\
     model_calls t = 2 /\ commerce_calls t = 0) /\
  (exists t,
     Standalone.chat toString_shop (post hello)
     = (t, Ok (respond 200 (VObj [("reply", VStr "Here you go");
                                  ("data", VStr "[object Undefined]")]))) /\
     model_calls t = 2 /\ commerce_calls t = 0).
Proof.
  split; [reflexivity|].
  split; eexists; (split; [vm_compute; reflexivity|]); split; reflexivity.
Qed.

(** A name outside the catalog never reaches the commerce API. *)
Lemma outside_catalog_no_commerce_call I w msg t resp fc :
  well_behaved I -> outcome I w msg t resp -> nominates I w msg fc ->
  known (fc_name fc) = false -> commerce_calls t = 0.
Proof.
  intros WB H (m0 & Hm0 & Hf0) Hk.
  inversion H; subst; try reflexivity.
  all: assert (m = m0) by congruence; subst m0.
  all: assert (fc0 = fc) by congruence; subst fc0.
  all: match goal with
       | Hl : lookup _ _ _ = Ok ?fn, Hc : call ?fn _ = _ |- _ =>
           destruct (WB _ _ _ _ _ _ Hl Hc) as (_ & _ & Hzero & _)
       end.
  all: specialize (Hzero Hk); cbn; rewrite ?commerce_calls_app; cbn; lia.
Qed.

(** A name with no property at all on [functionMap] fails the standalone
    turn with the message of the route's own check. *)
Lemma standalone_missing_function w req msg fc args :
  standalone_accepts req msg -> nominates standalone w msg fc ->
  parse w (fc_arguments fc) = Ok args ->
  Standalone.functionMap w (fc_name fc) = Undefined ->
  let e := Error ("Function " ++ fc_name fc ++ " is not implemented.") in
  Standalone.chat w req
  = ([ModelCall (Standalone.first_request msg); ConsoleError e], Ok (failure e)).
Proof.
  intros Hacc (m & Hm & Hf) Hp Hu e.
  rewrite (standalone_chat_accepted w Hacc).
  unfold Standalone.turn, await_create. unfold completion in Hm. simpl in Hm.
  destruct (create w (Standalone.first_request msg)) as [reason|[|m' ms]];
    try discriminate.
  simpl in Hm. inversion Hm; subst m'. cbn. rewrite Hf. cbn.
  rewrite Hp. cbn. rewrite Hu. reflexivity.
Qed.

(** *** One commerce call *)

Import Commerce.

Lemma truthy_field_not_nullish k json :
  truthy (field k json) = true -> nullish json = false.
Proof. destruct json; simpl; try discriminate; reflexivity. Qed.

Lemma get_field json k : nullish json = false -> get json k = Ok (field k json).
Proof. intros H. unfold get. rewrite H. reflexivity. Qed.

Lemma serverless_callShopify_ok w q v t d :
  Serverless.callShopify w q v = (t, Ok d) ->
  exists status json,
    fetch w (graphql_request w q (default v (VObj []))) = FetchResolved status (Parsed json)
    /\ truthy (field "errors" json) = false /\ nullish json = false
    /\ d = field "data" json.
Proof.
  unfold Serverless.callShopify, await_fetch.
  destruct (fetch w _) as [reason|status [json|m]]; simpl; try discriminate.
  unfold get. destruct (nullish json) eqn:Hn; simpl; [discriminate|].
  destruct (truthy (field "errors" json)) eqn:He; simpl; [discriminate|].
  intros H; inversion H; subst. eauto 6.
Qed.

Lemma standalone_callShopify_ok w q v t d :
  Standalone.callShopify w q v = (t, Ok d) ->
  configured w = true /\
  exists status,
    fetch w (graphql_request w q (default v (VObj []))) = FetchResolved status (Parsed d)
    /\ truthy (field "errors" d) = false /\ nullish d = false.
Proof.
  unfold Standalone.callShopify, await_fetch, configured.
  destruct (missing (SHOPIFY_STORE w) || missing (SHOPIFY_TOKEN w)); simpl;
    [discriminate|].
  destruct (fetch w _) as [reason|status [json|m]]; simpl; try discriminate.
  unfold get. destruct (nullish json) eqn:Hn; simpl; [discriminate|].
  destruct (truthy (field "errors" json)) eqn:He; simpl; [discriminate|].
  intros H; inversion H; subst. eauto 6.
Qed.

Lemma serverless_callShopify_run w q v :
  let req := graphql_request w q (default v (VObj [])) in
  (forall reason, fetch w req = FetchRejected reason ->
     Serverless.callShopify w q v = ([CommerceCall req], Throw (FetchError reason))) /\
  (forall status m, fetch w req = FetchResolved status (Unparsable m) ->
     Serverless.callShopify w q v = ([CommerceCall req], Throw (FetchError m))) /\
  (forall status json, fetch w req = FetchResolved status (Parsed json) ->
     truthy (field "errors" json) = true ->
     Serverless.callShopify w q v
     = ([CommerceCall req], Throw (Error (print (field "errors" json))))) /\
  (forall status json, fetch w req = FetchResolved status (Parsed json) ->
     nullish json = false -> truthy (field "errors" json) = false ->
     Serverless.callShopify w q v = ([CommerceCall req], Ok (field "data" json))).
Proof.
  intros req. unfold Serverless.callShopify, await_fetch. fold req.
  repeat split.
  - intros reason ->. reflexivity.
  - intros status m ->. reflexivity.
  - intros status json -> He. simpl.
    rewrite get_field by (eapply truthy_field_not_nullish; eassumption). simpl. rewrite He.
    unfold JSON_stringify. destruct (field "errors" json); try discriminate; reflexivity.
  - intros status json -> Hn He. simpl. rewrite get_field by exact Hn. simpl. rewrite He.
    rewrite get_field by exact Hn. reflexivity.
Qed.

Lemma standalone_callShopify_run w q v :
  configured w = true ->
  let req := graphql_request w q (default v (VObj [])) in
  (forall reason, fetch w req = FetchRejected reason ->
     Standalone.callShopify w q v = ([CommerceCall req], Throw (FetchError reason))) /\
  (forall status m, fetch w req = FetchResolved status (Unparsable m) ->
     Standalone.callShopify w q v = ([CommerceCall req], Throw (FetchError m))) /\
  (forall status json, fetch w req = FetchResolved status (Parsed json) ->
     truthy (field "errors" json) = true ->
     Standalone.callShopify w q v
     = ([CommerceCall req],
        Throw (Error ("Shopify API error: " ++ print (field "errors" json))))) /\
  (forall status json, fetch w req = FetchResolved status (Parsed json) ->
     nullish json = false -> truthy (field "errors" json) = false ->
     Standalone.callShopify w q v = ([CommerceCall req], Ok json)).
Proof.
  intros Hc req. unfold Standalone.callShopify, await_fetch. fold req.
  unfold configured in Hc. apply negb_true_iff in Hc. rewrite Hc.
  repeat split.
  - intros reason ->. reflexivity.
  - intros status m ->. reflexivity.
  - intros status json -> He. simpl.
    rewrite get_field by (eapply truthy_field_not_nullish; eassumption). simpl. rewrite He.
    unfold JSON_stringify. destruct (field "errors" json); try discriminate; reflexivity.
  - intros status json -> Hn He. simpl. rewrite get_field by exact Hn. simpl. rewrite He.
    reflexivity.
Qed.



(** *** A failed commerce call ends the turn *)












(** *** Argument strings that are not JSON *)





(** *** The size of the results *)

Import Caps.

Lemma get_inv v k x : get v k = Ok x -> nullish v = false /\ x = field k v.
Proof.
  unfold get. destruct (nullish v); [discriminate|].
  intros H; inversion H. auto.
Qed.

Lemma destructure_inv v k x :
  destructure v k = Ok x -> nullish v = false /\ x = field k v.
Proof.
  unfold destructure. destruct (nullish v); [discriminate|].
  intros H; inversion H. auto.
Qed.

Lemma opt_get_inv v k x : opt_get v k = Ok x -> x = field k v.
Proof.
  unfold opt_get. destruct (nullish v) eqn:Hn.
  - intros H; inversion H. destruct v; try discriminate; reflexivity.
  - intros H. apply get_inv in H. tauto.
Qed.

Lemma get_path2_inv v a b x :
  get_path v [a; b] = Ok x -> x = field b (field a v).
Proof.
  unfold get_path. simpl. destruct (get v a) as [y|e] eqn:Ha; simpl; [|discriminate].
  intros Hb. apply get_inv in Ha. apply get_inv in Hb.
  destruct Ha as [_ ->]. tauto.
Qed.



(** Splits an equation [(let? x := r in k) = Ok y] into its steps. *)
Ltac lets H :=
  repeat match type of H with
    | rbind ?r _ = Ok _ =>
        let E := fresh "E" in destruct r eqn:E; simpl in H; [|discriminate H]
    end.









Section Honoured.

Variable w : World.
Hypothesis honoured :
  forall r status json,
    fetch w r = FetchResolved status (Parsed json) ->
    honours_limits (field "data" json) = true.

Ltac payload :=
  match goal with
  | Hc : Serverless.callShopify _ _ _ = _ |- _ =>
      apply serverless_callShopify_ok in Hc;
      let Hf := fresh "Hf" in
      destruct Hc as (? & ? & Hf & _ & _ & ->);
      apply honoured in Hf; unfold honours_limits in Hf;
      apply andb_true_iff in Hf; destruct Hf as [? ?]
  | Hc : Standalone.callShopify _ _ _ = _ |- _ =>
      apply standalone_callShopify_ok in Hc;
      let Hf := fresh "Hf" in
      destruct Hc as (_ & ? & Hf & _ & _);
      apply honoured in Hf; unfold honours_limits in Hf;
      apply andb_true_iff in Hf; destruct Hf as [? ?]
  end.

Ltac fields :=
  repeat match goal with
         | E : rbind _ _ = Ok _ |- _ => lets E; inversion E; subst; clear E
         | E : opt_get _ _ = Ok _ |- _ => apply opt_get_inv in E; subst
         | E : get_path _ [_; _] = Ok _ |- _ => apply get_path2_inv in E; subst
         end.










End Honoured.

(** The query text of a tool is a constant of the source. *)










(** *** No matching customer, no matching product *)

Lemma opt_get_field v k : opt_get v k = Ok (field k v).
Proof.
  unfold opt_get, get. destruct (nullish v) eqn:Hn; [|reflexivity].
  destruct v; try discriminate; reflexivity.
Qed.

Lemma field_defined_object k v x :
  field k v = x -> x <> VUndef -> nullish v = false.
Proof. destruct v; simpl; intros; subst; try reflexivity; contradiction. Qed.

Lemma edges_body_not_nullish json kind l :
  field "edges" (field kind (field "data" json)) = VArr l -> nullish json = false.
Proof.
  intros H.
  assert (H1 : nullish (field kind (field "data" json)) = false)
    by (eapply field_defined_object; [exact H | discriminate]).
  assert (H2 : nullish (field "data" json) = false).
  { destruct (field "data" json); try reflexivity; discriminate. }
  destruct json; try reflexivity; discriminate.
Qed.

Section NothingFound.

Variables (w : World) (status : Z) (json : value).
Hypothesis answer : forall r, fetch w r = FetchResolved status (Parsed json).
Hypothesis no_errors : truthy (field "errors" json) = false.





End NothingFound.

Lemma completion_inv w q m :
  completion w q = Ok m -> exists ms, create w q = Completion (m :: ms).
Proof.
  unfold completion. destruct (create w q) as [reason|[|m' ms]]; simpl;
    try discriminate.
  intros H. inversion H; subst. eauto.
Qed.



(** *** Requests without a usable message *)

Lemma field_or_object k b : field k (or_ b (VObj [])) = field k b.
Proof.
  unfold or_. destruct (truthy b) eqn:H; [reflexivity|].
  destruct b; try reflexivity; discriminate.
Qed.

(** The serverless function answers any request whose [message] is not a
    non-empty string with 400 or 405, and calls nothing. *)
Lemma serverless_rejects_unusable_message w req :
  non_empty_string (field "message" (req_body req)) = false ->
  exists resp,
    Serverless.handler w req = ([], Ok resp) /\
    (status resp = 400%Z \/ status resp = 405%Z) /\
    has_field "reply" resp = false /\ has_field "data" resp = false.
Proof.
  intros H. unfold Serverless.handler.
  destruct (negb (req_method req =? "POST")).
  - eexists. split; [reflexivity|]. split; [right; reflexivity|]. split; reflexivity.
  - unfold destructure. rewrite or_object_not_nullish, field_or_object, bind_lift.
    destruct (field "message" (req_body req)) as [| |b|z|s|l|fs]; simpl in *;
      try (eexists; split; [reflexivity|]; split; [left; reflexivity|];
           split; reflexivity).
    destruct (s =? ""); simpl in *; [|discriminate].
    eexists. split; [reflexivity|]. split; [left; reflexivity|]. split; reflexivity.
Qed.

(** The standalone server does so when the [message] is falsy. *)
Lemma standalone_rejects_falsy_message w req :
  truthy (field "message" (req_body req)) = false ->
  Standalone.chat w req
  = ([], Ok (respond 400
               (VObj [("error", VStr "Request body must include a `message` field.")]))).
Proof.
  intros H. unfold Standalone.chat. rewrite opt_get_field, bind_lift, H. reflexivity.
Qed.

(** C7 (failing input): the body is [{message: 123}]; the message is not
    a string.  The serverless function rejects it with 400 and calls
    nothing; the standalone server passes 123 to the model API. *)
Theorem standalone_passes_non_string_message :
  non_empty_string (field "message" (req_body (post (VNum 123)))) = false /\
  (exists resp,
     Serverless.handler greeting_shop (post (VNum 123)) = ([], Ok resp) /\
     status resp = 400%Z) /\
  (exists resp,
     Standalone.chat greeting_shop (post (VNum 123))
     = ([ModelCall (Standalone.first_request (VNum 123))], Ok resp) /\
     status resp = 200%Z /\ has_field "reply" resp = true).
Proof.
  split; [reflexivity|].
  split; eexists; (split; [vm_compute; reflexivity|]); repeat split.
Qed.

(** *** Missing store credentials *)

(** The standalone [callShopify] stops before the network when the store
    domain or the access token is missing. *)
Lemma standalone_fails_fast w q v :
  configured w = false ->
  Standalone.callShopify w q v
  = ([], Throw (Error "Shopify store credentials are not set in environment variables")).
Proof.
  unfold configured, Standalone.callShopify. intros H.
  apply negb_false_iff in H. rewrite H. reflexivity.
Qed.

(** C8 (failing input): neither [SHOPIFY_STORE] nor [SHOPIFY_TOKEN] is
    set.  The standalone [callShopify] throws before any request; the
    serverless one sends the request, to the host [undefined] and with an
    undefined token. *)
Theorem serverless_calls_without_credentials :
  configured unconfigured_shop = false /\
  Standalone.callShopify unconfigured_shop Standalone.getProducts_gql VUndef
  = ([], Throw (Error "Shopify store credentials are not set in environment variables")) /\
  exists r,
    fst (Serverless.callShopify unconfigured_shop Serverless.getProducts_gql VUndef)
    = [CommerceCall r] /\
    url r = "https://undefined/admin/api/2025-07/graphql.json" /\
    assoc "X-Shopify-Access-Token" (headers r) = Some VUndef.
Proof.
  split; [reflexivity|]. split; [reflexivity|].
  eexists. split; [vm_compute; reflexivity|]. split; reflexivity.
Qed.

(** *** The first customer edge *)

Lemma serverless_orders_of_first w status json p edge rest :
  (forall r, fetch w r = FetchResolved status (Parsed json)) ->
  customer_edges json = VArr (edge :: rest) ->
  snd (Serverless.getCustomerOrders w p)
  = orders_of_first p (field "errors" json) edge.
Proof.
  intros Hfetch He. unfold Serverless.getCustomerOrders, orders_of_first.
  rewrite bind_lift. destruct (destructure p "email") as [email|e]; [|reflexivity].
  simpl rbind. unfold customer_edges in He.
  pose proof (edges_body_not_nullish _ _ He) as Hn.
  destruct (serverless_callShopify_run w Serverless.getCustomerOrders_gql
              (VObj [("email", email)])) as (_ & _ & Herr & Hok).
  destruct (truthy (field "errors" json)) eqn:Ht.
  - rewrite (Herr status json (Hfetch _) Ht). simpl.
    unfold JSON_stringify, new_Error.
    destruct (field "errors" json); try discriminate; reflexivity.
  - rewrite (Hok status json (Hfetch _) Hn Ht). cbn.
    repeat (rewrite opt_get_field; cbn). rewrite He. cbn.
    rewrite opt_get_field. cbn.
    destruct (negb (truthy (field "node" edge))); [reflexivity|].
    reflexivity.
Qed.

(** ** Further properties of the two implementations *)

Import Conduct.

(** *** Every request is answered *)

Lemma logged_app t1 t2 : logged (t1 ++ t2) = (logged t1 ++ logged t2)%list.
Proof.
  induction t1 as [|e t1 IH]; simpl; [reflexivity|].
  destruct e; simpl; rewrite IH; reflexivity.
Qed.

Lemma model_requests_app t1 t2 :
  model_requests (t1 ++ t2) = (model_requests t1 ++ model_requests t2)%list.
Proof.
  induction t1 as [|e t1 IH]; simpl; [reflexivity|].
  destruct e; simpl; rewrite IH; reflexivity.
Qed.

Lemma one_attempt_trace {A} (m : M A) t r :
  one_attempt m -> m = (t, r) -> t = [] \/ exists q, t = [CommerceCall q].
Proof.
  intros [[Ht _]|[q Ht]] ->; simpl in Ht; [left | right; exists q]; exact Ht.
Qed.

Lemma serverless_call_trace w name arg t r :
  call (Serverless.functionMap w name) arg = (t, r) ->
  t = [] \/ exists q, t = [CommerceCall q].
Proof.
  unfold Serverless.functionMap.
  destruct (name =? "find_product"); [|destruct (name =? "get_customer_orders");
    [|destruct (name =? "get_products")]]; simpl.
  - apply one_attempt_trace, serverless_findProduct_once.
  - apply one_attempt_trace, serverless_getCustomerOrders_once.
  - apply one_attempt_trace, serverless_getProducts_once.
  - intros H. apply Object_prototype_call in H. left. tauto.
Qed.

Lemma standalone_call_trace w name arg t r :
  call (Standalone.functionMap w name) arg = (t, r) ->
  t = [] \/ exists q, t = [CommerceCall q].
Proof.
  unfold Standalone.functionMap.
  destruct (name =? "find_product"); [|destruct (name =? "get_customer_orders");
    [|destruct (name =? "get_products")]]; simpl.
  - apply one_attempt_trace, standalone_findProduct_once.
  - apply one_attempt_trace, standalone_getCustomerOrders_once.
  - apply one_attempt_trace, standalone_getProducts_once.
  - intros H. apply Object_prototype_call in H. left. tauto.
Qed.

Lemma serverless_quiet : quiet serverless.
Proof.
  intros w name fn args t r Hl Hc. simpl in Hl. inversion Hl; subst.
  eapply serverless_call_trace; eauto.
Qed.

Lemma standalone_quiet : quiet standalone.
Proof.
  intros w name fn args t r Hl Hc. simpl in Hl.
  destruct (Standalone.not_ _); inversion Hl; subst.
  eapply standalone_call_trace; eauto.
Qed.

Lemma non_empty_string_accepts v :
  non_empty_string v = true -> Serverless.typeof_string v = true /\ truthy v = true.
Proof. destruct v; simpl; try discriminate. auto. Qed.

Lemma non_empty_string_rejects v :
  non_empty_string v = false ->
  negb (Serverless.typeof_string v) || negb (truthy v) = true.
Proof. destruct v; simpl; try reflexivity. intros ->. reflexivity. Qed.

(** Every request to the serverless function is answered: 405, 400, or
    the response of one path of a turn. *)
Lemma serverless_settles w req :
  exists t resp,
    Serverless.handler w req = (t, Ok resp) /\
    ((req_method req <> "POST" /\ t = [] /\ status resp = 405%Z) \/
     (req_method req = "POST" /\
      non_empty_string (field "message" (req_body req)) = false /\
      t = [] /\ status resp = 400%Z) \/
     (req_method req = "POST" /\
      non_empty_string (field "message" (req_body req)) = true /\
      outcome serverless w (field "message" (req_body req)) t resp)).
Proof.
  destruct (String.eqb_spec (req_method req) "POST") as [Hm|Hm].
  - destruct (non_empty_string (field "message" (req_body req))) eqn:Hn.
    + assert (Hacc : serverless_accepts req (field "message" (req_body req))).
      { destruct (non_empty_string_accepts _ Hn).
        repeat split; auto using field_or_object. }
      destruct (serverless_outcome w Hacc) as (t & resp & Hh & Ho).
      exists t, resp. split; [exact Hh|]. right. right. auto.
    + unfold Serverless.handler. rewrite Hm. simpl (negb _). cbv iota.
      unfold destructure. rewrite or_object_not_nullish, field_or_object, bind_lift.
      rewrite (non_empty_string_rejects _ Hn).
      do 2 eexists. split; [reflexivity|]. right. left. auto.
  - unfold Serverless.handler.
    destruct (req_method req =? "POST") eqn:E;
      [apply String.eqb_eq in E; contradiction|].
    do 2 eexists. split; [reflexivity|]. left. auto.
Qed.

(** Every request to the standalone route is answered: 400, or the
    response of one path of a turn. *)
Lemma standalone_settles w req :
  exists t resp,
    Standalone.chat w req = (t, Ok resp) /\
    ((truthy (field "message" (req_body req)) = false /\
      t = [] /\ status resp = 400%Z) \/
     (truthy (field "message" (req_body req)) = true /\
      outcome standalone w (field "message" (req_body req)) t resp)).
Proof.
  destruct (truthy (field "message" (req_body req))) eqn:Ht.
  - assert (Hacc : standalone_accepts req (field "message" (req_body req)))
      by (split; [apply opt_get_field | exact Ht]).
    destruct (standalone_outcome w Hacc) as (t & resp & Hh & Ho).
    exists t, resp. split; [exact Hh|]. right. auto.
  - rewrite (standalone_rejects_falsy_message w req Ht).
    do 2 eexists. split; [reflexivity|]. left. auto.
Qed.

Lemma outcome_status I w msg t resp :
  outcome I w msg t resp -> status resp = 200%Z \/ status resp = 500%Z.
Proof. intros H; inversion H; subst; simpl; auto. Qed.

(** X1: the serverless function answers every request, and never rejects:
    405 exactly when the method is not POST, 400 exactly when the method
    is POST and the body has no non-empty string [message], and 200 or
    500 otherwise; a request answered 405 or 400 has made no call. *)
Theorem serverless_always_responds (w : World) (req : request) :
  exists t resp,
    Serverless.handler w req = (t, Ok resp) /\
    (status resp = 405%Z <-> req_method req <> "POST") /\
    (status resp = 400%Z <->
     req_method req = "POST" /\
     non_empty_string (field "message" (req_body req)) = false) /\
    (status resp = 200%Z \/ status resp = 400%Z \/
     status resp = 405%Z \/ status resp = 500%Z) /\
    (status resp = 405%Z \/ status resp = 400%Z -> t = []).
Proof.
  destruct (serverless_settles w req)
    as (t & resp & Hh & [(Hm & Ht & Hs)|[(Hm & Hn & Ht & Hs)|(Hm & Hn & Ho)]]);
    exists t, resp; (split; [exact Hh|]).
  - rewrite Hs. split; [tauto|]. split; [|auto].
    split; [discriminate | intros [? _]; contradiction].
  - rewrite Hs. split; [|split; [tauto | auto]].
    split; [discriminate | intros ?; contradiction].
  - apply outcome_status in Ho.
    destruct Ho as [Hs|Hs]; rewrite Hs.
    + split; [split; [discriminate | intros ?; contradiction]|].
      split; [split; [discriminate | intros [_ ?]; congruence]|].
      split; [auto | intros [?|?]; discriminate].
    + split; [split; [discriminate | intros ?; contradiction]|].
      split; [split; [discriminate | intros [_ ?]; congruence]|].
      split; [auto | intros [?|?]; discriminate].
Qed.

(** X2: the standalone route answers every request, and never rejects:
    400 exactly when the body has no truthy [message], 200 or 500
    otherwise; a request answered 400 has made no call. *)
Theorem standalone_always_responds (w : World) (req : request) :
  exists t resp,
    Standalone.chat w req = (t, Ok resp) /\
    (status resp = 400%Z <-> truthy (field "message" (req_body req)) = false) /\
    (status resp = 200%Z \/ status resp = 400%Z \/ status resp = 500%Z) /\
    (status resp = 400%Z -> t = []).
Proof.
  destruct (standalone_settles w req)
    as (t & resp & Hh & [(Hn & Ht & Hs)|(Hn & Ho)]);
    exists t, resp; (split; [exact Hh|]).
  - rewrite Hs. split; [tauto | auto].
  - apply outcome_status in Ho.
    destruct Ho as [Hs|Hs]; rewrite Hs.
    + split; [split; [discriminate | intros ?; congruence]|].
      split; [auto | discriminate].
    + split; [split; [discriminate | intros ?; congruence]|].
      split; [auto | discriminate].
Qed.

(** *** Failures: what is logged and what is answered *)

Import Cases.

Lemma quiet_logs_nothing t :
  t = [] \/ (exists q, t = [CommerceCall q]) ->
  logged t = [] /\ model_requests t = [].
Proof. intros [->|[q ->]]; split; reflexivity. Qed.

Lemma outcome_logging I w msg t resp :
  quiet I -> outcome I w msg t resp ->
  (status resp = 500%Z /\
   exists e t', t = (t' ++ [ConsoleError e])%list /\ logged t' = [] /\
                resp = failure e) \/
  (status resp = 200%Z /\ logged t = []).
Proof.
  intros Q H. inversion H; subst.
  all: try match goal with
       | Hl : lookup _ _ _ = Ok ?fn, Hc : call ?fn _ = _ |- _ =>
           destruct (quiet_logs_nothing (Q _ _ _ _ _ _ Hl Hc)) as [Hlog _]
       end.
  - left. split; [reflexivity|]. exists e, [ModelCall (first_request I msg)]. auto.
  - right. split; reflexivity.
  - left. split; [reflexivity|]. exists e, [ModelCall (first_request I msg)]. auto.
  - left. split; [reflexivity|]. exists e, [ModelCall (first_request I msg)]. auto.
  - left. split; [reflexivity|].
    exists e, (ModelCall (first_request I msg) :: tt). auto.
  - left. split; [reflexivity|].
    exists e, (ModelCall (first_request I msg) :: tt ++
               [ModelCall (second_request I msg m (fc_name fc) data)])%list.
    repeat split.
    + simpl. rewrite <- app_assoc. reflexivity.
    + simpl. rewrite logged_app, Hlog. reflexivity.
  - right. split; [reflexivity|]. simpl. rewrite logged_app, Hlog. reflexivity.
Qed.

(** X3: in both implementations a response with status 500 is the
    [{error}] response of an error that was logged once, as the last
    event of the request, and its [error] is that error's message; a
    request answered otherwise has logged nothing. *)
Theorem failures_are_logged_and_reported (w : World) (req : request) :
  (exists t resp,
     Serverless.handler w req = (t, Ok resp) /\
     (status resp = 500%Z ->
      exists e t', t = (t' ++ [ConsoleError e])%list /\ logged t' = [] /\
                   body resp = VObj [("error", VStr (message_of e))]) /\
     (status resp <> 500%Z -> logged t = [])) /\
  (exists t resp,
     Standalone.chat w req = (t, Ok resp) /\
     (status resp = 500%Z ->
      exists e t', t = (t' ++ [ConsoleError e])%list /\ logged t' = [] /\
                   body resp = VObj [("error", VStr (message_of e))]) /\
     (status resp <> 500%Z -> logged t = [])).
Proof.
  split.
  - destruct (serverless_settles w req)
      as (t & resp & Hh & [(_ & Ht & Hs)|[(_ & _ & Ht & Hs)|(_ & _ & Ho)]]);
      exists t, resp; (split; [exact Hh|]);
      try (rewrite Hs, Ht; split; [discriminate | reflexivity]).
    destruct (outcome_logging serverless_quiet Ho)
      as [(Hs & e & t' & Ht & Hl & Hr)|(Hs & Hl)].
    + split; [|contradiction]. intros _. exists e, t'. rewrite Hr. auto.
    + rewrite Hs. split; [discriminate | auto].
  - destruct (standalone_settles w req)
      as (t & resp & Hh & [(_ & Ht & Hs)|(_ & Ho)]);
      exists t, resp; (split; [exact Hh|]);
      try (rewrite Hs, Ht; split; [discriminate | reflexivity]).
    destruct (outcome_logging standalone_quiet Ho)
      as [(Hs & e & t' & Ht & Hl & Hr)|(Hs & Hl)].
    + split; [|contradiction]. intros _. exists e, t'. rewrite Hr. auto.
    + rewrite Hs. split; [discriminate | auto].
Qed.

(** *** Failures of the model API *)

Lemma outcome_first_failure I w msg t resp e :
  outcome I w msg t resp -> completion w (first_request I msg) = Throw e ->
  t = [ModelCall (first_request I msg); ConsoleError e] /\ resp = failure e.
Proof.
  intros H Hc. inversion H; subst; try congruence.
  assert (e0 = e) by congruence. subst. auto.
Qed.

(** X4: when the first model call is rejected, or its completion has no
    choice, the turn ends there in both implementations: the response is
    500 with that error's message, and the first model call is the only
    call of the request. *)
Theorem first_model_failure_ends_turn (w : World) (req : request) (msg : value)
    (e : exn) :
  (serverless_accepts req msg ->
   completion w (Serverless.first_request msg) = Throw e ->
   Serverless.handler w req
   = ([ModelCall (Serverless.first_request msg); ConsoleError e], Ok (failure e))) /\
  (standalone_accepts req msg ->
   completion w (Standalone.first_request msg) = Throw e ->
   Standalone.chat w req
   = ([ModelCall (Standalone.first_request msg); ConsoleError e], Ok (failure e))).
Proof.
  split; intros Hacc Hc.
  - destruct (serverless_outcome w Hacc) as (t & resp & -> & Ho).
    destruct (outcome_first_failure Ho Hc) as [-> ->]. reflexivity.
  - destruct (standalone_outcome w Hacc) as (t & resp & -> & Ho).
    destruct (outcome_first_failure Ho Hc) as [-> ->]. reflexivity.
Qed.

Lemma first_model_failure_ends_turn_witness :
  Serverless.handler offline_shop (post hello)
  = ([ModelCall (Serverless.first_request hello);
      ConsoleError (APIError "Connection error.")],
     Ok (failure (APIError "Connection error."))) /\
  Standalone.chat offline_shop (post hello)
  = ([ModelCall (Standalone.first_request hello);
      ConsoleError (APIError "Connection error.")],
     Ok (failure (APIError "Connection error."))).
Proof.
  destruct (first_model_failure_ends_turn offline_shop (post hello) hello
              (APIError "Connection error.")) as [H1 H2].
  split.
  - apply H1; [apply post_accepted_serverless; discriminate | reflexivity].
  - apply H2; [apply post_accepted_standalone; reflexivity | reflexivity].
Defined.

Lemma outcome_second_failure I w msg t resp m fc args fn tt data e :
  outcome I w msg t resp ->
  completion w (first_request I msg) = Ok m ->
  function_call m = Some fc ->
  parse_arguments I w (fc_arguments fc) = Ok args ->
  lookup I w (fc_name fc) = Ok fn ->
  call fn args = (tt, Ok data) ->
  completion w (second_request I msg m (fc_name fc) data) = Throw e ->
  t = ModelCall (first_request I msg) :: tt ++
      [ModelCall (second_request I msg m (fc_name fc) data); ConsoleError e] /\
  resp = failure e.
Proof.
  intros H Hm Hf Hp Hl Hc Hs. inversion H; subst; try congruence.
  all: assert (m0 = m) by congruence; subst m0.
  all: assert (fc0 = fc) by congruence; subst fc0.
  all: assert (args0 = args) by congruence; subst args0.
  all: assert (fn0 = fn) by congruence; subst fn0.
  all: try congruence.
  all: assert (tt0 = tt /\ data0 = data) as [-> ->]
         by (split; congruence).
  all: try congruence.
  assert (e0 = e) by congruence. subst. auto.
Qed.

Lemma call_defined fn args t d : call fn args = (t, Ok d) -> Standalone.not_ fn = false.
Proof. destruct fn; simpl; try discriminate; reflexivity. Qed.

(** X5: when the tool has returned and the second model call fails, the
    tool's result is dropped in both implementations: the response is 500
    with the model error's message and has neither [reply] nor [data],
    although the commerce call was made. *)
Theorem second_model_failure_drops_result (w : World) (req : request)
    (msg : value) (m : assistant_message) (fc : FunctionCall)
    (args data : value) (tt : list event) (e : exn) :
  function_call m = Some fc ->
  (serverless_accepts req msg ->
   completion w (Serverless.first_request msg) = Ok m ->
   parse_arguments serverless w (fc_arguments fc) = Ok args ->
   call (Serverless.functionMap w (fc_name fc)) args = (tt, Ok data) ->
   completion w (Serverless.second_request msg m (fc_name fc) data) = Throw e ->
   exists resp,
     Serverless.handler w req
     = (ModelCall (Serverless.first_request msg) :: tt ++
        [ModelCall (Serverless.second_request msg m (fc_name fc) data);
         ConsoleError e], Ok resp) /\
     status resp = 500%Z /\ body resp = VObj [("error", VStr (message_of e))]) /\
  (standalone_accepts req msg ->
   completion w (Standalone.first_request msg) = Ok m ->
   parse_arguments standalone w (fc_arguments fc) = Ok args ->
   call (Standalone.functionMap w (fc_name fc)) args = (tt, Ok data) ->
   completion w (Standalone.second_request msg m (fc_name fc) data) = Throw e ->
   exists resp,
     Standalone.chat w req
     = (ModelCall (Standalone.first_request msg) :: tt ++
        [ModelCall (Standalone.second_request msg m (fc_name fc) data);
         ConsoleError e], Ok resp) /\
     status resp = 500%Z /\ body resp = VObj [("error", VStr (message_of e))]).
Proof.
  intros Hf. split; intros Hacc Hm Hp Hc Hs.
  - destruct (serverless_outcome w Hacc) as (t & resp & -> & Ho).
    destruct (@outcome_second_failure serverless w msg t resp m fc args
                (Serverless.functionMap w (fc_name fc)) tt data e
                Ho Hm Hf Hp eq_refl Hc Hs) as [-> ->].
    eexists. split; [reflexivity|]. split; reflexivity.
  - destruct (standalone_outcome w Hacc) as (t & resp & -> & Ho).
    assert (Hl : lookup standalone w (fc_name fc)
                 = Ok (Standalone.functionMap w (fc_name fc)))
      by (simpl; rewrite (call_defined _ _ Hc); reflexivity).
    destruct (@outcome_second_failure standalone w msg t resp m fc args
                (Standalone.functionMap w (fc_name fc)) tt data e
                Ho Hm Hf Hp Hl Hc Hs) as [-> ->].
    eexists. split; [reflexivity|]. split; reflexivity.
Qed.

Lemma second_model_failure_drops_result_witness :
  exists t resp,
    Serverless.handler dropping_shop (post hello) = (t, Ok resp) /\
    status resp = 500%Z /\
    body resp = VObj [("error", VStr "Connection error.")] /\
    commerce_calls t = 1.
Proof.
  destruct (call (Serverless.functionMap dropping_shop "get_products") (VObj []))
    as [tt [data|e]] eqn:Hc; [|vm_compute in Hc; discriminate].
  destruct (@second_model_failure_drops_result dropping_shop (post hello) hello
              (invokes "get_products" "{}")
              {| fc_name := "get_products"; fc_arguments := "{}" |}
              (VObj []) data tt (APIError "Connection error.") eq_refl)
    as [H _].
  destruct H as (resp & Hh & Hs & Hb).
  - apply post_accepted_serverless. discriminate.
  - reflexivity.
  - reflexivity.
  - exact Hc.
  - reflexivity.
  - exists (ModelCall (Serverless.first_request hello) :: tt ++
            [ModelCall (Serverless.second_request hello
                          (invokes "get_products" "{}") "get_products" data);
             ConsoleError (APIError "Connection error.")])%list, resp.
    repeat split; auto.
    vm_compute in Hc. inversion Hc; subst. reflexivity.
Defined.

(** *** Names with no property on [functionMap] *)

Lemma outside_catalog_and_prototype w name :
  known name = false -> Object_prototype name = Undefined ->
  Serverless.functionMap w name = Undefined /\
  Standalone.functionMap w name = Undefined.
Proof.
  rewrite known_cases. intros Hk Hp.
  apply orb_false_iff in Hk. destruct Hk as [Hk H3].
  apply orb_false_iff in Hk. destruct Hk as [H1 H2].
  unfold Serverless.functionMap, Standalone.functionMap.
  rewrite H1, H2, H3. auto.
Qed.

(** X6: a function name that is neither in the catalog nor a member of
    [Object.prototype] fails the turn once the arguments have parsed: the
    standalone server answers 500 with [Function <name> is not
    implemented.], the serverless function answers 500 with the engine's
    [fn is not a function]; in both the first model call is the only call
    of the request. *)
Theorem missing_function_fails_turn (w : World) (req : request) (msg : value)
    (fc : FunctionCall) (args : value) :
  known (fc_name fc) = false ->
  Object_prototype (fc_name fc) = Undefined ->
  (serverless_accepts req msg -> nominates serverless w msg fc ->
   parse_arguments serverless w (fc_arguments fc) = Ok args ->
   let e := TypeError "fn is not a function" in
   Serverless.handler w req
   = ([ModelCall (Serverless.first_request msg); ConsoleError e], Ok (failure e))) /\
  (standalone_accepts req msg -> nominates standalone w msg fc ->
   parse w (fc_arguments fc) = Ok args ->
   let e := Error ("Function " ++ fc_name fc ++ " is not implemented.") in
   Standalone.chat w req
   = ([ModelCall (Standalone.first_request msg); ConsoleError e], Ok (failure e))).
Proof.
  intros Hk Hp.
  destruct (outside_catalog_and_prototype w _ Hk Hp) as [Hs Ht].
  split.
  - intros Hacc (m & Hm & Hf) Hparse e.
    destruct (completion_inv _ _ Hm) as [ms Hc]. simpl in Hc.
    rewrite (serverless_handler_accepted w Hacc).
    unfold Serverless.runAssistant, await_create. rewrite Hc. cbn. rewrite Hf. cbn.
    cbn in Hparse. rewrite Hparse. cbn. rewrite Hs. reflexivity.
  - intros Hacc Hn Hparse.
    exact (@standalone_missing_function w req msg fc args Hacc Hn Hparse Ht).
Qed.

Lemma missing_function_fails_turn_witness :
  (let e := TypeError "fn is not a function" in
   Serverless.handler inventory_shop (post hello)
   = ([ModelCall (Serverless.first_request hello); ConsoleError e], Ok (failure e))) /\
  (let e := Error "Function get_inventory is not implemented." in
   Standalone.chat inventory_shop (post hello)
   = ([ModelCall (Standalone.first_request hello); ConsoleError e], Ok (failure e))).
Proof.
  assert (Hn1 : nominates serverless inventory_shop hello inventory)
    by (eexists; split; reflexivity).
  assert (Hn2 : nominates standalone inventory_shop hello inventory)
    by (eexists; split; reflexivity).
  destruct (@missing_function_fails_turn inventory_shop (post hello) hello
              inventory (VObj []) eq_refl eq_refl) as [H1 H2].
  split.
  - apply H1; auto. apply post_accepted_serverless. discriminate.
  - apply H2; auto. apply post_accepted_standalone. reflexivity.
Defined.

(** *** What the product tools take over from the answer *)

Lemma get_path3_inv v a b c x :
  get_path v [a; b; c] = Ok x -> x = field c (field b (field a v)).
Proof.
  unfold get_path. simpl.
  destruct (get v a) as [y|e] eqn:Ha; simpl; [|discriminate].
  destruct (get y b) as [z|e] eqn:Hb; simpl; [|discriminate].
  intros Hc. apply get_inv in Ha. apply get_inv in Hb. apply get_inv in Hc.
  destruct Ha as [_ ->]. destruct Hb as [_ ->]. tauto.
Qed.

Lemma or_null_defined v : or_ v VNull <> VUndef.
Proof.
  unfold or_. destruct (truthy v) eqn:H; [|discriminate].
  destruct v; discriminate.
Qed.

Ltac read_fields :=
  repeat match goal with
         | E : destructure _ _ = Ok _ |- _ =>
             apply destructure_inv in E; destruct E as [_ ->]
         | E : get_path _ [_; _; _] = Ok _ |- _ => apply get_path3_inv in E; subst
         | E : get_path _ [_; _] = Ok _ |- _ => apply get_path2_inv in E; subst
         | E : get _ _ = Ok _ |- _ => apply get_inv in E; destruct E as [_ ->]
         end.

Lemma serverless_product_of e a :
  Serverless.product_record e = Ok a -> product_of e a.
Proof.
  unfold Serverless.product_record. intros H. lets H. inversion H; subst.
  read_fields. unfold product_of, min_price. cbn.
  repeat split; auto using or_null_defined.
Qed.

Lemma standalone_product_of e b :
  Standalone.product_record e = Ok b -> product_of e b.
Proof.
  unfold Standalone.product_record. intros H. lets H. inversion H; subst.
  read_fields. unfold product_of, min_price. cbn.
  repeat split; auto using or_null_defined.
Qed.

Lemma assoc_cons k k' v r :
  assoc k ((k', v) :: r) = if k' =? k then Some v else assoc k r.
Proof. reflexivity. Qed.

(** Compares two records with literal keys under the key [k]. *)
Ltac by_key k :=
  unfold field; rewrite ?assoc_cons;
  repeat match goal with
         | |- context [?s =? k] =>
             destruct (String.eqb_spec s k); [subst k; reflexivity|]
         end;
  reflexivity.

Lemma product_records_same_fields e a b :
  Serverless.product_record e = Ok a -> Standalone.product_record e = Ok b ->
  same_fields a b.
Proof.
  unfold Serverless.product_record, Standalone.product_record. intros Ha.
  lets Ha. inversion Ha; subst. clear Ha.
  simpl. repeat match goal with E : _ = Ok _ |- _ => rewrite E; simpl end.
  intros Hb. inversion Hb; subst. intros k. by_key k.
Qed.

Lemma Forall2_through {A B C} (R1 : A -> B -> Prop) (R2 : A -> C -> Prop)
    (R : B -> C -> Prop) (l : list A) (l1 : list B) (l2 : list C) :
  (forall x a b, R1 x a -> R2 x b -> R a b) ->
  Forall2 R1 l l1 -> Forall2 R2 l l2 -> Forall2 R l1 l2.
Proof.
  intros HR H1. revert l2. induction H1 as [|x a l l1 Hxa H1 IH]; intros l2 H2;
    inversion H2; subst; constructor; eauto.
Qed.

Lemma serverless_findProduct_edges w p t d :
  Serverless.findProduct w p = (t, Ok d) ->
  exists r status json edges l,
    fetch w r = FetchResolved status (Parsed json) /\
    or_ (product_edges json) (VArr []) = VArr edges /\
    d = VArr l /\
    Forall2 (fun x y => Serverless.product_record x = Ok y) edges l.
Proof.
  unfold Serverless.findProduct. intros H. steps H.
  match goal with Hc : Serverless.callShopify _ _ _ = _ |- _ =>
    apply serverless_callShopify_ok in Hc; destruct Hc as (st & json & Hf & _ & _ & ->) end.
  repeat match goal with
         | E : rbind _ _ = Ok _ |- _ => lets E; inversion E; subst; clear E
         | E : opt_get _ _ = Ok _ |- _ => apply opt_get_inv in E; subst
         end.
  match goal with Hm : array_map _ _ = Ok _ |- _ =>
    apply array_map_inv in Hm; destruct Hm as (l & l' & Hl & -> & HF) end.
  match type of Hf with
  | fetch _ ?r = FetchResolved _ (Parsed ?j) => exists r, st, j, l, l'
  end.
  auto.
Qed.

Lemma standalone_findProduct_edges w p t d :
  Standalone.findProduct w p = (t, Ok d) ->
  exists r status json edges l,
    fetch w r = FetchResolved status (Parsed json) /\
    or_ (product_edges json) (VArr []) = VArr edges /\
    d = VObj [("products", VArr l)] /\
    Forall2 (fun x y => Standalone.product_record x = Ok y) edges l.
Proof.
  unfold Standalone.findProduct. intros H. steps H.
  match goal with Hc : Standalone.callShopify _ _ _ = _ |- _ =>
    apply standalone_callShopify_ok in Hc; destruct Hc as (_ & st & Hf & _ & _) end.
  repeat match goal with
         | E : rbind _ _ = Ok _ |- _ => lets E; inversion E; subst; clear E
         | E : opt_get _ _ = Ok _ |- _ => apply opt_get_inv in E; subst
         end.
  match goal with Hm : array_map _ _ = Ok _ |- _ =>
    apply array_map_inv in Hm; destruct Hm as (l & l' & Hl & -> & HF) end.
  subst.
  match type of Hf with
  | fetch _ ?r = FetchResolved _ (Parsed ?j) => exists r, st, j, l, l'
  end.
  auto.
Qed.

(** X7: when the platform gives both implementations of [find_product]
    the same answer and both return, they return one product per edge of
    the answer, in its order; each product has the [id], [title] and
    [description] of its node and its [minVariantPrice] amount and
    currency code unchanged, and an [image] that is never undefined; and
    the two products at the same position have the same value under
    every key (the records differ in the order of their keys only). *)
Theorem find_product_variants_agree (w : World) (p : value) (res : fetch_result)
    (t1 t2 : list event) (r1 r2 : value) :
  (forall r, fetch w r = res) ->
  Serverless.findProduct w p = (t1, Ok r1) ->
  Standalone.findProduct w p = (t2, Ok r2) ->
  exists status json edges l1 l2,
    res = FetchResolved status (Parsed json) /\
    or_ (product_edges json) (VArr []) = VArr edges /\
    r1 = VArr l1 /\ r2 = VObj [("products", VArr l2)] /\
    Forall2 product_of edges l1 /\ Forall2 product_of edges l2 /\
    Forall2 same_fields l1 l2.
Proof.
  intros Hres H1 H2.
  apply serverless_findProduct_edges in H1.
  destruct H1 as (q1 & s1 & j1 & e1 & l1 & Hf1 & He1 & -> & F1).
  apply standalone_findProduct_edges in H2.
  destruct H2 as (q2 & s2 & j2 & e2 & l2 & Hf2 & He2 & -> & F2).
  rewrite Hres in Hf1. rewrite Hres in Hf2. rewrite Hf1 in Hf2.
  inversion Hf2 as [[Hs Hj]]. rewrite <- Hj in He2. rewrite He1 in He2.
  inversion He2 as [He]. rewrite <- He in F2.
  exists s1, j1, e1, l1, l2. repeat split; auto.
  - eapply Forall2_impl; [|exact F1]. apply serverless_product_of.
  - eapply Forall2_impl; [|exact F2]. apply standalone_product_of.
  - eapply Forall2_through; [|exact F1|exact F2].
    intros x a b. apply product_records_same_fields.
Qed.

Lemma find_product_variants_agree_witness :
  exists l1 l2,
    snd (Serverless.findProduct six_products_shop coffee) = Ok (VArr l1) /\
    snd (Standalone.findProduct six_products_shop coffee)
    = Ok (VObj [("products", VArr l2)]) /\
    Forall2 same_fields l1 l2.
Proof.
  destruct (Serverless.findProduct six_products_shop coffee) as [t1 [r1|e1]] eqn:E1;
    [|vm_compute in E1; discriminate].
  destruct (Standalone.findProduct six_products_shop coffee) as [t2 [r2|e2]] eqn:E2;
    [|vm_compute in E2; discriminate].
  destruct (@find_product_variants_agree six_products_shop coffee
              (FetchResolved 200 (Parsed six_products)) t1 t2 r1 r2
              (fun _ => eq_refl) E1 E2)
    as (st & json & edges & l1 & l2 & _ & _ & -> & -> & _ & _ & Hs).
  exists l1, l2. auto.
Defined.

(** *** The orders of the first customer *)

Lemma standalone_getCustomerOrders_edges w status json p t d l :
  (forall r, fetch w r = FetchResolved status (Parsed json)) ->
  customer_edges json = VArr l ->
  Standalone.getCustomerOrders w p = (t, Ok d) ->
  exists customers,
    d = VObj [("customers", VArr customers)] /\
    Forall2 (fun x y => Standalone.customer_record x = Ok y) l customers.
Proof.
  intros Hfetch He H. unfold Standalone.getCustomerOrders in H. steps H.
  match goal with Hc : Standalone.callShopify _ _ _ = _ |- _ =>
    apply standalone_callShopify_ok in Hc; destruct Hc as (_ & st & Hf & _ & _) end.
  rewrite Hfetch in Hf. inversion Hf; subst.
  match goal with E : rbind _ _ = Ok _ |- _ => lets E; inversion E; subst; clear E end.
  repeat match goal with
         | E : opt_get _ _ = Ok _ |- _ => apply opt_get_inv in E; subst
         end.
  unfold customer_edges in He.
  match goal with E : opt_array_map _ _ = Ok _ |- _ =>
    rewrite He in E;
    change (opt_array_map Standalone.customer_record (VArr l))
      with (array_map Standalone.customer_record (VArr l)) in E;
    apply array_map_inv in E; destruct E as (l0 & l' & Hl & -> & HF) end.
  inversion Hl; subst. exists l'. split; [reflexivity | exact HF].
Qed.

Lemma customer_record_orders edge c :
  Standalone.customer_record edge = Ok c ->
  let node := field "node" edge in
  truthy node = true /\
  field "id" c = field "id" node /\
  field "email" c = field "email" node /\
  exists edges,
    get_path node ["orders"; "edges"] = Ok edges /\
    array_map order_record edges = Ok (field "orders" c).
Proof.
  unfold Standalone.customer_record. intros H. lets H. inversion H; subst.
  cbn -[get_path array_map].
  match goal with
  | E : get_path _ ["orders"; "edges"] = Ok _, A : array_map order_record _ = Ok _ |- _ =>
      pose proof E as Hpath; pose proof A as Hmap
  end.
  repeat match goal with
         | E : destructure _ _ = Ok _ |- _ =>
             apply destructure_inv in E; destruct E as [_ E]; subst
         end.
  repeat split.
  - unfold get_path in Hpath. simpl in Hpath.
    destruct (get (field "node" edge) "orders") as [o|] eqn:Ho; simpl in Hpath;
      [|discriminate].
    apply get_inv in Ho. destruct Ho as [_ ->]. apply get_inv in Hpath.
    destruct Hpath as [Hn _].
    destruct (field "node" edge); try discriminate; reflexivity.
  - match goal with E : get _ "id" = Ok _ |- _ =>
      apply get_inv in E; destruct E as [_ ->] end. reflexivity.
  - match goal with E : get _ "email" = Ok _ |- _ =>
      apply get_inv in E; destruct E as [_ ->] end. reflexivity.
  - eauto.
Qed.

(** X8: when the platform gives both implementations of
    [get_customer_orders] the same answer with at least one customer edge
    and both return, the list the serverless function returns is exactly
    the [orders] of the first customer record of the standalone server,
    whose [id] and [email] are those of the first edge's node. *)
Theorem orders_variants_agree (w : World) (p : value) (status : Z) (json : value)
    (edge : value) (rest : list value) (t1 t2 : list event) (r1 r2 : value) :
  (forall r, fetch w r = FetchResolved status (Parsed json)) ->
  customer_edges json = VArr (edge :: rest) ->
  Serverless.getCustomerOrders w p = (t1, Ok r1) ->
  Standalone.getCustomerOrders w p = (t2, Ok r2) ->
  exists c cs,
    r2 = VObj [("customers", VArr (c :: cs))] /\
    field "orders" c = r1 /\
    field "id" c = field "id" (field "node" edge) /\
    field "email" c = field "email" (field "node" edge) /\
    length cs = length rest.
Proof.
  intros Hfetch He H1 H2.
  destruct (@standalone_getCustomerOrders_edges w status json p t2 r2 _ Hfetch He H2)
    as (cs0 & -> & HF).
  inversion HF as [|x c l cs Hc HF' E1 E2]; subst.
  exists c, cs.
  destruct (@customer_record_orders edge c Hc) as (Ht & Hid & Hemail & es & Hpath & Hmap).
  pose proof (@serverless_orders_of_first w status json p edge rest Hfetch He) as Hs.
  rewrite H1 in Hs. simpl in Hs. unfold orders_of_first in Hs.
  destruct (destructure p "email"); simpl in Hs; [|discriminate].
  destruct (truthy (field "errors" json)); [discriminate|].
  rewrite Ht in Hs. simpl negb in Hs. cbv iota in Hs.
  rewrite Hpath in Hs. simpl rbind in Hs. rewrite Hmap in Hs. inversion Hs; subst.
  repeat split; auto. symmetry. eapply Forall2_same_length; eauto.
Qed.

Lemma orders_variants_agree_witness :
  exists orders c cs,
    snd (Serverless.getCustomerOrders two_customers_shop doe) = Ok orders /\
    snd (Standalone.getCustomerOrders two_customers_shop doe)
    = Ok (VObj [("customers", VArr (c :: cs))]) /\
    field "orders" c = orders.
Proof.
  destruct (Serverless.getCustomerOrders two_customers_shop doe)
    as [t1 [r1|e1]] eqn:E1; [|vm_compute in E1; discriminate].
  destruct (Standalone.getCustomerOrders two_customers_shop doe)
    as [t2 [r2|e2]] eqn:E2; [|vm_compute in E2; discriminate].
  destruct (@orders_variants_agree two_customers_shop doe 200%Z two_customers
              (customer_edge "gid://shopify/Customer/1" "Ann"
                 [order_edge "gid://shopify/Order/1"])
              [customer_edge "gid://shopify/Customer/2" "Bob"
                 [order_edge "gid://shopify/Order/2"]]
              t1 t2 r1 r2 (fun _ => eq_refl) eq_refl E1 E2)
    as (c & cs & -> & Ho & _).
  exists r1, c, cs. auto.
Defined.

(** *** Answers without the data asked for *)

Lemma or_nullish_empty v : nullish v = true -> or_ v (VArr []) = VArr [].
Proof. destruct v; simpl; try discriminate; reflexivity. Qed.

Lemma opt_array_map_nullish f v :
  nullish v = true -> opt_array_map f v = Ok VUndef.
Proof. unfold opt_array_map. intros ->. reflexivity. Qed.

Lemma opt_first_nullish v : nullish v = true -> opt_first v = Ok VUndef.
Proof. unfold opt_first. intros ->. reflexivity. Qed.

(** X9: on an answer whose body is not [null], has no truthy [errors],
    and does not hold the list asked for ([data], the [products] or
    [customers] in it, or their [edges] is absent or [null]), the tools
    return their empty result instead of failing: [[]] in the serverless
    function, [{products: []}] or [{customers: []}] in the standalone
    server with its credentials set; [get_products] always,
    [find_product] and [get_customer_orders] on every argument record
    that is not [null] or [undefined]. *)
Theorem absent_data_gives_empty_result (w : World) (status : Z) (json : value) :
  (forall r, fetch w r = FetchResolved status (Parsed json)) ->
  nullish json = false ->
  truthy (field "errors" json) = false ->
  (nullish (product_edges json) = true ->
   snd (Serverless.getProducts w) = Ok (VArr []) /\
   (forall args, nullish args = false ->
      snd (Serverless.findProduct w args) = Ok (VArr [])) /\
   (configured w = true ->
    snd (Standalone.getProducts w) = Ok (VObj [("products", VArr [])]) /\
    (forall args, nullish args = false ->
       snd (Standalone.findProduct w args) = Ok (VObj [("products", VArr [])])))) /\
  (nullish (customer_edges json) = true ->
   forall args, nullish args = false ->
     snd (Serverless.getCustomerOrders w args) = Ok (VArr []) /\
     (configured w = true ->
      snd (Standalone.getCustomerOrders w args) = Ok (VObj [("customers", VArr [])]))).
Proof.
  intros Hfetch Hn Herr.
  assert (S : forall q v,
             Serverless.callShopify w q v
             = ([CommerceCall (graphql_request w q (default v (VObj [])))],
                Ok (field "data" json))).
  { intros q v. destruct (serverless_callShopify_run w q v) as (_ & _ & _ & Hok).
    apply (Hok status json (Hfetch _) Hn Herr). }
  assert (T : configured w = true -> forall q v,
             Standalone.callShopify w q v
             = ([CommerceCall (graphql_request w q (default v (VObj [])))], Ok json)).
  { intros Hc q v.
    destruct (standalone_callShopify_run w q v Hc) as (_ & _ & _ & Hok).
    apply (Hok status json (Hfetch _) Hn Herr). }
  split; intros He.
  - unfold product_edges in He.
    split; [|split; [|intros Hc; split]].
    + unfold Serverless.getProducts. rewrite S. cbn.
      repeat (rewrite opt_get_field; cbn). rewrite (or_nullish_empty _ He). reflexivity.
    + intros args Ha.
      unfold Serverless.findProduct, destructure. rewrite Ha, bind_lift, S. cbn.
      repeat (rewrite opt_get_field; cbn). rewrite (or_nullish_empty _ He). reflexivity.
    + unfold Standalone.getProducts. rewrite (T Hc). cbn.
      repeat (rewrite opt_get_field; cbn).
      rewrite (opt_array_map_nullish _ _ He). reflexivity.
    + intros args Ha.
      unfold Standalone.findProduct, destructure. rewrite Ha, bind_lift, (T Hc). cbn.
      repeat (rewrite opt_get_field; cbn). rewrite (or_nullish_empty _ He). reflexivity.
  - unfold customer_edges in He. intros args Ha. split; [|intros Hc].
    + unfold Serverless.getCustomerOrders, destructure. rewrite Ha, bind_lift, S. cbn.
      repeat (rewrite opt_get_field; cbn). rewrite (opt_first_nullish _ He). reflexivity.
    + unfold Standalone.getCustomerOrders, destructure.
      rewrite Ha, bind_lift, (T Hc). cbn.
      repeat (rewrite opt_get_field; cbn).
      rewrite (opt_array_map_nullish _ _ He). reflexivity.
Qed.

Lemma absent_data_gives_empty_result_witness :
  snd (Serverless.findProduct gateway_shop coffee) = Ok (VArr []) /\
  snd (Standalone.findProduct gateway_shop coffee) = Ok (VObj [("products", VArr [])]) /\
  snd (Serverless.getCustomerOrders gateway_shop doe) = Ok (VArr []) /\
  snd (Standalone.getCustomerOrders gateway_shop doe)
  = Ok (VObj [("customers", VArr [])]).
Proof.
  destruct (@absent_data_gives_empty_result gateway_shop 502%Z bad_gateway
              (fun _ => eq_refl) eq_refl eq_refl) as [Hp Hc].
  destruct (Hp eq_refl) as (_ & H1 & H2). destruct (H2 eq_refl) as [_ H3].
  destruct (Hc eq_refl doe eq_refl) as (H4 & H5).
  repeat split; auto.
Defined.

(** *** Answers with a malformed edge *)

Lemma rbind_only {A B} (r : result A) (k : A -> result B) :
  only_type_errors r -> (forall a, only_type_errors (k a)) ->
  only_type_errors (rbind r k).
Proof. destruct r; simpl; auto. Qed.

Lemma get_only v k : only_type_errors (get v k).
Proof. unfold get, cannot_read. destruct (nullish v); simpl; eauto. Qed.

Lemma destructure_only v k : only_type_errors (destructure v k).
Proof. unfold destructure. destruct (nullish v); simpl; eauto. Qed.

Lemma opt_get_only v k : only_type_errors (opt_get v k).
Proof. rewrite opt_get_field. exact I. Qed.

Lemma first_only v : only_type_errors (first v).
Proof.
  destruct v as [| |b|z|s|l|fs]; simpl; unfold cannot_read; eauto.
  destruct s; simpl; auto.
Qed.

Lemma get_path_only v ks : only_type_errors (get_path v ks).
Proof.
  unfold get_path.
  assert (H : only_type_errors (Ok v : result value)) by exact I.
  revert H. generalize (Ok v : result value).
  induction ks as [|k ks IH]; simpl; intros r Hr; [exact Hr|].
  apply IH. apply rbind_only; [exact Hr | intros a; apply get_only].
Qed.

Lemma mapM_only {A B} (f : A -> result B) l :
  (forall x, only_type_errors (f x)) -> only_type_errors (mapM f l).
Proof.
  intros Hf. induction l as [|x l IH]; simpl; [exact I|].
  apply rbind_only; [apply Hf | intros y].
  apply rbind_only; [exact IH | intros ys; exact I].
Qed.

Lemma array_map_only f v :
  (forall x, only_type_errors (f x)) -> only_type_errors (array_map f v).
Proof.
  intros Hf. destruct v; simpl; unfold cannot_read; eauto.
  apply rbind_only; [apply mapM_only; exact Hf | intros; exact I].
Qed.

Ltac only_steps :=
  repeat (apply rbind_only;
          [first [apply get_only | apply destructure_only | apply opt_get_only
                 | apply first_only | apply get_path_only]
          | intros ?]);
  try exact I.

Lemma serverless_product_record_only e : only_type_errors (Serverless.product_record e).
Proof. unfold Serverless.product_record. only_steps. Qed.

Lemma standalone_product_record_only e : only_type_errors (Standalone.product_record e).
Proof. unfold Standalone.product_record. only_steps. Qed.

Lemma serverless_listed_product_only e : only_type_errors (Serverless.listed_product e).
Proof. unfold Serverless.listed_product. only_steps. Qed.

Lemma standalone_listed_product_only e : only_type_errors (Standalone.listed_product e).
Proof. unfold Standalone.listed_product. only_steps. Qed.

(** A list with an element on which the callback throws fails as a whole. *)
Lemma mapM_throws {A B} (f : A -> result B) l e :
  (forall x, only_type_errors (f x)) ->
  In e l -> (exists err, f e = Throw err) ->
  exists m, mapM f l = Throw (TypeError m).
Proof.
  intros Hf Hin [err He].
  induction l as [|x l IH]; [contradiction|]. simpl.
  pose proof (Hf x) as Hx. destruct (f x) as [y|ex] eqn:Ex; simpl.
  - destruct Hin as [->|Hin]; [congruence|].
    destruct (IH Hin) as [m ->]. simpl. eauto.
  - destruct Hx as [m ->]. eauto.
Qed.

(** An edge without a node makes the callbacks that read [node.id] throw. *)
Lemma nodeless_edge_throws (f : value -> result value) e :
  (forall x, f x = let? node := destructure x "node" in
                   let? id := get node "id" in f x) ->
  nullish (field "node" e) = true -> exists err, f e = Throw err.
Proof.
  intros Hf Hn. rewrite Hf. unfold destructure.
  destruct (nullish e); simpl; [eauto|].
  unfold get. rewrite Hn. simpl. eauto.
Qed.

Lemma reads_node_id_first :
  (forall x, Serverless.product_record x
             = let? node := destructure x "node" in
               let? id := get node "id" in Serverless.product_record x) /\
  (forall x, Standalone.product_record x
             = let? node := destructure x "node" in
               let? id := get node "id" in Standalone.product_record x) /\
  (forall x, Serverless.listed_product x
             = let? node := destructure x "node" in
               let? id := get node "id" in Serverless.listed_product x) /\
  (forall x, Standalone.listed_product x
             = let? node := destructure x "node" in
               let? id := get node "id" in Standalone.listed_product x).
Proof.
  repeat split; intros x;
    unfold Serverless.product_record, Standalone.product_record,
      Serverless.listed_product, Standalone.listed_product;
    destruct (destructure x "node") as [node|]; simpl; try reflexivity;
    destruct (get node "id"); reflexivity.
Qed.

(** X10: the product tools return all of the answer or nothing.  When
    the product edges of the answer hold an edge that is [null] or has no
    [node], [find_product] and [get_products] fail in both
    implementations, with a [TypeError], whatever the other edges are. *)
Theorem malformed_edge_fails_product_tools (w : World) (status : Z)
    (json args : value) (l : list value) (e : value) :
  (forall r, fetch w r = FetchResolved status (Parsed json)) ->
  truthy (field "errors" json) = false ->
  nullish args = false ->
  product_edges json = VArr l ->
  In e l -> nullish (field "node" e) = true ->
  (exists m, snd (Serverless.findProduct w args) = Throw (TypeError m)) /\
  (exists m, snd (Serverless.getProducts w) = Throw (TypeError m)) /\
  (configured w = true ->
   (exists m, snd (Standalone.findProduct w args) = Throw (TypeError m)) /\
   (exists m, snd (Standalone.getProducts w) = Throw (TypeError m))).
Proof.
  intros Hfetch Herr Ha He Hin Hnode.
  assert (Hn : nullish json = false)
    by (unfold product_edges in He; eapply edges_body_not_nullish; eauto).
  assert (S : forall q v,
             Serverless.callShopify w q v
             = ([CommerceCall (graphql_request w q (default v (VObj [])))],
                Ok (field "data" json))).
  { intros q v. destruct (serverless_callShopify_run w q v) as (_ & _ & _ & Hok).
    apply (Hok status json (Hfetch _) Hn Herr). }
  assert (T : configured w = true -> forall q v,
             Standalone.callShopify w q v
             = ([CommerceCall (graphql_request w q (default v (VObj [])))], Ok json)).
  { intros Hc q v.
    destruct (standalone_callShopify_run w q v Hc) as (_ & _ & _ & Hok).
    apply (Hok status json (Hfetch _) Hn Herr). }
  destruct reads_node_id_first as (R1 & R2 & R3 & R4).
  unfold product_edges in He.
  split; [|split; [|intros Hc; split]].
  - destruct (@mapM_throws _ _ Serverless.product_record l e
                serverless_product_record_only Hin
                (@nodeless_edge_throws Serverless.product_record e R1 Hnode)) as [m Hm].
    exists m. unfold Serverless.findProduct, destructure. rewrite Ha, bind_lift, S. cbn.
    repeat (rewrite opt_get_field; cbn). rewrite He. cbn. rewrite Hm. reflexivity.
  - destruct (@mapM_throws _ _ Serverless.listed_product l e
                serverless_listed_product_only Hin
                (@nodeless_edge_throws Serverless.listed_product e R3 Hnode)) as [m Hm].
    exists m. unfold Serverless.getProducts. rewrite S. cbn.
    repeat (rewrite opt_get_field; cbn). rewrite He. cbn. rewrite Hm. reflexivity.
  - destruct (@mapM_throws _ _ Standalone.product_record l e
                standalone_product_record_only Hin
                (@nodeless_edge_throws Standalone.product_record e R2 Hnode)) as [m Hm].
    exists m. unfold Standalone.findProduct, destructure.
    rewrite Ha, bind_lift, (T Hc). cbn.
    repeat (rewrite opt_get_field; cbn). rewrite He. cbn. rewrite Hm. reflexivity.
  - destruct (@mapM_throws _ _ Standalone.listed_product l e
                standalone_listed_product_only Hin
                (@nodeless_edge_throws Standalone.listed_product e R4 Hnode)) as [m Hm].
    exists m. unfold Standalone.getProducts. rewrite (T Hc). cbn.
    repeat (rewrite opt_get_field; cbn). rewrite He. cbn. rewrite Hm. reflexivity.
Qed.

Lemma malformed_edge_fails_product_tools_witness :
  (exists m, snd (Serverless.findProduct torn_shop coffee) = Throw (TypeError m)) /\
  (exists m, snd (Serverless.getProducts torn_shop) = Throw (TypeError m)) /\
  (configured torn_shop = true ->
   (exists m, snd (Standalone.findProduct torn_shop coffee) = Throw (TypeError m)) /\
   (exists m, snd (Standalone.getProducts torn_shop) = Throw (TypeError m))).
Proof.
  apply (@malformed_edge_fails_product_tools torn_shop 200%Z (products torn) coffee
           torn (VObj [])).
  - intros r. reflexivity.
  - reflexivity.
  - reflexivity.
  - reflexivity.
  - simpl. auto.
  - reflexivity.
Defined.

(** *** The argument record of a tool *)

Lemma destructuring_tools_need_a_record w name args :
  name = "find_product" \/ name = "get_customer_orders" ->
  nullish args = true ->
  exists m,
    call (Serverless.functionMap w name) args = ([], Throw (TypeError m)) /\
    call (Standalone.functionMap w name) args = ([], Throw (TypeError m)) /\
    Standalone.not_ (Standalone.functionMap w name) = false.
Proof.
  intros [-> | ->] Hn; destruct args; try discriminate Hn;
    eexists; repeat split; reflexivity.
Qed.

(** X11: when the argument text of an invocation of [find_product] or
    [get_customer_orders] parses to [null], the turn fails in both
    implementations with a [TypeError] raised by the destructuring of the
    parameter: the response is 500 with that error's message, and the
    first model call is the only call of the request (no commerce call,
    no second model call). *)
Theorem null_arguments_fail_before_commerce (w : World) (req : request)
    (msg : value) (fc : FunctionCall) (args : value) :
  fc_name fc = "find_product" \/ fc_name fc = "get_customer_orders" ->
  nullish args = true ->
  parse w (fc_arguments fc) = Ok args ->
  truthy (VStr (fc_arguments fc)) = true ->
  exists m,
    (serverless_accepts req msg -> nominates serverless w msg fc ->
     Serverless.handler w req
     = ([ModelCall (Serverless.first_request msg); ConsoleError (TypeError m)],
        Ok (failure (TypeError m)))) /\
    (standalone_accepts req msg -> nominates standalone w msg fc ->
     Standalone.chat w req
     = ([ModelCall (Standalone.first_request msg); ConsoleError (TypeError m)],
        Ok (failure (TypeError m)))).
Proof.
  intros Hname Hn Hparse Htext.
  destruct (@destructuring_tools_need_a_record w _ args Hname Hn) as (m & Hs & Ht & Hd).
  exists m. split.
  - intros Hacc (m1 & Hm & Hf).
    destruct (completion_inv _ _ Hm) as [ms Hc]. simpl in Hc.
    rewrite (serverless_handler_accepted w Hacc).
    unfold Serverless.runAssistant, await_create. rewrite Hc. cbn. rewrite Hf. cbn.
    cbn in Htext. rewrite Htext, Hparse. cbn. rewrite Hs. reflexivity.
  - intros Hacc (m1 & Hm & Hf).
    destruct (completion_inv _ _ Hm) as [ms Hc]. simpl in Hc.
    rewrite (standalone_chat_accepted w Hacc).
    unfold Standalone.turn, await_create. rewrite Hc. cbn. rewrite Hf. cbn.
    rewrite Hparse. cbn. rewrite Hd, Ht. reflexivity.
Qed.

Lemma null_arguments_fail_before_commerce_witness :
  exists m,
    Serverless.handler null_arguments_shop (post hello)
    = ([ModelCall (Serverless.first_request hello); ConsoleError (TypeError m)],
       Ok (failure (TypeError m))) /\
    Standalone.chat null_arguments_shop (post hello)
    = ([ModelCall (Standalone.first_request hello); ConsoleError (TypeError m)],
       Ok (failure (TypeError m))).
Proof.
  destruct (@null_arguments_fail_before_commerce null_arguments_shop (post hello)
              hello null_arguments VNull (or_introl eq_refl) eq_refl eq_refl eq_refl)
    as (m & H1 & H2).
  exists m. split.
  - apply H1; [apply post_accepted_serverless; discriminate|].
    eexists; split; reflexivity.
  - apply H2; [apply post_accepted_standalone; reflexivity|].
    eexists; split; reflexivity.
Defined.

(** X12: a tool reads one member of its argument record and nothing
    else.  Two argument records that agree on [query] make [find_product]
    send the same request and give the same result, in both
    implementations, and likewise for [get_customer_orders] and [email];
    [get_products] does not read its argument at all.  Members the catalog
    does not declare never reach the commerce platform, and a missing
    required member does not stop the call. *)
Theorem tools_read_one_argument (w : World) (p p' : value) :
  nullish p = false -> nullish p' = false ->
  (field "query" p = field "query" p' ->
   call (Serverless.functionMap w "find_product") p
   = call (Serverless.functionMap w "find_product") p' /\
   call (Standalone.functionMap w "find_product") p
   = call (Standalone.functionMap w "find_product") p') /\
  (field "email" p = field "email" p' ->
   call (Serverless.functionMap w "get_customer_orders") p
   = call (Serverless.functionMap w "get_customer_orders") p' /\
   call (Standalone.functionMap w "get_customer_orders") p
   = call (Standalone.functionMap w "get_customer_orders") p') /\
  (forall a b,
     call (Serverless.functionMap w "get_products") a
     = call (Serverless.functionMap w "get_products") b /\
     call (Standalone.functionMap w "get_products") a
     = call (Standalone.functionMap w "get_products") b).
Proof.
  intros Hp Hp'.
  change (call (Serverless.functionMap w "find_product"))
    with (Serverless.findProduct w).
  change (call (Standalone.functionMap w "find_product"))
    with (Standalone.findProduct w).
  change (call (Serverless.functionMap w "get_customer_orders"))
    with (Serverless.getCustomerOrders w).
  change (call (Standalone.functionMap w "get_customer_orders"))
    with (Standalone.getCustomerOrders w).
  unfold Serverless.findProduct, Standalone.findProduct,
    Serverless.getCustomerOrders, Standalone.getCustomerOrders, destructure.
  rewrite Hp, Hp'.
  split; [|split].
  - intros ->. split; reflexivity.
  - intros ->. split; reflexivity.
  - intros a b. split; reflexivity.
Qed.

Lemma tools_read_one_argument_witness :
  call (Serverless.functionMap six_products_shop "find_product") coffee
  = call (Serverless.functionMap six_products_shop "find_product") coffee_and_more /\
  call (Standalone.functionMap six_products_shop "find_product") coffee
  = call (Standalone.functionMap six_products_shop "find_product") coffee_and_more.
Proof.
  destruct (@tools_read_one_argument six_products_shop coffee coffee_and_more
              eq_refl eq_refl) as [H _].
  apply H. reflexivity.
Defined.

(** *** The name of a customer record *)

Lemma is_space2_blank a : is_space2 a " " = false.
Proof. unfold is_space2. apply andb_false_r. Qed.

Lemma is_space3_blank a b : is_space3 a b " " = false.
Proof.
  unfold is_space3. change (nat_of_ascii " ") with 32. cbn -[nat_of_ascii].
  rewrite !andb_false_r. reflexivity.
Qed.

Lemma append_blank_not_empty s : (s ++ " " =? "") = false.
Proof. destruct s; reflexivity. Qed.

Lemma trim_start_blank_bounded n s :
  String.length s <= n ->
  trim_start (s ++ " ")
  = if trim_start s =? "" then "" else trim_start s ++ " ".
Proof.
  revert s. induction n as [|n IH]; intros s Hlen.
  - destruct s; [reflexivity | simpl in Hlen; lia].
  - destruct s as [|a [|b [|c r]]]; simpl in Hlen.
    + reflexivity.
    + simpl. destruct (is_space a); [reflexivity|].
      rewrite is_space2_blank. reflexivity.
    + simpl. destruct (is_space a).
      * apply (IH (String b "")). simpl. lia.
      * destruct (is_space2 a b); [reflexivity|].
        rewrite is_space3_blank. reflexivity.
    + change (String a (String b (String c r)) ++ " ")
        with (String a (String b (String c (r ++ " ")))).
      cbn [trim_start]. destruct (is_space a).
      * apply (IH (String b (String c r))). simpl. lia.
      * destruct (is_space2 a b).
        -- apply (IH (String c r)). simpl. lia.
        -- destruct (is_space3 a b c); [apply IH; lia|reflexivity].
Qed.

Lemma trim_start_blank s :
  trim_start (s ++ " ")
  = if trim_start s =? "" then "" else trim_start s ++ " ".
Proof. apply (trim_start_blank_bounded (n := String.length s)). lia. Qed.

Lemma trim_end_space s : trim_end (s ++ " ") = trim_end s.
Proof.
  induction s as [|a r IH]; [reflexivity|].
  change (String a r ++ " ") with (String a (r ++ " ")).
  cbn [trim_end].
  change (String a (r ++ " ")) with (String a r ++ " ") at 1.
  rewrite trim_start_blank.
  destruct (trim_start (String a r) =? "") eqn:E; [reflexivity|].
  rewrite append_blank_not_empty, IH. reflexivity.
Qed.

Lemma trim_append_space s : trim (s ++ " ") = trim s.
Proof.
  unfold trim. rewrite trim_start_blank.
  destruct (trim_start s =? "") eqn:E.
  - apply String.eqb_eq in E. rewrite E. reflexivity.
  - apply trim_end_space.
Qed.

Lemma trim_prepend_space s : trim (" " ++ s) = trim s.
Proof. reflexivity. Qed.

Lemma falsy_or_empty v : truthy v = false -> toString (or_ v (VStr "")) = Ok "".
Proof. unfold or_. intros ->. reflexivity. Qed.

Lemma string_or_empty s : toString (or_ (VStr s) (VStr "")) = Ok s.
Proof. unfold or_. destruct (truthy (VStr s)) eqn:H; [reflexivity|].
  destruct s; [reflexivity|discriminate].
Qed.

(** X13: the [name] of a customer record of the standalone
    [get_customer_orders] is made of the names that are there: a customer
    without last name is named by the trimmed first name, one without
    first name by the trimmed last name, and one with neither by the empty
    string, [trim] stripping the white space and line terminators of
    [String.prototype.trim], the Unicode ones included; a missing name is
    never rendered as [null] or [undefined] and leaves no blank behind. *)
Theorem customer_name_skips_missing_parts (edge c : value) :
  Standalone.customer_record edge = Ok c ->
  let node := field "node" edge in
  (forall f, field "firstName" node = VStr f ->
             truthy (field "lastName" node) = false ->
             field "name" c = VStr (trim f)) /\
  (forall l, truthy (field "firstName" node) = false ->
             field "lastName" node = VStr l ->
             field "name" c = VStr (trim l)) /\
  (truthy (field "firstName" node) = false ->
   truthy (field "lastName" node) = false ->
   field "name" c = VStr "").
Proof.
  intros H. cbv zeta. unfold Standalone.customer_record in H.
  lets H.
  repeat match goal with
         | E : destructure _ _ = Ok _ |- _ =>
             apply destructure_inv in E; destruct E as [? E]
         | E : get _ _ = Ok _ |- _ => apply get_inv in E; destruct E as [? E]
         end.
  subst.
  match goal with
  | Ef : toString (or_ (field "firstName" _) _) = Ok ?f,
    El : toString (or_ (field "lastName" _) _) = Ok ?l |- _ =>
      rename Ef into Hfirst; rename El into Hlast
  end.
  inversion H as [Hc]; clear H.
  split; [|split].
  - intros f Hf Hl. rewrite Hf, string_or_empty in Hfirst.
    rewrite (falsy_or_empty _ Hl) in Hlast.
    inversion Hfirst; inversion Hlast; subst.
    match goal with
    | |- _ = VStr (trim ?x) => change (VStr (trim (x ++ " ")) = VStr (trim x))
    end.
    f_equal. apply trim_append_space.
  - intros l Hf Hl. rewrite Hl, string_or_empty in Hlast.
    rewrite (falsy_or_empty _ Hf) in Hfirst.
    inversion Hfirst; inversion Hlast; subst.
    reflexivity.
  - intros Hf Hl.
    rewrite (falsy_or_empty _ Hf) in Hfirst.
    rewrite (falsy_or_empty _ Hl) in Hlast.
    inversion Hfirst; inversion Hlast; subst.
    reflexivity.
Qed.

Lemma customer_name_skips_missing_parts_witness :
  exists c, Standalone.customer_record mononym_edge = Ok c /\ field "name" c = VStr "Ann".
Proof.
  destruct (Standalone.customer_record mononym_edge) as [c|e] eqn:H;
    [|vm_compute in H; discriminate].
  exists c. split; [reflexivity|].
  destruct (@customer_name_skips_missing_parts mononym_edge c H) as [Hn _].
  exact (Hn ("Ann" ++ nbsp) eq_refl eq_refl).
Defined.

(** *** The catalog and the table of functions *)

(** X14: the catalog sent to the model and the table the invocation is
    looked up in agree, in both implementations: a name is announced in
    the catalog exactly when it is one of [find_product],
    [get_customer_orders] and [get_products], and under each of these
    names [functionMap] holds a function. *)
Theorem catalog_matches_dispatch (w : World) (name : string) :
  (In (VStr name) (announced Serverless.functions) <-> known name = true) /\
  (In (VStr name) (announced Standalone.functions) <-> known name = true) /\
  (known name = true ->
   (exists f, Serverless.functionMap w name = Function f) /\
   (exists f, Standalone.functionMap w name = Function f)).
Proof.
  assert (H : In (VStr name) (map VStr tool_names) <-> known name = true).
  { rewrite known_cases. simpl. split.
    - intros [H|[H|[H|[]]]]; inversion H; subst; reflexivity.
    - intros H. apply orb_true_iff in H. destruct H as [H|H];
        [apply orb_true_iff in H; destruct H as [H|H]|];
        apply String.eqb_eq in H; subst; auto. }
  destruct catalogs_announce_tool_names as [-> ->].
  split; [exact H|]. split; [exact H|].
  rewrite known_cases. intros Hk.
  unfold Serverless.functionMap, Standalone.functionMap.
  destruct (name =? "find_product"); [split; eauto|].
  destruct (name =? "get_customer_orders"); [split; eauto|].
  destruct (name =? "get_products"); [split; eauto|discriminate].
Qed.

(** *** The requests sent to the model *)

Lemma outcome_conversation I w msg t resp :
  quiet I -> outcome I w msg t resp -> conversation I w msg (model_requests t).
Proof.
  intros Hq Ho. unfold conversation.
  inversion Ho; subst; simpl; try (left; reflexivity).
  - match goal with
    | Hl : lookup _ _ _ = Ok _, Hc : call _ _ = _ |- _ =>
        destruct (quiet_logs_nothing (Hq _ _ _ _ _ _ Hl Hc)) as [_ Hm]
    end.
    rewrite model_requests_app, Hm. left. reflexivity.
  - match goal with
    | Hl : lookup _ _ _ = Ok _, Hc : call _ _ = _ |- _ =>
        destruct (quiet_logs_nothing (Hq _ _ _ _ _ _ Hl Hc)) as [_ Hm]
    end.
    rewrite model_requests_app, Hm. right.
    exists m, fc, args, fn, tt, data. eexists. repeat split; eauto.
  - match goal with
    | Hl : lookup _ _ _ = Ok _, Hc : call _ _ = _ |- _ =>
        destruct (quiet_logs_nothing (Hq _ _ _ _ _ _ Hl Hc)) as [_ Hm]
    end.
    rewrite model_requests_app, Hm. right.
    exists m, fc, args, fn, tt, data. eexists. repeat split; eauto.
Qed.

(** X15: the requests an accepted message sends to the model.  In both
    implementations the first request carries the catalog, the mode
    [auto] and the system prompt followed by the user's message; it is
    the only one, or it is followed by exactly one request, sent after
    the nominated tool has returned, which has no catalog and whose
    messages are those of the first request followed by the model's
    message and by the tool's result, JSON-encoded, under the tool's
    name. *)
Theorem second_request_replays_first (w : World) (req : request) (msg : value) :
  (serverless_accepts req msg ->
   conversation serverless w msg (model_requests (fst (Serverless.handler w req)))) /\
  (standalone_accepts req msg ->
   conversation standalone w msg (model_requests (fst (Standalone.chat w req)))) /\
  opens (Serverless.first_request msg) Serverless.functions msg /\
  opens (Standalone.first_request msg) Standalone.functions msg /\
  (forall m name data,
     follows_up (Serverless.first_request msg)
       (Serverless.second_request msg m name data) m name data /\
     follows_up (Standalone.first_request msg)
       (Standalone.second_request msg m name data) m name data).
Proof.
  split; [|split; [|split; [|split]]].
  - intros Hacc. destruct (serverless_outcome w Hacc) as (t & resp & -> & Ho).
    apply (outcome_conversation serverless_quiet Ho).
  - intros Hacc. destruct (standalone_outcome w Hacc) as (t & resp & -> & Ho).
    apply (outcome_conversation standalone_quiet Ho).
  - repeat split. eexists. reflexivity.
  - repeat split. eexists. reflexivity.
  - intros m name data. repeat split.
Qed.

Lemma second_request_replays_first_witness :
  exists q2 data,
    model_requests (fst (Serverless.handler six_products_shop (post hello)))
    = [Serverless.first_request hello; q2] /\
    follows_up (Serverless.first_request hello) q2
      (invokes "find_product" "{}") "find_product" data.
Proof.
  destruct (second_request_replays_first six_products_shop (post hello) hello)
    as (H & _ & _ & _ & Hf).
  assert (Hacc : serverless_accepts (post hello) hello)
    by (apply post_accepted_serverless; discriminate).
  destruct (H Hacc) as [Hc|Hc].
  - vm_compute in Hc. discriminate.
  - destruct Hc as (m & fc & args & fn & tt & data & q2 & Hm & Hfc & _ & _ & _ & -> & Hq).
    vm_compute in Hm. inversion Hm; subst m. inversion Hfc; subst fc.
    eexists. exists data. split; [exact Hq|]. apply Hf.
Defined.

(** *** The two product listings *)

Lemma Forall2_mapM {A B} (f : A -> result B) (l : list A) (l' : list B) :
  Forall2 (fun x y => f x = Ok y) l l' -> mapM f l = Ok l'.
Proof.
  induction 1 as [|x y l l' Hxy _ IH]; simpl; [reflexivity|].
  rewrite Hxy. simpl. rewrite IH. reflexivity.
Qed.

Lemma listed_products_related x long :
  Standalone.listed_product x = Ok long ->
  exists short, Serverless.listed_product x = Ok short /\ listing_of short long.
Proof.
  unfold Standalone.listed_product, Serverless.listed_product. intros H. lets H.
  inversion H; subst; clear H.
  eexists. split; [|reflexivity].
  unfold rbind.
  repeat match goal with
         | E : ?r = Ok _ |- context [match ?r with Ok _ => _ | Throw _ => _ end] =>
             rewrite E; cbv beta iota
         end.
  reflexivity.
Qed.

Lemma listings_related l l2 :
  Forall2 (fun x y => Standalone.listed_product x = Ok y) l l2 ->
  exists l1, Forall2 (fun x y => Serverless.listed_product x = Ok y) l l1 /\
             Forall2 listing_of l1 l2.
Proof.
  induction 1 as [|x y l l2 Hxy _ (l1 & IH1 & IH2)].
  - exists []. split; constructor.
  - destruct (listed_products_related _ Hxy) as (s & Hs & Hl).
    exists (s :: l1). split; constructor; auto.
Qed.

(** X16: the serverless [get_products] returns whenever the standalone
    one does on the same answer of the platform, and what it returns is
    the standalone list without its [products] wrapper and with each
    record cut down to its [id] and [title]; both have made the one
    commerce request. *)
Theorem listing_variants_agree (w : World) (res : fetch_result)
    (t2 : list event) (r2 : value) :
  (forall r, fetch w r = res) ->
  Standalone.getProducts w = (t2, Ok r2) ->
  exists t1 l1 l2,
    Serverless.getProducts w = (t1, Ok (VArr l1)) /\
    r2 = VObj [("products", VArr l2)] /\
    Forall2 listing_of l1 l2 /\
    commerce_calls t1 = 1 /\ commerce_calls t2 = 1.
Proof.
  intros Hres H.
  assert (Hcount : commerce_calls t2 = 1).
  { pose proof (standalone_getProducts_once w) as Ho.
    apply one_attempt_counts in Ho. rewrite H in Ho. simpl in Ho.
    destruct Ho as (_ & _ & Ho). apply (Ho r2). reflexivity. }
  unfold Standalone.getProducts in H. steps H.
  match goal with Hc : Standalone.callShopify _ _ _ = _ |- _ =>
    apply standalone_callShopify_ok in Hc;
    destruct Hc as (_ & st & Hf & Herr & Hn) end.
  match type of Hf with
  | fetch _ _ = FetchResolved _ (Parsed ?j) =>
      assert (S : forall q v,
                 Serverless.callShopify w q v
                 = ([CommerceCall (graphql_request w q (default v (VObj [])))],
                    Ok (field "data" j)))
  end.
  { intros q v. destruct (serverless_callShopify_run w q v) as (_ & _ & _ & Hok).
    rewrite Hres in Hf. apply (Hok st); [rewrite Hres; exact Hf | exact Hn | exact Herr]. }
  repeat match goal with
         | E : rbind _ _ = Ok _ |- _ => lets E; inversion E; subst; clear E
         | E : opt_get _ _ = Ok _ |- _ => apply opt_get_inv in E; subst
         end.
  match goal with E : opt_array_map _ ?edges = Ok ?mapped |- _ =>
    unfold opt_array_map in E; destruct (nullish edges) eqn:Hedges end.
  - match goal with E : Ok _ = Ok _ |- _ => inversion E; subst; clear E end.
    exists [CommerceCall (graphql_request w Serverless.getProducts_gql (VObj []))], [], [].
    unfold Serverless.getProducts. rewrite S. cbn.
    repeat (rewrite opt_get_field; cbn).
    rewrite (or_nullish_empty _ Hedges). cbn.
    repeat split; auto.
  - match goal with E : array_map _ _ = Ok _ |- _ =>
      apply array_map_inv in E; destruct E as (l & l2 & Hl & -> & HF) end.
    destruct (listings_related HF) as (l1 & H1 & H12).
    exists [CommerceCall (graphql_request w Serverless.getProducts_gql (VObj []))], l1, l2.
    unfold Serverless.getProducts. rewrite S. cbn.
    repeat (rewrite opt_get_field; cbn).
    rewrite Hl. cbn. rewrite (Forall2_mapM _ H1). cbn.
    repeat split; auto.
Qed.

Lemma listing_variants_agree_witness :
  exists l1 l2,
    snd (Serverless.getProducts empty_arguments_shop) = Ok (VArr l1) /\
    snd (Standalone.getProducts empty_arguments_shop)
    = Ok (VObj [("products", VArr l2)]) /\
    Forall2 listing_of l1 l2.
Proof.
  destruct (Standalone.getProducts empty_arguments_shop) as [t2 [r2|e2]] eqn:E2;
    [|vm_compute in E2; discriminate].
  destruct (@listing_variants_agree empty_arguments_shop
              (FetchResolved 200
                 (Parsed (products [product_edge "gid://shopify/Product/1" "Coffee"])))
              t2 r2 (fun _ => eq_refl) E2)
    as (t1 & l1 & l2 & H1 & -> & HF & _).
  exists l1, l2. rewrite H1. auto.
Defined.

(** *** Where the commerce requests go *)

Lemma sends_after {A B} w g gql (r : result A) (k : A -> M B) :
  (forall a, sends w g gql (k a)) -> sends w g gql (bind (lift r) k).
Proof.
  intros H. rewrite bind_lift. destruct r as [a|e]; [apply H|]. left. reflexivity.
Qed.

Lemma sends_then {A B} w g gql (m : M A) (k : A -> M B) :
  sends w g gql m -> (forall a, silent (k a)) -> sends w g gql (bind m k).
Proof.
  intros Hm Hk. destruct m as [t [a|e]]; simpl in *.
  - specialize (Hk a). unfold silent in Hk. destruct (k a) as [t2 r2]. simpl in *.
    subst t2. rewrite app_nil_r. exact Hm.
  - exact Hm.
Qed.

Lemma serverless_callShopify_sends w gql v :
  sends w true gql (Serverless.callShopify w gql v).
Proof. right. split; [reflexivity|]. eexists. apply serverless_callShopify_trace. Qed.

Lemma standalone_callShopify_sends w gql v :
  sends w (configured w) gql (Standalone.callShopify w gql v).
Proof.
  pose proof (standalone_callShopify_trace w gql v) as H. unfold configured.
  destruct (missing (SHOPIFY_STORE w) || missing (SHOPIFY_TOKEN w)).
  - left. exact H.
  - right. split; [reflexivity|]. eexists. exact H.
Qed.

Ltac sends_tool lem :=
  try (apply sends_after; intros ?);
  apply sends_then; [apply lem|];
  intros ?; repeat (first [apply silent_bind_lift; intros ? | apply silent_lift
                          | apply silent_ret]).

Lemma serverless_tools_send w p :
  sends w true Serverless.findProduct_gql (Serverless.findProduct w p) /\
  sends w true Serverless.getCustomerOrders_gql (Serverless.getCustomerOrders w p) /\
  sends w true Serverless.getProducts_gql (Serverless.getProducts w).
Proof.
  split; [|split].
  - unfold Serverless.findProduct. sends_tool serverless_callShopify_sends.
  - unfold Serverless.getCustomerOrders. sends_tool serverless_callShopify_sends.
    destruct (negb (truthy _)); [apply silent_ret | apply silent_lift].
  - unfold Serverless.getProducts. sends_tool serverless_callShopify_sends.
Qed.

Lemma standalone_tools_send w p :
  sends w (configured w) Standalone.findProduct_gql (Standalone.findProduct w p) /\
  sends w (configured w) Standalone.getCustomerOrders_gql
    (Standalone.getCustomerOrders w p) /\
  sends w (configured w) Standalone.getProducts_gql (Standalone.getProducts w).
Proof.
  split; [|split].
  - unfold Standalone.findProduct. sends_tool standalone_callShopify_sends.
  - unfold Standalone.getCustomerOrders. sends_tool standalone_callShopify_sends.
  - unfold Standalone.getProducts. sends_tool standalone_callShopify_sends.
Qed.

Lemma sends_store_request {A} w g gql texts (m : M A) q :
  sends w g gql m -> In gql texts -> In (CommerceCall q) (fst m) ->
  g = true /\ store_request w texts q.
Proof.
  intros [Ht|(Hg & vars & Ht)] Hin Hq; rewrite Ht in Hq; simpl in Hq;
    [contradiction|].
  destruct Hq as [Hq|[]]. inversion Hq; subst q.
  split; [exact Hg|]. unfold store_request. repeat split.
  exists gql, vars. split; [exact Hin | reflexivity].
Qed.

Lemma serverless_call_request w name arg q :
  In (CommerceCall q) (fst (call (Serverless.functionMap w name) arg)) ->
  store_request w serverless_queries q.
Proof.
  destruct (serverless_tools_send w arg) as (H1 & H2 & H3).
  unfold Serverless.functionMap.
  destruct (name =? "find_product"); [|destruct (name =? "get_customer_orders");
    [|destruct (name =? "get_products")]]; simpl.
  - intros H. apply (@sends_store_request _ _ _ _ serverless_queries _ q H1); [simpl; auto | exact H].
  - intros H. apply (@sends_store_request _ _ _ _ serverless_queries _ q H2); [simpl; auto | exact H].
  - intros H. apply (@sends_store_request _ _ _ _ serverless_queries _ q H3); [simpl; auto | exact H].
  - destruct (call (Object_prototype name) arg) as [t r] eqn:Hc.
    apply Object_prototype_call in Hc. destruct Hc as [-> _]. contradiction.
Qed.

Lemma standalone_call_request w name arg q :
  In (CommerceCall q) (fst (call (Standalone.functionMap w name) arg)) ->
  configured w = true /\ store_request w standalone_queries q.
Proof.
  destruct (standalone_tools_send w arg) as (H1 & H2 & H3).
  unfold Standalone.functionMap.
  destruct (name =? "find_product"); [|destruct (name =? "get_customer_orders");
    [|destruct (name =? "get_products")]]; simpl.
  - intros H. refine (@sends_store_request _ _ _ _ standalone_queries _ q H1 _ H). simpl; auto.
  - intros H. refine (@sends_store_request _ _ _ _ standalone_queries _ q H2 _ H). simpl; auto.
  - intros H. refine (@sends_store_request _ _ _ _ standalone_queries _ q H3 _ H). simpl; auto.
  - destruct (call (Object_prototype name) arg) as [t r] eqn:Hc.
    apply Object_prototype_call in Hc. destruct Hc as [-> _]. contradiction.
Qed.

Lemma outcome_commerce I w msg t resp q :
  outcome I w msg t resp -> In (CommerceCall q) t ->
  exists name fn args,
    lookup I w name = Ok fn /\ In (CommerceCall q) (fst (call fn args)).
Proof.
  intros Ho Hq.
  inversion Ho; subst; simpl in Hq;
    repeat match goal with
           | H : _ \/ _ |- _ => destruct H as [H|H]; try discriminate H
           | H : False |- _ => contradiction
           | H : In _ (_ ++ _) |- _ => apply in_app_or in H; simpl in H
           end;
    match goal with
    | Hl : lookup _ _ _ = Ok ?fn, Hc : call ?fn ?args = _ |- _ =>
        exists (fc_name fc), fn, args; rewrite Hc; auto
    end.
Qed.

(** X17: every request either implementation sends to the commerce
    platform, on any request and whatever the model answers, is a POST to
    the GraphQL endpoint of the store of the environment, with the JSON
    content type and the access token of the environment, and its body is
    the JSON text of one of the three query texts of that implementation
    with its variables.  The standalone server sends none unless both
    credentials are set. *)
Theorem commerce_requests_go_to_the_store (w : World) (req : request)
    (q : fetch_request) :
  (In (CommerceCall q) (fst (Serverless.handler w req)) ->
   store_request w serverless_queries q) /\
  (In (CommerceCall q) (fst (Standalone.chat w req)) ->
   configured w = true /\ store_request w standalone_queries q).
Proof.
  split.
  - destruct (serverless_settles w req)
      as (t & resp & -> & [(_ & -> & _)|[(_ & _ & -> & _)|(_ & _ & Ho)]]);
      simpl; try contradiction.
    intros Hq. destruct (@outcome_commerce _ _ _ _ _ q Ho Hq) as (name & fn & args & Hl & Hin).
    simpl in Hl. inversion Hl; subst fn.
    exact (@serverless_call_request w name args q Hin).
  - destruct (standalone_settles w req)
      as (t & resp & -> & [(_ & -> & _)|(_ & Ho)]);
      simpl; try contradiction.
    intros Hq. destruct (@outcome_commerce _ _ _ _ _ q Ho Hq) as (name & fn & args & Hl & Hin).
    simpl in Hl. destruct (Standalone.not_ _); [discriminate|].
    inversion Hl; subst fn.
    exact (@standalone_call_request w name args q Hin).
Qed.

Lemma commerce_requests_go_to_the_store_witness :
  store_request six_products_shop serverless_queries
    (graphql_request six_products_shop Serverless.findProduct_gql
       (VObj [("query", VUndef)])).
Proof.
  destruct (commerce_requests_go_to_the_store six_products_shop (post hello)
              (graphql_request six_products_shop Serverless.findProduct_gql
                 (VObj [("query", VUndef)]))) as [H _].
  apply H. vm_compute. auto.
Defined.

(** ** The two implementations on the same answer *)

Import Records.

(** *** The records and the edges they are made from *)

Lemma tracking_record_of t r : tracking_record t = Ok r -> tracking_of t r.
Proof.
  unfold tracking_record. intros H. lets H. inversion H; subst.
  read_fields. repeat split.
Qed.

Lemma fulfillment_record_of f r : fulfillment_record f = Ok r -> fulfillment_of f r.
Proof.
  unfold fulfillment_record. intros H. lets H. inversion H; subst.
  match goal with E : array_map _ _ = Ok _ |- _ =>
    apply array_map_inv in E; destruct E as (ts & rs & Ht & -> & HF) end.
  read_fields. repeat split. exists ts, rs. repeat split; auto.
  eapply Forall2_impl; [|exact HF]. apply tracking_record_of.
Qed.

Lemma item_record_of e r : item_record e = Ok r -> item_of e r.
Proof.
  unfold item_record. intros H. lets H. inversion H; subst.
  read_fields. repeat split.
Qed.

Lemma order_record_of e r : order_record e = Ok r -> order_of e r.
Proof.
  unfold order_record. intros H. lets H. inversion H; subst.
  repeat match goal with E : array_map _ _ = Ok _ |- _ =>
    apply array_map_inv in E; destruct E as (? & ? & ? & -> & ?) end.
  subst.
  repeat match goal with
         | E : get _ _ = Ok (VArr _) |- _ => apply get_inv in E; destruct E as [_ E]
         | E : get_path _ [_; _] = Ok (VArr _) |- _ => apply get_path2_inv in E
         end.
  read_fields. unfold order_of, shop_money. cbn.
  do 5 (split; [reflexivity|]). split.
  - match goal with
    | E : VArr ?fs = field "fulfillments" _,
      F : Forall2 (fun x y => fulfillment_record x = Ok y) ?fs ?rs |- _ =>
        exists fs, rs; split; [symmetry; exact E|]; split; [reflexivity|];
        eapply Forall2_impl; [|exact F]; apply fulfillment_record_of
    end.
  - match goal with
    | E : VArr ?es = field "edges" _,
      F : Forall2 (fun x y => item_record x = Ok y) ?es ?rs |- _ =>
        exists es, rs; split; [symmetry; exact E|]; split; [reflexivity|];
        eapply Forall2_impl; [|exact F]; apply item_record_of
    end.
Qed.

Lemma orders_mapped node es r :
  get_path node ["orders"; "edges"] = Ok es -> array_map order_record es = Ok r ->
  orders_of node r.
Proof.
  intros Hp Hm. apply get_path2_inv in Hp. subst es.
  apply array_map_inv in Hm. destruct Hm as (l & l' & Hl & -> & HF).
  exists l, l'. repeat split; auto.
  eapply Forall2_impl; [|exact HF]. apply order_record_of.
Qed.

Lemma orders_of_customer node r : orders_of node r -> truthy node = true.
Proof.
  intros (es & rs & He & _). destruct node; try discriminate He; reflexivity.
Qed.

Lemma customer_record_of e c : Standalone.customer_record e = Ok c -> customer_of e c.
Proof.
  intros H. destruct (customer_record_orders _ H) as (_ & Hid & Hemail & es & Hp & Hm).
  repeat split; auto. eapply orders_mapped; eauto.
Qed.

Lemma serverless_listed_of e r : Serverless.listed_product e = Ok r -> listed_of e r.
Proof.
  unfold Serverless.listed_product. intros H. lets H. inversion H; subst.
  read_fields. repeat split.
Qed.

Lemma standalone_listed_of e r : Standalone.listed_product e = Ok r -> listed_of e r.
Proof.
  unfold Standalone.listed_product. intros H. lets H. inversion H; subst.
  read_fields. repeat split.
Qed.

(** *** What a tool that returned has read *)

Lemma serverless_getProducts_edges w t d :
  Serverless.getProducts w = (t, Ok d) ->
  exists r status json edges l,
    fetch w r = FetchResolved status (Parsed json) /\
    or_ (product_edges json) (VArr []) = VArr edges /\
    d = VArr l /\
    Forall2 (fun x y => Serverless.listed_product x = Ok y) edges l.
Proof.
  unfold Serverless.getProducts. intros H. steps H.
  match goal with Hc : Serverless.callShopify _ _ _ = _ |- _ =>
    apply serverless_callShopify_ok in Hc; destruct Hc as (st & json & Hf & _ & _ & ->) end.
  repeat match goal with
         | E : rbind _ _ = Ok _ |- _ => lets E; inversion E; subst; clear E
         | E : opt_get _ _ = Ok _ |- _ => apply opt_get_inv in E; subst
         end.
  match goal with Hm : array_map _ _ = Ok _ |- _ =>
    apply array_map_inv in Hm; destruct Hm as (l & l' & Hl & -> & HF) end.
  match type of Hf with
  | fetch _ ?r = FetchResolved _ (Parsed ?j) => exists r, st, j, l, l'
  end.
  auto.
Qed.

Lemma standalone_getProducts_edges w t d :
  Standalone.getProducts w = (t, Ok d) ->
  exists r status json edges l,
    fetch w r = FetchResolved status (Parsed json) /\
    or_ (product_edges json) (VArr []) = VArr edges /\
    d = VObj [("products", VArr l)] /\
    Forall2 (fun x y => Standalone.listed_product x = Ok y) edges l.
Proof.
  unfold Standalone.getProducts. intros H. steps H.
  match goal with Hc : Standalone.callShopify _ _ _ = _ |- _ =>
    apply standalone_callShopify_ok in Hc; destruct Hc as (_ & st & Hf & _ & _) end.
  repeat match goal with
         | E : rbind _ _ = Ok _ |- _ => lets E; inversion E; subst; clear E
         | E : opt_get _ _ = Ok _ |- _ => apply opt_get_inv in E; subst
         end.
  match type of Hf with
  | fetch _ ?r = FetchResolved _ (Parsed ?j) => exists r, st, j
  end.
  match goal with E : opt_array_map _ ?edges = Ok ?mapped |- _ =>
    unfold opt_array_map in E; destruct (nullish edges) eqn:Hedges end.
  - match goal with E : Ok _ = Ok _ |- _ => inversion E; subst; clear E end.
    exists [], []. unfold product_edges. rewrite (or_nullish_empty _ Hedges).
    repeat split; auto.
  - match goal with E : array_map _ _ = Ok _ |- _ =>
      apply array_map_inv in E; destruct E as (l & l' & Hl & -> & HF) end.
    exists l, l'. unfold product_edges. rewrite Hl. repeat split; auto.
Qed.

(** What the standalone [getCustomerOrders] that returned was answered. *)
Lemma standalone_getCustomerOrders_answer w p t d :
  Standalone.getCustomerOrders w p = (t, Ok d) ->
  nullish p = false /\ configured w = true /\
  exists r status json,
    fetch w r = FetchResolved status (Parsed json) /\
    nullish json = false /\ truthy (field "errors" json) = false /\
    (nullish (customer_edges json) = true \/ exists l, customer_edges json = VArr l).
Proof.
  unfold Standalone.getCustomerOrders. intros H. steps H.
  match goal with E : destructure _ _ = Ok _ |- _ =>
    apply destructure_inv in E; destruct E as [Hp _] end.
  match goal with Hc : Standalone.callShopify _ _ _ = _ |- _ =>
    apply standalone_callShopify_ok in Hc;
    destruct Hc as (Hconf & st & Hf & Herr & Hn) end.
  split; [exact Hp|]. split; [exact Hconf|].
  match type of Hf with
  | fetch _ ?r = FetchResolved _ (Parsed ?j) => exists r, st, j
  end.
  repeat split; auto.
  repeat match goal with
         | E : rbind _ _ = Ok _ |- _ => lets E; inversion E; subst; clear E
         | E : opt_get _ _ = Ok _ |- _ => apply opt_get_inv in E; subst
         end.
  match goal with E : opt_array_map _ ?edges = Ok ?mapped |- _ =>
    unfold opt_array_map in E; destruct (nullish edges) eqn:Hedges end.
  - left. exact Hedges.
  - right. match goal with E : array_map _ _ = Ok _ |- _ =>
      apply array_map_inv in E; destruct E as (l & l' & Hl & _) end.
    exists l. exact Hl.
Qed.

(** The serverless [getCustomerOrders] on an answer without customer. *)
Lemma serverless_without_customer w p status json :
  (forall r, fetch w r = FetchResolved status (Parsed json)) ->
  nullish json = false ->
  nullish (customer_edges json) = true \/ customer_edges json = VArr [] ->
  forall t r1, Serverless.getCustomerOrders w p = (t, Ok r1) -> r1 = VArr [].
Proof.
  intros Hfetch Hn He t r1 H.
  destruct (nullish p) eqn:Hp.
  { unfold Serverless.getCustomerOrders, destructure in H. rewrite Hp in H.
    discriminate. }
  destruct (truthy (field "errors" json)) eqn:Herr.
  { unfold Serverless.getCustomerOrders, destructure in H.
    rewrite Hp, bind_lift in H.
    destruct (serverless_callShopify_run w Serverless.getCustomerOrders_gql
                (VObj [("email", field "email" p)])) as (_ & _ & S3 & _).
    rewrite (S3 status json (Hfetch _) Herr) in H. discriminate. }
  assert (S : forall q v,
             Serverless.callShopify w q v
             = ([CommerceCall (graphql_request w q (default v (VObj [])))],
                Ok (field "data" json))).
  { intros q v. destruct (serverless_callShopify_run w q v) as (_ & _ & _ & Hok).
    apply (Hok status json (Hfetch _) Hn Herr). }
  unfold customer_edges in He.
  unfold Serverless.getCustomerOrders, destructure in H.
  rewrite Hp, bind_lift, S in H. cbn in H.
  repeat (rewrite opt_get_field in H; cbn in H).
  destruct He as [He|He].
  - rewrite (opt_first_nullish _ He) in H. cbn in H. inversion H. reflexivity.
  - rewrite He in H. cbn in H. inversion H. reflexivity.
Qed.

(** The serverless [getCustomerOrders] on an answer with a customer edge. *)
Lemma serverless_with_customer w p status json edge rest :
  (forall r, fetch w r = FetchResolved status (Parsed json)) ->
  customer_edges json = VArr (edge :: rest) ->
  forall t r1, Serverless.getCustomerOrders w p = (t, Ok r1) ->
    (truthy (field "node" edge) = false /\ r1 = VArr []) \/
    (truthy (field "node" edge) = true /\
     exists es, get_path (field "node" edge) ["orders"; "edges"] = Ok es /\
                array_map order_record es = Ok r1).
Proof.
  intros Hfetch He t r1 H.
  pose proof (@serverless_orders_of_first w status json p edge rest Hfetch He) as Hs.
  rewrite H in Hs. simpl in Hs. unfold orders_of_first in Hs.
  destruct (destructure p "email"); simpl in Hs; [|discriminate].
  destruct (truthy (field "errors" json)); [discriminate|].
  destruct (truthy (field "node" edge)); simpl in Hs.
  - right. split; [reflexivity|].
    destruct (get_path (field "node" edge) ["orders"; "edges"]) as [es|] eqn:Hp;
      simpl in Hs; [|discriminate].
    exists es. split; [reflexivity | symmetry; exact Hs].
  - left. inversion Hs. auto.
Qed.

Lemma standalone_customers w p status json t r2 :
  (forall r, fetch w r = FetchResolved status (Parsed json)) ->
  Standalone.getCustomerOrders w p = (t, Ok r2) ->
  exists cs,
    r2 = VObj [("customers", VArr cs)] /\
    ((nullish (customer_edges json) = true /\ cs = []) \/
     exists l, customer_edges json = VArr l /\
               Forall2 (fun x y => Standalone.customer_record x = Ok y) l cs).
Proof.
  intros Hfetch H.
  destruct (standalone_getCustomerOrders_answer _ _ H)
    as (Hp & Hc & q & st & j & Hf & Hn & Herr & Hedges).
  rewrite Hfetch in Hf. inversion Hf; subst j st.
  destruct Hedges as [He|[l Hl]].
  - exists []. split; [|left; auto].
    destruct (standalone_callShopify_run w Standalone.getCustomerOrders_gql
                (VObj [("email", field "email" p)]) Hc) as (_ & _ & _ & Hok).
    unfold Standalone.getCustomerOrders, destructure in H.
    rewrite Hp, bind_lift, (Hok status json (Hfetch _) Hn Herr) in H. cbn in H.
    repeat (rewrite opt_get_field in H; cbn in H).
    unfold customer_edges in He.
    rewrite (opt_array_map_nullish _ _ He) in H. cbn in H.
    inversion H. reflexivity.
  - destruct (@standalone_getCustomerOrders_edges w status json p t r2 l Hfetch Hl H)
      as (cs & -> & HF).
    exists cs. split; [reflexivity|]. right. exists l. auto.
Qed.

Lemma listed_records_agree x a b :
  Serverless.listed_product x = Ok a -> Standalone.listed_product x = Ok b ->
  listing_of a b.
Proof.
  intros Ha Hb. destruct (listed_products_related _ Hb) as (s & Hs & Hl).
  rewrite Ha in Hs. inversion Hs; subst. exact Hl.
Qed.

(** C9: on the same answer of the platform, whenever both implementations
    of a tool return, the serverless one returns a bare array and the
    standalone one an object wrapping an array, so the two results are
    never equal, and the arrays hold the same records made from the
    answer.  For [find_product]: one product per product edge, in order,
    with the fields of its node, under [products] in the standalone
    server; the products at the same position agree under every key.  For
    [get_customer_orders]: the standalone server returns one customer
    record per customer edge under [customers], each with the [id],
    [email] and order records of its node, and the serverless function
    returns the order records of the first customer edge, which are the
    [orders] of the first standalone record; both are empty when the
    answer has no customer edge.  For [get_products]: one record per
    product edge, with the [id] and [title] of its node, the serverless
    record being the standalone one cut down to these two. *)
Theorem variants_shape_results_differently (w : World) (p : value)
    (res : fetch_result) (t1 t2 : list event) (r1 r2 : value) :
  (forall r, fetch w r = res) ->
  (Serverless.findProduct w p = (t1, Ok r1) ->
   Standalone.findProduct w p = (t2, Ok r2) ->
   exists status json edges l1 l2,
     res = FetchResolved status (Parsed json) /\
     or_ (product_edges json) (VArr []) = VArr edges /\
     r1 = VArr l1 /\ r2 = VObj [("products", VArr l2)] /\ r1 <> r2 /\
     Forall2 product_of edges l1 /\ Forall2 product_of edges l2 /\
     Forall2 same_fields l1 l2) /\
  (Serverless.getCustomerOrders w p = (t1, Ok r1) ->
   Standalone.getCustomerOrders w p = (t2, Ok r2) ->
   exists status json cs,
     res = FetchResolved status (Parsed json) /\
     r2 = VObj [("customers", VArr cs)] /\ r1 <> r2 /\
     (nullish (customer_edges json) = true \/ exists l, customer_edges json = VArr l) /\
     (nullish (customer_edges json) = true \/ customer_edges json = VArr [] ->
      r1 = VArr [] /\ cs = []) /\
     (forall edge rest, customer_edges json = VArr (edge :: rest) ->
        orders_of (field "node" edge) r1 /\
        Forall2 customer_of (edge :: rest) cs /\
        exists c cs', cs = c :: cs' /\ field "orders" c = r1)) /\
  (Serverless.getProducts w = (t1, Ok r1) ->
   Standalone.getProducts w = (t2, Ok r2) ->
   exists status json edges l1 l2,
     res = FetchResolved status (Parsed json) /\
     or_ (product_edges json) (VArr []) = VArr edges /\
     r1 = VArr l1 /\ r2 = VObj [("products", VArr l2)] /\ r1 <> r2 /\
     Forall2 listed_of edges l1 /\ Forall2 listed_of edges l2 /\
     Forall2 listing_of l1 l2).
Proof.
  intros Hres. split; [|split]; intros H1 H2.
  - apply serverless_findProduct_edges in H1.
    destruct H1 as (q1 & s1 & j1 & e1 & l1 & Hf1 & He1 & -> & F1).
    apply standalone_findProduct_edges in H2.
    destruct H2 as (q2 & s2 & j2 & e2 & l2 & Hf2 & He2 & -> & F2).
    rewrite Hres in Hf1. rewrite Hres in Hf2. rewrite Hf1 in Hf2.
    inversion Hf2 as [[Hs Hj]]. rewrite <- Hj in He2. rewrite He1 in He2.
    inversion He2 as [He]. rewrite <- He in F2.
    exists s1, j1, e1, l1, l2. repeat split; auto; try discriminate.
    + eapply Forall2_impl; [|exact F1]. apply serverless_product_of.
    + eapply Forall2_impl; [|exact F2]. apply standalone_product_of.
    + eapply Forall2_through; [|exact F1|exact F2].
      intros x a b. apply product_records_same_fields.
  - destruct (standalone_getCustomerOrders_answer _ _ H2)
      as (_ & _ & q & st & json & Hf & Hn & _ & Hedges).
    rewrite Hres in Hf.
    assert (Hfetch : forall r, fetch w r = FetchResolved st (Parsed json))
      by (intros r; rewrite Hres; exact Hf).
    destruct (@standalone_customers w p st json t2 r2 Hfetch H2) as (cs & -> & Hcs).
    exists st, json, cs. split; [exact Hf|]. split; [reflexivity|].
    split; [|split; [exact Hedges|split]].
    + pose proof H1 as H1'. apply serverless_getCustomerOrders_shape in H1'.
      destruct H1' as [l ->]. discriminate.
    + intros He. split.
      * apply (@serverless_without_customer w p st json Hfetch Hn He t1 r1 H1).
      * destruct Hcs as [[_ ->]|(l & Hl & HF)]; [reflexivity|].
        destruct He as [He|He]; rewrite Hl in He; [discriminate|].
        inversion He; subst l. inversion HF. reflexivity.
    + intros edge rest He.
      destruct Hcs as [[Hnull _]|(l & Hl & HF)];
        [rewrite He in Hnull; discriminate|].
      rewrite He in Hl. inversion Hl; subst l.
      inversion HF as [|x c l cs' Hc HF' E1 E2]; subst.
      destruct (customer_record_orders _ Hc) as (Ht & _ & _ & es & Hpath & Hmap).
      destruct (@serverless_with_customer w p st json edge rest Hfetch He t1 r1 H1)
        as [[Hfalse _]|(_ & es' & Hpath' & Hmap')]; [congruence|].
      assert (es' = es) by congruence. subst es'.
      assert (Ho : field "orders" c = r1) by congruence.
      split; [|split].
      * eapply orders_mapped; [exact Hpath | exact Hmap'].
      * eapply Forall2_impl; [|exact HF]. apply customer_record_of.
      * exists c, cs'. auto.
  - apply serverless_getProducts_edges in H1.
    destruct H1 as (q1 & s1 & j1 & e1 & l1 & Hf1 & He1 & -> & F1).
    apply standalone_getProducts_edges in H2.
    destruct H2 as (q2 & s2 & j2 & e2 & l2 & Hf2 & He2 & -> & F2).
    rewrite Hres in Hf1. rewrite Hres in Hf2. rewrite Hf1 in Hf2.
    inversion Hf2 as [[Hs Hj]]. rewrite <- Hj in He2. rewrite He1 in He2.
    inversion He2 as [He]. rewrite <- He in F2.
    exists s1, j1, e1, l1, l2. repeat split; auto; try discriminate.
    + eapply Forall2_impl; [|exact F1]. apply serverless_listed_of.
    + eapply Forall2_impl; [|exact F2]. apply standalone_listed_of.
    + eapply Forall2_through; [|exact F1|exact F2].
      intros x a b. apply listed_records_agree.
Qed.

Lemma variants_shape_results_differently_witness :
  (exists l1 l2,
     snd (Serverless.findProduct six_products_shop coffee) = Ok (VArr l1) /\
     snd (Standalone.findProduct six_products_shop coffee)
     = Ok (VObj [("products", VArr l2)]) /\
     VArr l1 <> VObj [("products", VArr l2)] /\ Forall2 same_fields l1 l2) /\
  (exists orders c,
     snd (Serverless.getCustomerOrders one_customer_shop doe) = Ok orders /\
     snd (Standalone.getCustomerOrders one_customer_shop doe)
     = Ok (VObj [("customers", VArr [c])]) /\
     field "orders" c = orders).
Proof.
  split.
  - destruct (Serverless.findProduct six_products_shop coffee) as [t1 [r1|e1]] eqn:E1;
      [|vm_compute in E1; discriminate].
    destruct (Standalone.findProduct six_products_shop coffee) as [t2 [r2|e2]] eqn:E2;
      [|vm_compute in E2; discriminate].
    destruct (@variants_shape_results_differently six_products_shop coffee
                (FetchResolved 200 (Parsed six_products)) t1 t2 r1 r2
                (fun _ => eq_refl)) as (H & _ & _).
    destruct (H E1 E2) as (st & json & edges & l1 & l2 & _ & _ & -> & -> & Hne & _ & _ & Hs).
    exists l1, l2. auto.
  - destruct (Serverless.getCustomerOrders one_customer_shop doe)
      as [t1 [r1|e1]] eqn:E1; [|vm_compute in E1; discriminate].
    destruct (Standalone.getCustomerOrders one_customer_shop doe)
      as [t2 [r2|e2]] eqn:E2; [|vm_compute in E2; discriminate].
    destruct (@variants_shape_results_differently one_customer_shop doe
                (FetchResolved 200 (Parsed one_customer)) t1 t2 r1 r2
                (fun _ => eq_refl)) as (_ & H & _).
    destruct (H E1 E2) as (st & json & cs & Hres & -> & _ & _ & _ & Hfirst).
    inversion Hres; subst st json.
    destruct (Hfirst _ _ eq_refl) as (_ & HF & c & cs' & -> & Ho).
    inversion HF as [|? ? ? ? _ HF']; subst. inversion HF'; subst.
    do 2 eexists. split; [reflexivity|]. split; [reflexivity|].
    first [reflexivity | assumption].
Defined.


